(** * Booking and appointment-state engine of the online consultation backend

    A shallow embedding of the Go services (package [services]), of the
    repositories they call (package [repositories]) and of the records they
    store (package [models]).

    The database is a record of tables, each a list of rows in insertion
    order.  A table has the columns that [database.Migrate] gives it: those
    of its model struct, through [AutoMigrate]; table [appointments] also
    has the unique index [uniq_slot_confirmed] of [createIndexes].  Service
    methods are computations in a state-and-error monad over that record: a
    Go method returning [(x, nil)] is [Ok x], one returning
    [errors.New("m")] is [Err "m"], and a failed method keeps whatever it
    wrote before failing, as the Go code has no transaction around it.

    A repository call fails when the row it looks for is missing, when its
    statement names a column that the table does not have, and when its
    write breaks the unique index.  Outside the model: transient storage
    failures, check constraints and foreign keys. *)

From Stdlib Require Import ZArith NArith List String Ascii Bool Lia.
From Stdlib Require Import Permutation Sorted.
Import ListNotations.
Local Open Scope string_scope.
Local Open Scope list_scope.

(** ** Base types *)

(** Go's [uint] for primary keys; no arithmetic on them can wrap here. *)
Definition uint := N.
Bind Scope N_scope with uint.

(** A [time.Time] is an instant on the time line, counted in nanoseconds,
    the unit of [time.Duration], from the start of 1970 in UTC. *)
Definition Time := Z.
Bind Scope Z_scope with Time.

Module time.
(** The zero value [time.Time{}], the start of year 1 in UTC. *)
Definition zero : Time := -62135596800000000000.
Definition IsZero (t : Time) : bool := Z.eqb t zero.

Definition Before (t u : Time) : bool := Z.ltb t u.
Definition After (t u : Time) : bool := Z.ltb u t.
Definition Equal (t u : Time) : bool := Z.eqb t u.

(** [time.Hour], a [time.Duration]: a number of nanoseconds. *)
Definition Hour : Z := 3600000000000.
Definition Add (t : Time) (d : Z) : Time := t + d.

(** [time.Date(t.Year(), t.Month(), t.Day(), 0, 0, 0, 0, t.Location())]
    for a [t] in UTC, the instants being counted from a midnight UTC: the
    midnight at which the day of [t] starts. *)
Definition midnight (t : Time) : Time := t / (24 * Hour) * (24 * Hour).
End time.

(** What a Go method returns: a value, or an [error] with its message. *)
Inductive result (A : Type) : Type :=
| Ok (a : A)
| Err (msg : string).
Arguments Ok {A} a.
Arguments Err {A} msg.

Definition is_ok {A} (r : result A) : bool :=
  match r with Ok _ => true | Err _ => false end.

(** [gorm.ErrRecordNotFound]. *)
Definition ErrRecordNotFound : string := "record not found".

(** ** package models

    An appointment has all the columns of its struct.  Of the other
    structs the model keeps the columns the services read or write:
    [CreatedAt] and [UpdatedAt], which the ORM keeps, are left out, and
    [DeletedAt] is kept for the tables from which a service deletes.
    Relation fields ([Patient], [Doctor], [Messages], ...) are views of
    other tables filled by [Preload]; only [AvailabilitySlot.Appointment]
    is ever tested by a service, so only that one is kept. *)

Module User.
Record t := mk { ID : uint; Role : string }.
End User.

Module Appointment.
Record t := mk {
  ID : uint;
  PatientID : uint;
  DoctorID : uint;
  SlotID : option uint;
  Status : string;
  Notes : string;
  CreatedAt : Time;
  UpdatedAt : Time;
  DeletedAt : option Time
}.

Definition with_ID (a : t) (id : uint) : t :=
  mk id (PatientID a) (DoctorID a) (SlotID a) (Status a) (Notes a)
     (CreatedAt a) (UpdatedAt a) (DeletedAt a).
Definition with_Status (a : t) (s : string) : t :=
  mk (ID a) (PatientID a) (DoctorID a) (SlotID a) s (Notes a)
     (CreatedAt a) (UpdatedAt a) (DeletedAt a).
Definition with_Notes (a : t) (n : string) : t :=
  mk (ID a) (PatientID a) (DoctorID a) (SlotID a) (Status a) n
     (CreatedAt a) (UpdatedAt a) (DeletedAt a).
Definition with_CreatedAt (a : t) (c : Time) : t :=
  mk (ID a) (PatientID a) (DoctorID a) (SlotID a) (Status a) (Notes a)
     c (UpdatedAt a) (DeletedAt a).
Definition with_UpdatedAt (a : t) (u : Time) : t :=
  mk (ID a) (PatientID a) (DoctorID a) (SlotID a) (Status a) (Notes a)
     (CreatedAt a) u (DeletedAt a).
End Appointment.

Module AvailabilitySlot.
Record t := mk {
  ID : uint;
  DoctorID : uint;
  StartTime : Time;
  EndTime : Time;
  Status : string;
  DeletedAt : option Time;
  (* relation, [nil] unless preloaded *)
  Appointment : option Appointment.t
}.

Definition with_ID (s : t) (id : uint) : t :=
  mk id (DoctorID s) (StartTime s) (EndTime s) (Status s) (DeletedAt s)
     (Appointment s).
Definition with_Status (s : t) (v : string) : t :=
  mk (ID s) (DoctorID s) (StartTime s) (EndTime s) v (DeletedAt s)
     (Appointment s).
End AvailabilitySlot.

Module Message.
Record t := mk {
  ID : uint;
  AppointmentID : uint;
  SenderUserID : uint;
  Body : string;
  AttachmentURL : option string;
  ReadAt : option Time
}.

Definition with_ID (m : t) (id : uint) : t :=
  mk id (AppointmentID m) (SenderUserID m) (Body m) (AttachmentURL m)
     (ReadAt m).
Definition with_ReadAt (m : t) (r : option Time) : t :=
  mk (ID m) (AppointmentID m) (SenderUserID m) (Body m) (AttachmentURL m) r.
End Message.

Module VideoSession.
Record t := mk {
  ID : uint;
  AppointmentID : uint;
  RoomID : string;
  StartedAt : option Time;
  EndedAt : option Time
}.

Definition with_ID (v : t) (id : uint) : t :=
  mk id (AppointmentID v) (RoomID v) (StartedAt v) (EndedAt v).
Definition with_StartedAt (v : t) (s : option Time) : t :=
  mk (ID v) (AppointmentID v) (RoomID v) s (EndedAt v).
Definition with_EndedAt (v : t) (e : option Time) : t :=
  mk (ID v) (AppointmentID v) (RoomID v) (StartedAt v) e.
End VideoSession.

Module Prescription.
Record t := mk {
  ID : uint;
  AppointmentID : uint;
  ItemsJSON : string;
  Notes : string;
  CreatedByDoctorID : uint;
  DeletedAt : option Time
}.

Definition with_ID (p : t) (id : uint) : t :=
  mk id (AppointmentID p) (ItemsJSON p) (Notes p) (CreatedByDoctorID p)
     (DeletedAt p).
Definition with_ItemsJSON (p : t) (j : string) : t :=
  mk (ID p) (AppointmentID p) j (Notes p) (CreatedByDoctorID p)
     (DeletedAt p).
Definition with_Notes (p : t) (n : string) : t :=
  mk (ID p) (AppointmentID p) (ItemsJSON p) n (CreatedByDoctorID p)
     (DeletedAt p).
Definition with_DeletedAt (p : t) (d : option Time) : t :=
  mk (ID p) (AppointmentID p) (ItemsJSON p) (Notes p) (CreatedByDoctorID p)
     d.
End Prescription.

(** ** The database *)

(** The three sub-resource tables of an appointment, and the accesses the
    repositories make to them, recorded in the order they happen. *)
Inductive Table := Messages | Prescriptions | VideoSessions.

Inductive Event :=
| ReadByID (tbl : Table) (id : uint)
| ReadByAppointment (tbl : Table) (appointmentID : uint)
| Mutation (tbl : Table).

Record Store := mkStore {
  users : list User.t;
  availability_slots : list AvailabilitySlot.t;
  appointments : list Appointment.t;
  messages : list Message.t;
  prescriptions : list Prescription.t;
  video_sessions : list VideoSession.t;
  log : list Event
}.

Definition set_availability_slots (st : Store) (v : list AvailabilitySlot.t) :=
  mkStore (users st) v (appointments st) (messages st) (prescriptions st)
          (video_sessions st) (log st).
Definition set_appointments (st : Store) (v : list Appointment.t) :=
  mkStore (users st) (availability_slots st) v (messages st)
          (prescriptions st) (video_sessions st) (log st).
Definition set_messages (st : Store) (v : list Message.t) :=
  mkStore (users st) (availability_slots st) (appointments st) v
          (prescriptions st) (video_sessions st) (log st).
Definition set_prescriptions (st : Store) (v : list Prescription.t) :=
  mkStore (users st) (availability_slots st) (appointments st) (messages st)
          v (video_sessions st) (log st).
Definition set_video_sessions (st : Store) (v : list VideoSession.t) :=
  mkStore (users st) (availability_slots st) (appointments st) (messages st)
          (prescriptions st) v (log st).
Definition set_log (st : Store) (v : list Event) :=
  mkStore (users st) (availability_slots st) (appointments st) (messages st)
          (prescriptions st) (video_sessions st) v.

(** The next value of a table's auto-increment key. *)
Definition next_id {A} (key : A -> uint) (rows : list A) : uint :=
  N.succ (fold_right (fun r m => N.max (key r) m) 0%N rows).

(** ** The state-and-error monad of the services *)

Definition M (A : Type) : Type := Store -> result A * Store.

Definition ret {A} (a : A) : M A := fun st => (Ok a, st).
Definition fail {A} (msg : string) : M A := fun st => (Err msg, st).
Definition bind {A B} (c : M A) (k : A -> M B) : M B :=
  fun st =>
    match c st with
    | (Ok a, st') => k a st'
    | (Err e, st') => (Err e, st')
    end.

(** [x, err := c; if err != nil || x == nil { return errors.New(msg) }] *)
Definition or_fail {A} (c : M A) (msg : string) : M A :=
  fun st =>
    match c st with
    | (Ok a, st') => (Ok a, st')
    | (Err _, st') => (Err msg, st')
    end.

Definition gets {A} (f : Store -> A) : M A := fun st => (Ok (f st), st).
Definition modify (f : Store -> Store) : M unit := fun st => (Ok tt, f st).
Definition record (e : Event) : M unit :=
  modify (fun st => set_log st (log st ++ [e])).

Declare Scope go_scope.
Delimit Scope go_scope with go.
Notation "x <- c ;; k" := (bind c (fun x => k))
  (at level 61, c at next level, right associativity) : go_scope.
Notation "c ;;; k" := (bind c (fun _ => k))
  (at level 61, right associativity) : go_scope.
Local Open Scope go_scope.

(** [First]: the first row that matches, or [ErrRecordNotFound]. *)
Definition first_row {A} (p : A -> bool) (rows : list A) : result A :=
  match find p rows with
  | Some r => Ok r
  | None => Err ErrRecordNotFound
  end.

Definition lift {A} (r : result A) : M A := fun st => (r, st).

(** ** package repositories *)

Module userRepository.
(** [db.First(&user, id)] *)
Definition FindByID (id : uint) : M User.t :=
  fun st => (first_row (fun u => N.eqb (User.ID u) id) (users st), st).
End userRepository.

(** What the database answers to a statement it refuses, in the words of
    the PostgreSQL driver, and the order in which it returns rows. *)
Module sql.
Definition quoted (name : string) : string :=
  String (ascii_of_nat 34) (name ++ String (ascii_of_nat 34) "").

(** The statement names a column that the table does not have. *)
Definition ErrUndefinedColumn (column : string) : string :=
  "ERROR: column " ++ quoted column ++ " does not exist (SQLSTATE 42703)".

(** The write would put two rows under one key of a unique index. *)
Definition ErrUniqueViolation (index : string) : string :=
  "ERROR: duplicate key value violates unique constraint " ++ quoted index
  ++ " (SQLSTATE 23505)".

(** The order in which a query returns its rows, as far as no [ORDER BY]
    fixes it, is the database's choice: some arrangement of the rows, and
    nothing more. *)
Record RowOrder (A : Type) := {
  arrange : list A -> list A;
  arrange_perm : forall l : list A, Permutation (arrange l) l
}.
Arguments arrange {A} _ _.
Arguments arrange_perm {A} _ _.

Definition as_stored {A : Type} : RowOrder A :=
  {| arrange := fun l => l;
     arrange_perm := fun l => Permutation_refl l |}.

Definition backwards {A : Type} : RowOrder A :=
  {| arrange := fun l => rev l;
     arrange_perm := fun l => Permutation_sym (Permutation_rev l) |}.

(** [ORDER BY key DESC] over rows that come as [l] has them: rows with
    equal keys stay in that order. *)
Fixpoint insert_desc {A} (key : A -> Time) (x : A) (l : list A) : list A :=
  match l with
  | [] => [x]
  | y :: t => if Z.leb (key y) (key x) then x :: y :: t
              else y :: insert_desc key x t
  end.

Definition order_by_desc {A} (key : A -> Time) (l : list A) : list A :=
  fold_right (insert_desc key) [] l.
End sql.

Module appointmentRepository.

(** The struct has a [DeletedAt]: every query leaves out the rows that
    are marked. *)
Definition live (a : Appointment.t) : bool :=
  match Appointment.DeletedAt a with None => true | Some _ => false end.

(** [CREATE UNIQUE INDEX uniq_slot_confirmed ON appointments(slot_id)
     WHERE status IN ('pending','confirmed')]: the key under which the
    index holds a row, when it holds it.  A row without a slot is under no
    key, as two [NULL]s are never equal. *)
Definition uniq_slot_confirmed : string := "uniq_slot_confirmed".

Definition indexed (a : Appointment.t) : option uint :=
  if String.eqb (Appointment.Status a) "pending"
     || String.eqb (Appointment.Status a) "confirmed"
  then Appointment.SlotID a else None.

(** Row [r] is another row, and the index holds it under the key of [a]. *)
Definition clashes (a r : Appointment.t) : bool :=
  negb (N.eqb (Appointment.ID r) (Appointment.ID a))
  && match indexed a, indexed r with
     | Some s, Some s' => N.eqb s s'
     | _, _ => false
     end.

(** The time stamps of a struct that is inserted: [CreatedAt] and
    [UpdatedAt] become [now], the value of [db.NowFunc()], when they are
    zero. *)
Definition stamp (now : Time) (a : Appointment.t) : Appointment.t :=
  let a := if time.IsZero (Appointment.CreatedAt a)
           then Appointment.with_CreatedAt a now else a in
  if time.IsZero (Appointment.UpdatedAt a)
  then Appointment.with_UpdatedAt a now else a.

(** [db.Create(appointment)]: the key is drawn when the struct has none,
    the struct is stamped and its columns are written, unless the index
    refuses the row; the struct receives the key and the stamps. *)
Definition Create (now : Time) (a : Appointment.t) : M Appointment.t :=
  fun st =>
    let id := if N.eqb (Appointment.ID a) 0
              then next_id Appointment.ID (appointments st)
              else Appointment.ID a in
    let a' := stamp now (Appointment.with_ID a id) in
    if existsb (clashes a') (appointments st)
    then (Err (sql.ErrUniqueViolation uniq_slot_confirmed), st)
    else (Ok a', set_appointments st (appointments st ++ [a'])).

(** [db.Where("id = ?", id).First(&appointment)] *)
Definition FindByID (id : uint) : M Appointment.t :=
  fun st =>
    (first_row (fun r => live r && N.eqb (Appointment.ID r) id)
               (appointments st), st).

(** [db.Where("patient_id = ?", patientID).Order("created_at DESC")]:
    [order] is the database's choice among the rows made at the same
    instant. *)
Definition FindByPatientID (order : sql.RowOrder Appointment.t)
           (patientID : uint) : M (list Appointment.t) :=
  fun st =>
    (Ok (sql.order_by_desc Appointment.CreatedAt
           (sql.arrange order
              (filter (fun r => live r
                                && N.eqb (Appointment.PatientID r) patientID)
                      (appointments st)))), st).

(** [db.Where("doctor_id = ?", doctorID).Order("created_at DESC")] *)
Definition FindByDoctorID (order : sql.RowOrder Appointment.t)
           (doctorID : uint) : M (list Appointment.t) :=
  fun st =>
    (Ok (sql.order_by_desc Appointment.CreatedAt
           (sql.arrange order
              (filter (fun r => live r
                                && N.eqb (Appointment.DoctorID r) doctorID)
                      (appointments st)))), st).

(** [db.Where("doctor_id = ? AND ((start_time <= ? AND end_time >= ?) OR
     (start_time <= ? AND end_time >= ?) OR (start_time >= ? AND
     end_time <= ?))", ...).Find(&appointments)].  The condition names
    [start_time] and [end_time]; [models.Appointment] has no field for
    them, so table [appointments] has no such column and the database
    refuses the statement, whatever the arguments and the rows. *)
Definition FindByDoctorAndTimeRange (doctorID : uint)
           (startTime endTime : Time) : M (list Appointment.t) :=
  fail (sql.ErrUndefinedColumn "start_time").

(** [db.Save(appointment)]: every column of the struct is written to the
    row that has its primary key, with [UpdatedAt] set to [now], unless
    the index refuses the row; a struct whose key is in no row is
    inserted. *)
Definition save_row (a : Appointment.t) (r : Appointment.t)
  : Appointment.t :=
  if N.eqb (Appointment.ID r) (Appointment.ID a) then a else r.

Definition Update (now : Time) (a : Appointment.t) : M unit :=
  fun st =>
    let a' := Appointment.with_UpdatedAt a now in
    if existsb (clashes a') (appointments st)
    then (Err (sql.ErrUniqueViolation uniq_slot_confirmed), st)
    else if existsb (fun r => N.eqb (Appointment.ID r) (Appointment.ID a))
                    (appointments st)
    then (Ok tt, set_appointments st (map (save_row a') (appointments st)))
    else (Ok tt, set_appointments st (appointments st ++ [stamp now a'])).

(** [db.Preload(...).First(appointment, appointment.ID)]: the row is read
    again by its key. *)
Definition LoadRelations (a : Appointment.t) : M Appointment.t :=
  FindByID (Appointment.ID a).
End appointmentRepository.

(** ** package services: AppointmentService *)

Module CreateAppointmentRequest.
Record t := mk {
  PatientID : uint;
  DoctorID : uint;
  SlotID : option uint;
  Notes : string;
  StartTime : Time;
  EndTime : Time
}.

End CreateAppointmentRequest.

Module UpdateAppointmentStatusRequest.
Record t := mk {
  AppointmentID : uint;
  DoctorID : uint;
  Status : string;
  Notes : string
}.
End UpdateAppointmentStatusRequest.

Module AppointmentService.

(** The struct that [CreateAppointment] builds from the request and hands
    to [Create]: [&models.Appointment{PatientID: req.PatientID, DoctorID:
    req.DoctorID, SlotID: req.SlotID, Status: "pending", Notes:
    req.Notes}], its other fields zero. *)
Definition new_appointment (req : CreateAppointmentRequest.t)
  : Appointment.t :=
  Appointment.mk 0%N (CreateAppointmentRequest.PatientID req)
    (CreateAppointmentRequest.DoctorID req)
    (CreateAppointmentRequest.SlotID req) "pending"
    (CreateAppointmentRequest.Notes req) time.zero time.zero None.

(** [now] is the time of the call: the value of [time.Now()], and the
    stamp of the ORM. *)
Definition CreateAppointment (now : Time) (req : CreateAppointmentRequest.t)
  : M Appointment.t :=
  let '(CreateAppointmentRequest.mk patientID doctorID slotID notes
                                    startTime endTime) := req in
  doctor <- or_fail (userRepository.FindByID doctorID) "doctor not found" ;;
  if negb (String.eqb (User.Role doctor) "doctor")
  then fail "doctor not found" else
  patient <- or_fail (userRepository.FindByID patientID) "patient not found" ;;
  if negb (String.eqb (User.Role patient) "patient")
  then fail "patient not found" else
  if time.Before startTime now
  then fail "start time cannot be in the past" else
  if time.Before endTime startTime
  then fail "end time must be after start time" else
  existingAppointments <-
    appointmentRepository.FindByDoctorAndTimeRange doctorID startTime endTime ;;
  if existsb (fun existing =>
                negb (String.eqb (Appointment.Status existing) "cancelled"))
             existingAppointments
  then fail "time slot is already booked" else
  appointment <- appointmentRepository.Create now (new_appointment req) ;;
  appointmentRepository.LoadRelations appointment.

Definition UpdateAppointmentStatus (now : Time)
           (req : UpdateAppointmentStatusRequest.t) : M Appointment.t :=
  let '(UpdateAppointmentStatusRequest.mk appointmentID doctorID status
                                          notes) := req in
  appointment <- or_fail (appointmentRepository.FindByID appointmentID)
                         "appointment not found" ;;
  if negb (N.eqb (Appointment.DoctorID appointment) doctorID)
  then fail "unauthorized to update this appointment" else
  let appointment := Appointment.with_Status appointment status in
  let appointment := if negb (String.eqb notes "")
                     then Appointment.with_Notes appointment notes
                     else appointment in
  appointmentRepository.Update now appointment ;;;
  appointmentRepository.LoadRelations appointment.

Definition CancelAppointment (now : Time) (appointmentID userID : uint)
  : M unit :=
  appointment <- or_fail (appointmentRepository.FindByID appointmentID)
                         "appointment not found" ;;
  if negb (N.eqb (Appointment.PatientID appointment) userID)
     && negb (N.eqb (Appointment.DoctorID appointment) userID)
  then fail "unauthorized to cancel this appointment" else
  if String.eqb (Appointment.Status appointment) "completed"
     || String.eqb (Appointment.Status appointment) "cancelled"
  then fail "appointment cannot be cancelled" else
  appointmentRepository.Update now
    (Appointment.with_Status appointment "cancelled").

Definition GetAppointmentDetails (appointmentID userID : uint)
  : M Appointment.t :=
  appointment <- or_fail (appointmentRepository.FindByID appointmentID)
                         "appointment not found" ;;
  if negb (N.eqb (Appointment.PatientID appointment) userID)
     && negb (N.eqb (Appointment.DoctorID appointment) userID)
  then fail "unauthorized to view this appointment" else
  appointmentRepository.LoadRelations appointment.

(** [for i := range appointments { LoadRelations(&appointments[i]) }] *)
Fixpoint load_all (appointments : list Appointment.t)
  : M (list Appointment.t) :=
  match appointments with
  | [] => ret []
  | a :: rest =>
      a' <- appointmentRepository.LoadRelations a ;;
      rest' <- load_all rest ;;
      ret (a' :: rest')
  end.

Definition GetPatientAppointments (order : sql.RowOrder Appointment.t)
           (patientID : uint) : M (list Appointment.t) :=
  appointments <- appointmentRepository.FindByPatientID order patientID ;;
  load_all appointments.

Definition GetDoctorAppointments (order : sql.RowOrder Appointment.t)
           (doctorID : uint) : M (list Appointment.t) :=
  appointments <- appointmentRepository.FindByDoctorID order doctorID ;;
  load_all appointments.
End AppointmentService.


(** ** package unicode/utf8

    Go strings are byte strings; [ascii] is the byte.  Runes are written
    as natural numbers.  The masks and shifts of the Go source are written
    with [mod], [*] and [/]: [p0&mask2<<6 | b1&maskx] is
    [(p0 mod 32) * 64 + b1 mod 64]. *)

Module utf8.
Local Open Scope N_scope.

Definition RuneError : N := 65533.
Definition MaxRune : N := 1114111.
Definition RuneSelf : N := 128.

Definition byte (c : ascii) : N := N_of_ascii c.

Definition within (lo hi : N) (b : ascii) : bool :=
  N.leb lo (byte b) && N.leb (byte b) hi.

(** Tables [first] and [acceptRanges]: for a leading byte, the length of
    the sequence and the range accepted for its second byte. *)
Definition lead (p0 : N) : option (nat * N * N) :=
  if N.leb 194 p0 && N.leb p0 223 then Some (2%nat, 128, 191)
  else if N.eqb p0 224 then Some (3%nat, 160, 191)
  else if N.leb 225 p0 && N.leb p0 236 then Some (3%nat, 128, 191)
  else if N.eqb p0 237 then Some (3%nat, 128, 159)
  else if N.leb 238 p0 && N.leb p0 239 then Some (3%nat, 128, 191)
  else if N.eqb p0 240 then Some (4%nat, 144, 191)
  else if N.leb 241 p0 && N.leb p0 243 then Some (4%nat, 128, 191)
  else if N.eqb p0 244 then Some (4%nat, 128, 143)
  else None.

(** [utf8.DecodeRune]: the first rune of [p] and its width in bytes;
    [(RuneError, 1)] when [p] does not start with a well-formed sequence. *)
Definition DecodeRune (p : string) : N * nat :=
  match p with
  | EmptyString => (RuneError, 0%nat)
  | String p0 t0 =>
    if N.ltb (byte p0) RuneSelf then (byte p0, 1%nat) else
    match lead (byte p0), t0 with
    | Some (sz, lo, hi), String b1 t1 =>
      if negb (within lo hi b1) then (RuneError, 1%nat) else
      if Nat.eqb sz 2 then ((byte p0 mod 32) * 64 + byte b1 mod 64, 2%nat) else
      match t1 with
      | String b2 t2 =>
        if negb (within 128 191 b2) then (RuneError, 1%nat) else
        if Nat.eqb sz 3
        then ((byte p0 mod 16) * 4096 + (byte b1 mod 64) * 64
              + byte b2 mod 64, 3%nat)
        else
        match t2 with
        | String b3 _ =>
          if negb (within 128 191 b3) then (RuneError, 1%nat) else
          ((byte p0 mod 8) * 262144 + (byte b1 mod 64) * 4096
           + (byte b2 mod 64) * 64 + byte b3 mod 64, 4%nat)
        | EmptyString => (RuneError, 1%nat)
        end
      | EmptyString => (RuneError, 1%nat)
      end
    | _, _ => (RuneError, 1%nat)
    end
  end.

Definition chr (n : N) : ascii := ascii_of_N n.

(** [utf8.EncodeRune]; a surrogate or a value above [MaxRune] is written
    as [RuneError]. *)
Definition EncodeRune (r : N) : string :=
  if N.leb r 127 then String (chr r) EmptyString
  else if N.leb r 2047
  then String (chr (192 + r / 64)) (String (chr (128 + r mod 64)) EmptyString)
  else if N.ltb MaxRune r || N.leb 55296 r && N.leb r 57343
  then String (chr 239) (String (chr 191) (String (chr 189) EmptyString))
  else if N.leb r 65535
  then String (chr (224 + r / 4096))
         (String (chr (128 + (r / 64) mod 64))
            (String (chr (128 + r mod 64)) EmptyString))
  else String (chr (240 + r / 262144))
         (String (chr (128 + (r / 4096) mod 64))
            (String (chr (128 + (r / 64) mod 64))
               (String (chr (128 + r mod 64)) EmptyString))).

Fixpoint take (n : nat) (s : string) : string :=
  match n, s with
  | S n', String c t => String c (take n' t)
  | _, _ => EmptyString
  end.

Fixpoint drop (n : nat) (s : string) : string :=
  match n, s with
  | O, _ => s
  | S n', String _ t => drop n' t
  | S _, EmptyString => EmptyString
  end.

(** [utf8.ValidString]: every byte belongs to a well-formed sequence.  The
    walk advances by the width of each rune; [fuel] bounds its steps. *)
Fixpoint valid_from (fuel : nat) (s : string) : bool :=
  match fuel, s with
  | _, EmptyString => true
  | O, _ => false
  | S fuel', String _ _ =>
    let '(r, size) := DecodeRune s in
    if N.eqb r RuneError && Nat.eqb size 1 then false
    else valid_from fuel' (drop size s)
  end.

Definition ValidString (s : string) : bool := valid_from (String.length s) s.

End utf8.

(** ** package encoding/json, at the type [[]PrescriptionItem] *)

Module PrescriptionItem.
Record t := mk {
  MedicationName : string;
  Dosage : string;
  Frequency : string;
  Duration : string;
  Instructions : string
}.

(** The zero value. *)
Definition zero : t := mk "" "" "" "" "".
End PrescriptionItem.

Module json.
Local Open Scope N_scope.
Import utf8.

Definition dquote : ascii := chr 34.
Definition backslash : ascii := chr 92.

(** [hex[n]] of the string [0123456789abcdef]. *)
Definition hex (n : N) : ascii :=
  if N.ltb n 10 then chr (48 + n) else chr (87 + n).

(** [htmlSafeSet]: the ASCII bytes written as they are. *)
Definition htmlSafeSet (b : N) : bool :=
  N.leb 32 b && N.ltb b 128
  && negb (N.eqb b 34 || N.eqb b 92 || N.eqb b 60 || N.eqb b 62
           || N.eqb b 38).

(** The escape of an ASCII byte that is not in [htmlSafeSet]. *)
Definition escape (b : ascii) : string :=
  let n := byte b in
  if N.eqb n 92 || N.eqb n 34 then String backslash (String b "")
  else if N.eqb n 8 then String backslash "b"
  else if N.eqb n 12 then String backslash "f"
  else if N.eqb n 10 then String backslash "n"
  else if N.eqb n 13 then String backslash "r"
  else if N.eqb n 9 then String backslash "t"
  else String backslash
         (String "u" (String "0" (String "0"
            (String (hex (n / 16)) (String (hex (n mod 16)) ""))))).

(** The loop of [appendString] with [escapeHTML] set, from index [i] on:
    [src] is what is left of the string and [fuel] bounds the steps. *)
Fixpoint appendString_loop (fuel : nat) (src : string) : string :=
  match fuel, src with
  | _, EmptyString => EmptyString
  | O, _ => EmptyString
  | S fuel', String b rest =>
    if N.ltb (byte b) RuneSelf
    then (if htmlSafeSet (byte b) then String b "" else escape b)
           ++ appendString_loop fuel' rest
    else
      let '(c, size) := DecodeRune src in
      if N.eqb c RuneError && Nat.eqb size 1
      then String backslash "ufffd" ++ appendString_loop fuel' (drop size src)
      else if N.eqb c 8232 || N.eqb c 8233
      then String backslash "u202" ++ String (hex (c mod 16)) ""
             ++ appendString_loop fuel' (drop size src)
      else take size src ++ appendString_loop fuel' (drop size src)
  end%string.

(** What the loop writes for the whole of [src], between the quotes. *)
Definition body (src : string) : string :=
  appendString_loop (String.length src) src.

Definition appendString (src : string) : string :=
  String dquote (body src ++ String dquote "")%string.

(** A member [[name]] of an object, its name quoted as the encoder caches
    it. *)
Definition member (name value : string) : string :=
  (String dquote name ++ String dquote ":" ++ appendString value)%string.

Definition marshal_item (it : PrescriptionItem.t) : string :=
  ("{" ++ member "medication_name" (PrescriptionItem.MedicationName it)
   ++ "," ++ member "dosage" (PrescriptionItem.Dosage it)
   ++ "," ++ member "frequency" (PrescriptionItem.Frequency it)
   ++ "," ++ member "duration" (PrescriptionItem.Duration it)
   ++ "," ++ member "instructions" (PrescriptionItem.Instructions it)
   ++ "}")%string.

Fixpoint marshal_elements (items : list PrescriptionItem.t) : string :=
  match items with
  | [] => ""
  | [it] => marshal_item it
  | it :: rest => (marshal_item it ++ "," ++ marshal_elements rest)%string
  end.

(** [json.Marshal(items)].  It cannot fail at this type.  (A nil slice is
    written [null] and read back as nil; the model does not tell it from
    the empty slice, which is written as here.) *)
Definition Marshal (items : list PrescriptionItem.t) : string :=
  ("[" ++ marshal_elements items ++ "]")%string.

(** *** Decoding *)

Definition unhex (c : ascii) : option N :=
  let n := byte c in
  if N.leb 48 n && N.leb n 57 then Some (n - 48)
  else if N.leb 97 n && N.leb n 102 then Some (n - 87)
  else if N.leb 65 n && N.leb n 70 then Some (n - 55)
  else None.

(** [getu4]: the value of a leading [\uXXXX], or nothing. *)
Definition getu4 (s : string) : option N :=
  match s with
  | String b (String u (String h1 (String h2 (String h3 (String h4 _))))) =>
    if N.eqb (byte b) 92 && N.eqb (byte u) 117 then
      match unhex h1, unhex h2, unhex h3, unhex h4 with
      | Some x1, Some x2, Some x3, Some x4 =>
          Some (x1 * 4096 + x2 * 256 + x3 * 16 + x4)
      | _, _, _, _ => None
      end
    else None
  | _ => None
  end.

(** [utf16.IsSurrogate] and [utf16.DecodeRune]. *)
Definition IsSurrogate (r : N) : bool := N.leb 55296 r && N.ltb r 57344.

Definition DecodeSurrogates (r1 : N) (r2 : option N) : N :=
  match r2 with
  | Some r2 =>
    if N.leb 55296 r1 && N.ltb r1 56320 && N.leb 56320 r2 && N.ltb r2 57344
    then (r1 - 55296) * 1024 + (r2 - 56320) + 65536
    else RuneError
  | None => RuneError
  end.

Definition prepend (x : string) (r : option (string * string))
  : option (string * string) :=
  match r with
  | Some (decoded, rest) => Some ((x ++ decoded)%string, rest)
  | None => None
  end.

(** The scanner's walk over a string literal and [unquote] in one pass:
    [s] starts after the opening quote; the result is the decoded literal
    and the input after the closing quote.  Nothing when the literal is
    not closed or holds a raw control character or an unknown escape. *)
Fixpoint unquote_loop (fuel : nat) (s : string) : option (string * string) :=
  match fuel, s with
  | O, _ => None
  | _, EmptyString => None
  | S fuel', String c rest =>
    if N.eqb (byte c) 34 then Some (""%string, rest)
    else if N.eqb (byte c) 92 then
      match rest with
      | EmptyString => None
      | String e rest' =>
        let n := byte e in
        if N.eqb n 34 || N.eqb n 92 || N.eqb n 47
        then prepend (String e "") (unquote_loop fuel' rest')
        else if N.eqb n 98
        then prepend (String (chr 8) "") (unquote_loop fuel' rest')
        else if N.eqb n 102
        then prepend (String (chr 12) "") (unquote_loop fuel' rest')
        else if N.eqb n 110
        then prepend (String (chr 10) "") (unquote_loop fuel' rest')
        else if N.eqb n 114
        then prepend (String (chr 13) "") (unquote_loop fuel' rest')
        else if N.eqb n 116
        then prepend (String (chr 9) "") (unquote_loop fuel' rest')
        else if N.eqb n 117 then
          match getu4 s with
          | None => None
          | Some rr =>
            if IsSurrogate rr then
              let dec := DecodeSurrogates rr (getu4 (drop 6 s)) in
              if negb (N.eqb dec RuneError)
              then prepend (EncodeRune dec) (unquote_loop fuel' (drop 12 s))
              else prepend (EncodeRune RuneError)
                           (unquote_loop fuel' (drop 6 s))
            else prepend (EncodeRune rr) (unquote_loop fuel' (drop 6 s))
          end
        else None
      end
    else if N.ltb (byte c) 32 then None
    else if N.ltb (byte c) RuneSelf
    then prepend (String c "") (unquote_loop fuel' rest)
    else
      let '(rr, size) := DecodeRune s in
      prepend (EncodeRune rr) (unquote_loop fuel' (drop size s))
  end.

(** A string literal at the head of [s]. *)
Definition literal (s : string) : option (string * string) :=
  match s with
  | String c rest =>
    if N.eqb (byte c) 34 then unquote_loop (String.length rest) rest else None
  | EmptyString => None
  end.

(** [isSpace] of the scanner. *)
Fixpoint skip_ws (s : string) : string :=
  match s with
  | String c t =>
    if N.eqb (byte c) 32 || N.eqb (byte c) 9 || N.eqb (byte c) 13
       || N.eqb (byte c) 10
    then skip_ws t else s
  | EmptyString => EmptyString
  end.

(** The value of a member: a string literal, or [null], which leaves the
    field as it is.  Values of other types are not read by the model. *)
Definition value (s : string) : option (option string * string) :=
  match s with
  | String "n" (String "u" (String "l" (String "l" rest))) => Some (None, rest)
  | _ =>
    match literal s with
    | Some (v, rest) => Some (Some v, rest)
    | None => None
    end
  end.

(** The field a key names.  The model reads the five names as the encoder
    writes them; it does not read a document with any other key. *)
Definition assign (key : string) (v : option string) (it : PrescriptionItem.t)
  : option PrescriptionItem.t :=
  let set (f : string -> PrescriptionItem.t) :=
    Some (match v with Some x => f x | None => it end) in
  let '(PrescriptionItem.mk m d f u i) := it in
  if String.eqb key "medication_name"
  then set (fun x => PrescriptionItem.mk x d f u i)
  else if String.eqb key "dosage"
  then set (fun x => PrescriptionItem.mk m x f u i)
  else if String.eqb key "frequency"
  then set (fun x => PrescriptionItem.mk m d x u i)
  else if String.eqb key "duration"
  then set (fun x => PrescriptionItem.mk m d f x i)
  else if String.eqb key "instructions"
  then set (fun x => PrescriptionItem.mk m d f u x)
  else None.

(** The members of an object, [s] at the first byte of a key. *)
Fixpoint members (fuel : nat) (it : PrescriptionItem.t) (s : string)
  : option (PrescriptionItem.t * string) :=
  match fuel with
  | O => None
  | S fuel' =>
    match literal s with
    | None => None
    | Some (key, s1) =>
      match skip_ws s1 with
      | String ":" s2 =>
        match value (skip_ws s2) with
        | None => None
        | Some (v, s3) =>
          match assign key v it with
          | None => None
          | Some it' =>
            match skip_ws s3 with
            | String "," s4 => members fuel' it' (skip_ws s4)
            | String "}" s4 => Some (it', s4)
            | _ => None
            end
          end
        end
      | _ => None
      end
    end
  end.

Definition object (s : string) : option (PrescriptionItem.t * string) :=
  match s with
  | String "{" s1 =>
    match skip_ws s1 with
    | String "}" s2 => Some (PrescriptionItem.zero, s2)
    | s1' => members (String.length s1') PrescriptionItem.zero s1'
    end
  | _ => None
  end.

(** The elements of an array, [s] at the first byte of an element. *)
Fixpoint elements (fuel : nat) (s : string)
  : option (list PrescriptionItem.t * string) :=
  match fuel with
  | O => None
  | S fuel' =>
    match object s with
    | None => None
    | Some (it, s1) =>
      match skip_ws s1 with
      | String "," s2 =>
        match elements fuel' (skip_ws s2) with
        | Some (items, s3) => Some (it :: items, s3)
        | None => None
        end
      | String "]" s2 => Some ([it], s2)
      | _ => None
      end
    end
  end.

Definition array (s : string) : option (list PrescriptionItem.t * string) :=
  match s with
  | String "[" s1 =>
    match skip_ws s1 with
    | String "]" s2 => Some ([], s2)
    | s1' => elements (String.length s1') s1'
    end
  | _ => None
  end.

(** [json.Unmarshal(data, &items)] on documents that are [null] or an
    array of objects whose members are strings or [null]; the model
    returns an error on any other document, and so does not follow Go on
    those it would accept (members of unknown name or of another type). *)
Definition Unmarshal (data : string) : result (list PrescriptionItem.t) :=
  match skip_ws data with
  | String "n" (String "u" (String "l" (String "l" rest))) =>
    match skip_ws rest with
    | EmptyString => Ok []
    | _ => Err "invalid character after top-level value"
    end
  | s =>
    match array s with
    | Some (items, rest) =>
      match skip_ws rest with
      | EmptyString => Ok items
      | _ => Err "invalid character after top-level value"
      end
    | None => Err "json: cannot unmarshal into []services.PrescriptionItem"
    end
  end.

End json.

(** ** package repositories, continued *)

Module slotRepository.

(** What a query scans into a struct: the columns.  No query of this
    repository has a [Preload], so the relation [Appointment] of the struct
    it returns is nil. *)
Definition scan (row : AvailabilitySlot.t) : AvailabilitySlot.t :=
  AvailabilitySlot.mk (AvailabilitySlot.ID row) (AvailabilitySlot.DoctorID row)
    (AvailabilitySlot.StartTime row) (AvailabilitySlot.EndTime row)
    (AvailabilitySlot.Status row) (AvailabilitySlot.DeletedAt row) None.

(** A row is the struct without its relation; [db.Create] draws the key
    when the struct has none. *)
Definition Create (s : AvailabilitySlot.t) : M AvailabilitySlot.t :=
  fun st =>
    let id := if N.eqb (AvailabilitySlot.ID s) 0
              then next_id AvailabilitySlot.ID (availability_slots st)
              else AvailabilitySlot.ID s in
    let s' := AvailabilitySlot.with_ID s id in
    (Ok s', set_availability_slots st (availability_slots st ++ [scan s'])).

Definition live (row : AvailabilitySlot.t) : bool :=
  match AvailabilitySlot.DeletedAt row with None => true | Some _ => false end.

(** [db.First(&slot, id)], which leaves out soft-deleted rows. *)
Definition FindByID (id : uint) : M AvailabilitySlot.t :=
  fun st =>
    match first_row (fun r => live r && N.eqb (AvailabilitySlot.ID r) id)
                    (availability_slots st) with
    | Ok r => (Ok (scan r), st)
    | Err e => (Err e, st)
    end.

(** [db.Where("doctor_id = ?", doctorID).Find(&slots)]: the query has no
    [ORDER BY], so the rows come in the order the database chooses,
    [order]. *)
Definition FindByDoctorID (order : sql.RowOrder AvailabilitySlot.t)
           (doctorID : uint)
  : M (list AvailabilitySlot.t) :=
  fun st =>
    (Ok (sql.arrange order
           (map scan
                (filter (fun r => live r
                                  && N.eqb (AvailabilitySlot.DoctorID r)
                                           doctorID)
                        (availability_slots st)))), st).

(** [doctor_id = ? AND start_time >= ? AND start_time <= ? AND status = ?],
    the last placeholder bound to ["open"]. *)
Definition available (doctorID : uint) (startDate endDate : Time)
           (r : AvailabilitySlot.t) : bool :=
  N.eqb (AvailabilitySlot.DoctorID r) doctorID
  && Z.leb startDate (AvailabilitySlot.StartTime r)
  && Z.leb (AvailabilitySlot.StartTime r) endDate
  && String.eqb (AvailabilitySlot.Status r) "open".

(** This query has no [ORDER BY] either. *)
Definition FindAvailableByDoctorIDAndDate
           (order : sql.RowOrder AvailabilitySlot.t)
           (doctorID : uint) (startDate endDate : Time)
  : M (list AvailabilitySlot.t) :=
  fun st =>
    (Ok (sql.arrange order
           (map scan
                (filter (fun r => live r
                                  && available doctorID startDate endDate r)
                        (availability_slots st)))), st).

(** [db.Save(slot)] writes the columns of the struct to the live row that
    has its key. *)
Definition save_row (s : AvailabilitySlot.t) (r : AvailabilitySlot.t)
  : AvailabilitySlot.t :=
  if live r && N.eqb (AvailabilitySlot.ID r) (AvailabilitySlot.ID s)
  then scan s else r.

Definition Update (s : AvailabilitySlot.t) : M unit :=
  fun st =>
    if existsb (fun r => live r && N.eqb (AvailabilitySlot.ID r)
                                         (AvailabilitySlot.ID s))
               (availability_slots st)
    then (Ok tt, set_availability_slots st
                   (map (save_row s) (availability_slots st)))
    else (Ok tt, set_availability_slots st (availability_slots st ++ [scan s])).

(** [db.Delete(&models.AvailabilitySlot{}, id)]: the model has a
    [DeletedAt], so the row is marked, at [now], and stays in the table. *)
Definition delete_row (now : Time) (id : uint) (r : AvailabilitySlot.t)
  : AvailabilitySlot.t :=
  if live r && N.eqb (AvailabilitySlot.ID r) id
  then AvailabilitySlot.mk (AvailabilitySlot.ID r) (AvailabilitySlot.DoctorID r)
         (AvailabilitySlot.StartTime r) (AvailabilitySlot.EndTime r)
         (AvailabilitySlot.Status r) (Some now) None
  else r.

Definition Delete (now : Time) (id : uint) : M unit :=
  modify (fun st => set_availability_slots st
                      (map (delete_row now id) (availability_slots st))).

End slotRepository.

Module messageRepository.

Definition Create (m : Message.t) : M Message.t :=
  fun st =>
    let id := if N.eqb (Message.ID m) 0
              then next_id Message.ID (messages st) else Message.ID m in
    let m' := Message.with_ID m id in
    (Ok m', set_log (set_messages st (messages st ++ [m']))
                    (log st ++ [Mutation Messages])).

Definition FindByID (id : uint) : M Message.t :=
  fun st =>
    (first_row (fun m => N.eqb (Message.ID m) id) (messages st),
     set_log st (log st ++ [ReadByID Messages id])).

(** [ORDER BY created_at DESC LIMIT limit OFFSET offset] *)
Definition FindByAppointmentID (appointmentID : uint) (limit offset : nat)
  : M (list Message.t) :=
  fun st =>
    (Ok (firstn limit
           (skipn offset
              (rev (filter (fun m => N.eqb (Message.AppointmentID m)
                                           appointmentID)
                           (messages st))))),
     set_log st (log st ++ [ReadByAppointment Messages appointmentID])).

Definition LoadRelations (m : Message.t) : M Message.t :=
  FindByID (Message.ID m).

(** The messages of an appointment that [userID] did not write and has not
    read. *)
Definition unread (appointmentID userID : uint) (m : Message.t) : bool :=
  N.eqb (Message.AppointmentID m) appointmentID
  && negb (N.eqb (Message.SenderUserID m) userID)
  && match Message.ReadAt m with None => true | Some _ => false end.

Definition MarkAsRead (now : Time) (appointmentID userID : uint) : M unit :=
  modify (fun st =>
            set_log
              (set_messages st
                 (map (fun m => if unread appointmentID userID m
                                then Message.with_ReadAt m (Some now)
                                else m)
                      (messages st)))
              (log st ++ [Mutation Messages])).

Definition GetUnreadCount (appointmentID userID : uint) : M nat :=
  fun st =>
    (Ok (List.length (filter (unread appointmentID userID) (messages st))),
     set_log st (log st ++ [ReadByAppointment Messages appointmentID])).

End messageRepository.

Module videoSessionRepository.

Definition Create (v : VideoSession.t) : M VideoSession.t :=
  fun st =>
    let id := if N.eqb (VideoSession.ID v) 0
              then next_id VideoSession.ID (video_sessions st)
              else VideoSession.ID v in
    let v' := VideoSession.with_ID v id in
    (Ok v', set_log (set_video_sessions st (video_sessions st ++ [v']))
                    (log st ++ [Mutation VideoSessions])).

Definition FindByID (id : uint) : M VideoSession.t :=
  fun st =>
    (first_row (fun v => N.eqb (VideoSession.ID v) id) (video_sessions st),
     set_log st (log st ++ [ReadByID VideoSessions id])).

Definition FindByAppointmentID (appointmentID : uint)
  : M (list VideoSession.t) :=
  fun st =>
    (Ok (rev (filter (fun v => N.eqb (VideoSession.AppointmentID v)
                                     appointmentID)
                     (video_sessions st))),
     set_log st (log st ++ [ReadByAppointment VideoSessions appointmentID])).

(** [started_at IS NOT NULL AND ended_at IS NULL] *)
Definition is_active (v : VideoSession.t) : bool :=
  match VideoSession.StartedAt v, VideoSession.EndedAt v with
  | Some _, None => true
  | _, _ => false
  end.

(** The most recent active session of the appointment. *)
Definition FindActiveByAppointment (appointmentID : uint) : M VideoSession.t :=
  fun st =>
    (first_row (fun v => N.eqb (VideoSession.AppointmentID v) appointmentID
                         && is_active v)
               (rev (video_sessions st)),
     set_log st (log st ++ [ReadByAppointment VideoSessions appointmentID])).

Definition UpdateStartedAt (sessionID : uint) (startedAt : option Time)
  : M unit :=
  modify (fun st =>
            set_log
              (set_video_sessions st
                 (map (fun v => if N.eqb (VideoSession.ID v) sessionID
                                then VideoSession.with_StartedAt v startedAt
                                else v)
                      (video_sessions st)))
              (log st ++ [Mutation VideoSessions])).

Definition UpdateEndedAt (sessionID : uint) (endedAt : option Time)
  : M unit :=
  modify (fun st =>
            set_log
              (set_video_sessions st
                 (map (fun v => if N.eqb (VideoSession.ID v) sessionID
                                then VideoSession.with_EndedAt v endedAt
                                else v)
                      (video_sessions st)))
              (log st ++ [Mutation VideoSessions])).

Definition LoadRelations (v : VideoSession.t) : M VideoSession.t :=
  FindByID (VideoSession.ID v).

End videoSessionRepository.

Module prescriptionRepository.

Definition live (p : Prescription.t) : bool :=
  match Prescription.DeletedAt p with None => true | Some _ => false end.

Definition Create (p : Prescription.t) : M Prescription.t :=
  fun st =>
    let id := if N.eqb (Prescription.ID p) 0
              then next_id Prescription.ID (prescriptions st)
              else Prescription.ID p in
    let p' := Prescription.with_ID p id in
    (Ok p', set_log (set_prescriptions st (prescriptions st ++ [p']))
                    (log st ++ [Mutation Prescriptions])).

Definition FindByID (id : uint) : M Prescription.t :=
  fun st =>
    (first_row (fun p => live p && N.eqb (Prescription.ID p) id)
               (prescriptions st),
     set_log st (log st ++ [ReadByID Prescriptions id])).

Definition FindByAppointmentID (appointmentID : uint)
  : M (list Prescription.t) :=
  fun st =>
    (Ok (rev (filter (fun p => live p
                               && N.eqb (Prescription.AppointmentID p)
                                        appointmentID)
                     (prescriptions st))),
     set_log st (log st ++ [ReadByAppointment Prescriptions appointmentID])).

(** [db.Save(prescription)] writes the columns of the struct to the live
    row that has its key. *)
Definition save_row (p r : Prescription.t) : Prescription.t :=
  if live r && N.eqb (Prescription.ID r) (Prescription.ID p) then p else r.

Definition Update (p : Prescription.t) : M unit :=
  fun st =>
    let rows :=
      if existsb (fun r => live r && N.eqb (Prescription.ID r)
                                           (Prescription.ID p))
                 (prescriptions st)
      then map (save_row p) (prescriptions st)
      else prescriptions st ++ [p] in
    (Ok tt, set_log (set_prescriptions st rows)
                    (log st ++ [Mutation Prescriptions])).

Definition Delete (now : Time) (id : uint) : M unit :=
  modify (fun st =>
            set_log
              (set_prescriptions st
                 (map (fun p => if live p && N.eqb (Prescription.ID p) id
                                then Prescription.with_DeletedAt p (Some now)
                                else p)
                      (prescriptions st)))
              (log st ++ [Mutation Prescriptions])).

Definition LoadRelations (p : Prescription.t) : M Prescription.t :=
  FindByID (Prescription.ID p).

End prescriptionRepository.

(** ** package services, continued *)

Module UpdateSlotRequest.
Record t := mk { Status : string; Notes : string }.
End UpdateSlotRequest.

Module SlotService.

(** [startTime] and [endTime] are what [time.Parse] made of the two
    strings of the request. *)
Definition CreateSlot (now : Time) (doctorID : uint)
           (startTime endTime : result Time) : M AvailabilitySlot.t :=
  startTime <- or_fail (lift startTime) "invalid start time format" ;;
  endTime <- or_fail (lift endTime) "invalid end time format" ;;
  if time.Before startTime now
  then fail "start time cannot be in the past" else
  if time.After startTime endTime || time.Equal startTime endTime
  then fail "start time must be before end time" else
  slotRepository.Create
    (AvailabilitySlot.mk 0 doctorID startTime endTime "open" None None).

(** [order] is the order in which the database returns the rows. *)
Definition GetSlotsByDoctorID (order : sql.RowOrder AvailabilitySlot.t)
           (doctorID : uint) : M (list AvailabilitySlot.t) :=
  slotRepository.FindByDoctorID order doctorID.

Definition UpdateSlot (slotID doctorID : uint) (req : UpdateSlotRequest.t)
  : M AvailabilitySlot.t :=
  slot <- slotRepository.FindByID slotID ;;
  if negb (N.eqb (AvailabilitySlot.DoctorID slot) doctorID)
  then fail "unauthorized to update this slot" else
  if negb (String.eqb (UpdateSlotRequest.Status req) "")
     && negb (String.eqb (UpdateSlotRequest.Status req) "open")
     && negb (String.eqb (UpdateSlotRequest.Status req) "blocked")
  then fail "invalid status" else
  let slot := if negb (String.eqb (UpdateSlotRequest.Status req) "")
              then AvailabilitySlot.with_Status slot
                     (UpdateSlotRequest.Status req)
              else slot in
  slotRepository.Update slot ;;;
  ret slot.

Definition DeleteSlot (now : Time) (slotID doctorID : uint) : M unit :=
  slot <- slotRepository.FindByID slotID ;;
  if negb (N.eqb (AvailabilitySlot.DoctorID slot) doctorID)
  then fail "unauthorized to delete this slot" else
  match AvailabilitySlot.Appointment slot with
  | Some _ => fail "cannot delete slot with existing appointment"
  | None => slotRepository.Delete now slotID
  end.

(** [targetDate] is what [time.Parse] made of the date of the request with
    the layout [2006-01-02], a time in UTC; [now] is the value of
    [time.Now()] once the query has returned, and [order] the order in
    which it returned the rows. *)
Definition GetAvailableSlots (order : sql.RowOrder AvailabilitySlot.t)
           (now : Time) (doctorID : uint) (targetDate : result Time)
  : M (list AvailabilitySlot.t) :=
  targetDate <- or_fail (lift targetDate) "invalid date format" ;;
  let startOfDay := time.midnight targetDate in
  let endOfDay := time.Add startOfDay (24 * time.Hour) in
  slots <-
    slotRepository.FindAvailableByDoctorIDAndDate order doctorID startOfDay
                                                  endOfDay ;;
  ret (filter (fun slot => time.After (AvailabilitySlot.StartTime slot) now
                           && String.eqb (AvailabilitySlot.Status slot) "open")
              slots).

End SlotService.

Module CreateVideoSessionRequest.
Record t := mk {
  AppointmentID : uint;
  CreatedByUserID : uint;
  RoomName : string;
  MaxParticipants : Z;
  RecordingEnabled : bool
}.
End CreateVideoSessionRequest.

Module SignalingInfo.
Record t := mk {
  RoomID : string;
  ICEServers : list string;
  RoomToken : string;
  ExpiresAt : Time
}.
End SignalingInfo.

(** ** package encoding/hex *)

Module hex.
(** [hextable[v>>4]] and [hextable[v&0x0f]] for every byte of [src]. *)
Fixpoint EncodeToString (src : string) : string :=
  match src with
  | EmptyString => EmptyString
  | String v rest =>
      String (json.hex (utf8.byte v / 16))
        (String (json.hex (utf8.byte v mod 16)) (EncodeToString rest))
  end.
End hex.

Module VideoService.

(** [random] is the 16 bytes that [rand.Read] wrote, or its error. *)
Definition generateRoomID (random : result string) : result string :=
  match random with
  | Ok bytes => Ok (hex.EncodeToString bytes)
  | Err e => Err e
  end.

(** [roomID] is what [generateRoomID] drew from [crypto/rand], or its
    error. *)
Definition CreateVideoSession (roomID : result string)
           (req : CreateVideoSessionRequest.t) (userID : uint)
  : M VideoSession.t :=
  appointment <- or_fail (appointmentRepository.FindByID
                            (CreateVideoSessionRequest.AppointmentID req))
                         "appointment not found" ;;
  if negb (N.eqb (Appointment.PatientID appointment) userID)
     && negb (N.eqb (Appointment.DoctorID appointment) userID)
  then fail "unauthorized to create video session for this appointment" else
  fun st =>
    let '(existingSession, st) :=
      videoSessionRepository.FindActiveByAppointment
        (CreateVideoSessionRequest.AppointmentID req) st in
    let conflict :=
      match existingSession with
      | Ok existingSession =>
          match VideoSession.StartedAt existingSession,
                VideoSession.EndedAt existingSession with
          | Some _, None => true
          | _, _ => false
          end
      | Err _ => false
      end in
    if conflict
    then (Err "active video session already exists for this appointment", st)
    else
      (roomID <- lift roomID ;;
       videoSession <-
         videoSessionRepository.Create
           (VideoSession.mk 0 (CreateVideoSessionRequest.AppointmentID req)
                            roomID None None) ;;
       videoSessionRepository.LoadRelations videoSession) st.

Definition GetVideoSession (sessionID : uint) : M VideoSession.t :=
  session <- or_fail (videoSessionRepository.FindByID sessionID)
                     "video session not found" ;;
  videoSessionRepository.LoadRelations session.

Definition ValidateSessionAccess (sessionID userID : uint) : M unit :=
  session <- or_fail (videoSessionRepository.FindByID sessionID)
                     "video session not found" ;;
  appointment <- or_fail (appointmentRepository.FindByID
                            (VideoSession.AppointmentID session))
                         "appointment not found" ;;
  if negb (N.eqb (Appointment.PatientID appointment) userID)
     && negb (N.eqb (Appointment.DoctorID appointment) userID)
  then fail "unauthorized to access this video session" else
  ret tt.

Definition StartVideoSession (now : Time) (sessionID userID : uint) : M unit :=
  ValidateSessionAccess sessionID userID ;;;
  videoSessionRepository.UpdateStartedAt sessionID (Some now).

Definition EndVideoSession (now : Time) (sessionID userID : uint) : M unit :=
  ValidateSessionAccess sessionID userID ;;;
  videoSessionRepository.UpdateEndedAt sessionID (Some now).

Fixpoint load_all (sessions : list VideoSession.t) : M (list VideoSession.t) :=
  match sessions with
  | [] => ret []
  | s :: rest =>
      s' <- videoSessionRepository.LoadRelations s ;;
      rest' <- load_all rest ;;
      ret (s' :: rest')
  end.

Definition GetVideoSessionsByAppointment (appointmentID userID : uint)
  : M (list VideoSession.t) :=
  appointment <- or_fail (appointmentRepository.FindByID appointmentID)
                         "appointment not found" ;;
  if negb (N.eqb (Appointment.PatientID appointment) userID)
     && negb (N.eqb (Appointment.DoctorID appointment) userID)
  then fail "unauthorized to view video sessions for this appointment" else
  sessions <- videoSessionRepository.FindByAppointmentID appointmentID ;;
  load_all sessions.

(** [roomToken] is what [generateRoomToken] returned, or its error. *)
Definition GetSignalingInfo (now : Time) (roomToken : result string)
           (sessionID userID : uint) : M SignalingInfo.t :=
  ValidateSessionAccess sessionID userID ;;;
  session <- or_fail (videoSessionRepository.FindByID sessionID)
                     "video session not found" ;;
  roomToken <- lift roomToken ;;
  ret (SignalingInfo.mk (VideoSession.RoomID session)
         ["stun:stun.l.google.com:19302"; "stun:stun1.l.google.com:19302"]
         roomToken (now + 3600000000000)%Z).

Definition GetWebRTCOffer (sessionID userID : uint) : M string :=
  ValidateSessionAccess sessionID userID ;;;
  ret "webrtc_offer_data".

Definition SetWebRTCAnswer (sessionID userID : uint) (answer : string)
  : M unit :=
  ValidateSessionAccess sessionID userID ;;;
  ret tt.

End VideoService.

Module SendMessageRequest.
Record t := mk {
  AppointmentID : uint;
  SenderUserID : uint;
  Body : string;
  AttachmentURL : option string
}.
End SendMessageRequest.

Module ChatService.

Definition SendMessage (req : SendMessageRequest.t) : M Message.t :=
  appointment <- or_fail (appointmentRepository.FindByID
                            (SendMessageRequest.AppointmentID req))
                         "appointment not found" ;;
  if negb (N.eqb (Appointment.PatientID appointment)
                 (SendMessageRequest.SenderUserID req))
     && negb (N.eqb (Appointment.DoctorID appointment)
                    (SendMessageRequest.SenderUserID req))
  then fail "unauthorized to send message to this appointment" else
  message <-
    messageRepository.Create
      (Message.mk 0 (SendMessageRequest.AppointmentID req)
                  (SendMessageRequest.SenderUserID req)
                  (SendMessageRequest.Body req)
                  (SendMessageRequest.AttachmentURL req) None) ;;
  messageRepository.LoadRelations message.

Fixpoint load_all (ms : list Message.t) : M (list Message.t) :=
  match ms with
  | [] => ret []
  | m :: rest =>
      m' <- messageRepository.LoadRelations m ;;
      rest' <- load_all rest ;;
      ret (m' :: rest')
  end.

Definition GetMessages (appointmentID userID : uint) (limit offset : nat)
  : M (list Message.t) :=
  appointment <- or_fail (appointmentRepository.FindByID appointmentID)
                         "appointment not found" ;;
  if negb (N.eqb (Appointment.PatientID appointment) userID)
     && negb (N.eqb (Appointment.DoctorID appointment) userID)
  then fail "unauthorized to view messages for this appointment" else
  ms <- messageRepository.FindByAppointmentID appointmentID limit offset ;;
  load_all ms.

(** [stored] is the URL under which the file was written on disk, or the
    error of creating the directory or the file. *)
Definition UploadAttachment (stored : result string)
           (appointmentID userID : uint) : M string :=
  appointment <- or_fail (appointmentRepository.FindByID appointmentID)
                         "appointment not found" ;;
  if negb (N.eqb (Appointment.PatientID appointment) userID)
     && negb (N.eqb (Appointment.DoctorID appointment) userID)
  then fail "unauthorized to upload attachment for this appointment" else
  lift stored.

Definition MarkMessagesAsRead (now : Time) (appointmentID userID : uint)
  : M unit :=
  appointment <- or_fail (appointmentRepository.FindByID appointmentID)
                         "appointment not found" ;;
  if negb (N.eqb (Appointment.PatientID appointment) userID)
     && negb (N.eqb (Appointment.DoctorID appointment) userID)
  then fail "unauthorized to mark messages as read for this appointment" else
  messageRepository.MarkAsRead now appointmentID userID.

Definition GetUnreadCount (appointmentID userID : uint) : M nat :=
  appointment <- or_fail (appointmentRepository.FindByID appointmentID)
                         "appointment not found" ;;
  if negb (N.eqb (Appointment.PatientID appointment) userID)
     && negb (N.eqb (Appointment.DoctorID appointment) userID)
  then fail "unauthorized to get unread count for this appointment" else
  messageRepository.GetUnreadCount appointmentID userID.

End ChatService.

Module CreatePrescriptionRequest.
Record t := mk {
  AppointmentID : uint;
  Items : list PrescriptionItem.t;
  Notes : string;
  CreatedByDoctorID : uint
}.
End CreatePrescriptionRequest.

Module UpdatePrescriptionRequest.
Record t := mk {
  PrescriptionID : uint;
  DoctorID : uint;
  Items : list PrescriptionItem.t;
  Notes : string
}.
End UpdatePrescriptionRequest.

Module PrescriptionService.

Definition CreatePrescription (req : CreatePrescriptionRequest.t)
  : M Prescription.t :=
  appointment <- or_fail (appointmentRepository.FindByID
                            (CreatePrescriptionRequest.AppointmentID req))
                         "appointment not found" ;;
  if negb (N.eqb (Appointment.DoctorID appointment)
                 (CreatePrescriptionRequest.CreatedByDoctorID req))
  then fail "unauthorized to create prescription for this appointment" else
  doctor <- or_fail (userRepository.FindByID
                       (CreatePrescriptionRequest.CreatedByDoctorID req))
                    "doctor not found" ;;
  if negb (String.eqb (User.Role doctor) "doctor")
  then fail "doctor not found" else
  let itemsJSON := json.Marshal (CreatePrescriptionRequest.Items req) in
  prescription <-
    prescriptionRepository.Create
      (Prescription.mk 0 (CreatePrescriptionRequest.AppointmentID req)
                       itemsJSON (CreatePrescriptionRequest.Notes req)
                       (CreatePrescriptionRequest.CreatedByDoctorID req) None) ;;
  prescriptionRepository.LoadRelations prescription.

Fixpoint load_all (ps : list Prescription.t) : M (list Prescription.t) :=
  match ps with
  | [] => ret []
  | p :: rest =>
      p' <- prescriptionRepository.LoadRelations p ;;
      rest' <- load_all rest ;;
      ret (p' :: rest')
  end.

Definition GetPrescriptions (appointmentID userID : uint)
  : M (list Prescription.t) :=
  appointment <- or_fail (appointmentRepository.FindByID appointmentID)
                         "appointment not found" ;;
  if negb (N.eqb (Appointment.PatientID appointment) userID)
     && negb (N.eqb (Appointment.DoctorID appointment) userID)
  then fail "unauthorized to view prescriptions for this appointment" else
  ps <- prescriptionRepository.FindByAppointmentID appointmentID ;;
  load_all ps.

Definition GetPrescriptionDetails (prescriptionID userID : uint)
  : M Prescription.t :=
  prescription <- or_fail (prescriptionRepository.FindByID prescriptionID)
                          "prescription not found" ;;
  appointment <- or_fail (appointmentRepository.FindByID
                            (Prescription.AppointmentID prescription))
                         "appointment not found" ;;
  if negb (N.eqb (Appointment.PatientID appointment) userID)
     && negb (N.eqb (Appointment.DoctorID appointment) userID)
  then fail "unauthorized to view this prescription" else
  prescriptionRepository.LoadRelations prescription.

Definition UpdatePrescription (req : UpdatePrescriptionRequest.t)
  : M Prescription.t :=
  prescription <- or_fail (prescriptionRepository.FindByID
                             (UpdatePrescriptionRequest.PrescriptionID req))
                          "prescription not found" ;;
  appointment <- or_fail (appointmentRepository.FindByID
                            (Prescription.AppointmentID prescription))
                         "appointment not found" ;;
  if negb (N.eqb (Appointment.DoctorID appointment)
                 (UpdatePrescriptionRequest.DoctorID req))
  then fail "unauthorized to update this prescription" else
  let itemsJSON := json.Marshal (UpdatePrescriptionRequest.Items req) in
  let prescription :=
    Prescription.with_Notes (Prescription.with_ItemsJSON prescription itemsJSON)
                            (UpdatePrescriptionRequest.Notes req) in
  prescriptionRepository.Update prescription ;;;
  prescriptionRepository.LoadRelations prescription.

Definition DeletePrescription (now : Time) (prescriptionID userID : uint)
  : M unit :=
  prescription <- or_fail (prescriptionRepository.FindByID prescriptionID)
                          "prescription not found" ;;
  appointment <- or_fail (appointmentRepository.FindByID
                            (Prescription.AppointmentID prescription))
                         "appointment not found" ;;
  if negb (N.eqb (Appointment.DoctorID appointment) userID)
  then fail "unauthorized to delete this prescription" else
  prescriptionRepository.Delete now prescriptionID.

Definition GetPrescriptionItems (prescription : Prescription.t)
  : result (list PrescriptionItem.t) :=
  json.Unmarshal (Prescription.ItemsJSON prescription).

End PrescriptionService.

(** ** package strconv *)

Module strconv.
Local Open Scope Z_scope.

(** The value of a string of decimal digits, most significant first. *)
Fixpoint digits (n : Z) (s : string) : option Z :=
  match s with
  | EmptyString => Some n
  | String ch rest =>
      let d := Z.of_N (utf8.byte ch) - 48 in
      if Z.leb 0 d && Z.leb d 9 then digits (n * 10 + d) rest else None
  end.

(** [strconv.Atoi] where [int] has 64 bits: an optional sign, then at
    least one decimal digit, and a value that fits.  Of the error only its
    kind is kept. *)
Definition Atoi (s : string) : result Z :=
  let '(neg, s1) :=
    match s with
    | String "-" t => (true, t)
    | String "+" t => (false, t)
    | _ => (false, s)
    end in
  match s1 with
  | EmptyString => Err "invalid syntax"
  | _ =>
    match digits 0 s1 with
    | None => Err "invalid syntax"
    | Some n =>
        let v := if neg then - n else n in
        if Z.leb (- 2 ^ 63) v && Z.ltb v (2 ^ 63) then Ok v
        else Err "value out of range"
    end
  end.
End strconv.

(** ** package handlers: the page of the chat *)

Module ChatHandler.
Local Open Scope Z_scope.

(** The page of [GetMessages]: [limitStr] and [offsetStr] are what
    [c.Query] returns for [limit] and [offset], the empty string when the
    request has no such parameter. *)
Definition limit_of (limitStr : string) : Z :=
  if String.eqb limitStr "" then 50 else
  match strconv.Atoi limitStr with
  | Ok l => if Z.ltb 0 l && Z.leb l 100 then l else 50
  | Err _ => 50
  end.

Definition offset_of (offsetStr : string) : Z :=
  if String.eqb offsetStr "" then 0 else
  match strconv.Atoi offsetStr with
  | Ok o => if Z.leb 0 o then o else 0
  | Err _ => 0
  end.

(** [GetMessages], once the caller and the appointment are read from the
    request; the response carries the messages, or the error of the
    service. *)
Definition GetMessages (appointmentID userID : uint)
           (limitStr offsetStr : string) : M (list Message.t) :=
  ChatService.GetMessages appointmentID userID
    (Z.to_nat (limit_of limitStr)) (Z.to_nat (offset_of offsetStr)).

End ChatHandler.

(** ** package handlers: the one handler that checks the caller itself *)

Module VideoHandler.

(** [GetVideoSession]: the session is fetched, then access is validated;
    status 404 and 403 are the errors of the two calls. *)
Definition GetVideoSession (sessionID userID : uint) : M VideoSession.t :=
  session <- VideoService.GetVideoSession sessionID ;;
  VideoService.ValidateSessionAccess sessionID userID ;;;
  ret session.

End VideoHandler.

(** * Vocabulary of the properties *)

(** ** Vocabulary of the booking properties *)

(** A user of the directory with the given role. *)
Definition has_role (st : Store) (id : uint) (role : string) : Prop :=
  exists u, fst (userRepository.FindByID id st) = Ok u /\ User.Role u = role.

(** The preconditions of a booking request, in the spec's words. *)
Definition preconditions (now : Time) (req : CreateAppointmentRequest.t)
           (st : Store) : Prop :=
  has_role st (CreateAppointmentRequest.DoctorID req) "doctor"
  /\ has_role st (CreateAppointmentRequest.PatientID req) "patient"
  /\ (now <= CreateAppointmentRequest.StartTime req)%Z
  /\ (CreateAppointmentRequest.StartTime req
      < CreateAppointmentRequest.EndTime req)%Z.


(** An active appointment still occupies the doctor's time line. *)
Definition active (a : Appointment.t) : Prop :=
  Appointment.Status a = "pending" \/ Appointment.Status a = "confirmed".


(** The table respects its unique index: no row stands in the way of
    another. *)
Definition index_respected (st : Store) : Prop :=
  forall r r', In r (appointments st) -> In r' (appointments st) ->
               appointmentRepository.clashes r r' = false.

(** ** Vocabulary of the status properties *)

(** What [UpdateAppointmentStatus] hands to [Update], made from the
    appointment it read. *)
Definition updated (a : Appointment.t) (status notes : string)
  : Appointment.t :=
  let a := Appointment.with_Status a status in
  if negb (String.eqb notes "") then Appointment.with_Notes a notes else a.

(** A request to change the status of an appointment, by either of the two
    methods that change it.  The handlers put the caller in [DoctorID] of an
    update request and in [userID] of a cancellation. *)
Inductive StatusChange :=
| ViaUpdate (req : UpdateAppointmentStatusRequest.t)
| ViaCancel (appointmentID userID : uint).

Definition change_target (c : StatusChange) : uint :=
  match c with
  | ViaUpdate req => UpdateAppointmentStatusRequest.AppointmentID req
  | ViaCancel appointmentID _ => appointmentID
  end.

Definition change_actor (c : StatusChange) : uint :=
  match c with
  | ViaUpdate req => UpdateAppointmentStatusRequest.DoctorID req
  | ViaCancel _ userID => userID
  end.

Definition change_to (c : StatusChange) : string :=
  match c with
  | ViaUpdate req => UpdateAppointmentStatusRequest.Status req
  | ViaCancel _ _ => "cancelled"
  end.

(** The change, made at [now]. *)
Definition apply_change (now : Time) (c : StatusChange) : M unit :=
  match c with
  | ViaUpdate req =>
      bind (AppointmentService.UpdateAppointmentStatus now req)
           (fun _ => ret tt)
  | ViaCancel appointmentID userID =>
      AppointmentService.CancelAppointment now appointmentID userID
  end.

(** The transition table of the spec: pending to confirmed by the doctor,
    pending or confirmed to cancelled by the patient or the doctor,
    confirmed to completed by the doctor. *)
Definition allowed_transition (a : Appointment.t) (to : string)
           (actor : uint) : bool :=
  let from := Appointment.Status a in
  let is_doctor := N.eqb actor (Appointment.DoctorID a) in
  let is_patient := N.eqb actor (Appointment.PatientID a) in
  String.eqb from "pending" && String.eqb to "confirmed" && is_doctor
  || (String.eqb from "pending" || String.eqb from "confirmed")
     && String.eqb to "cancelled" && (is_patient || is_doctor)
  || String.eqb from "confirmed" && String.eqb to "completed" && is_doctor.

(** The status stored for an appointment. *)
Definition status_of (st : Store) (id : uint) : option string :=
  match fst (appointmentRepository.FindByID id st) with
  | Ok a => Some (Appointment.Status a)
  | Err _ => None
  end.

(** The transition table as the spec states it: a change that is not in
    the table returns an error and leaves the status as it was. *)
Definition transition_table_respected : Prop :=
  forall (now : Time) (st : Store) (c : StatusChange) (a : Appointment.t),
    fst (appointmentRepository.FindByID (change_target c) st) = Ok a ->
    allowed_transition a (change_to c) (change_actor c) = false ->
    is_ok (fst (apply_change now c st)) = false
    /\ status_of (snd (apply_change now c st)) (change_target c)
       = Some (Appointment.Status a).

(** The frame of an update as the spec states it: the appointment that is
    stored afterwards is the one stored before, but for its status and its
    notes. *)
Definition only_status_and_notes_change : Prop :=
  forall (now : Time) (req : UpdateAppointmentStatusRequest.t)
         (st st' : Store) (a0 a1 : Appointment.t),
    fst (appointmentRepository.FindByID
           (UpdateAppointmentStatusRequest.AppointmentID req) st) = Ok a0 ->
    AppointmentService.UpdateAppointmentStatus now req st = (Ok a1, st') ->
    fst (appointmentRepository.FindByID
           (UpdateAppointmentStatusRequest.AppointmentID req) st') = Ok a1
    /\ Appointment.with_Notes
         (Appointment.with_Status a1 (Appointment.Status a0))
         (Appointment.Notes a0)
       = a0.

(** ** Vocabulary of the reachable states *)






(** ** Sample data *)

(** A directory with one doctor and two patients, and nothing booked. *)
Definition clinic : Store :=
  mkStore [User.mk 1 "doctor"; User.mk 2 "patient"; User.mk 3 "patient"]
          [] [] [] [] [] [].

(** A request of patient 2 for doctor 1 over [[start, stop]]. *)
Definition request (start stop : Time) : CreateAppointmentRequest.t :=
  CreateAppointmentRequest.mk 2 1 None "" start stop.

(** Appointment 1, of patient 2 with doctor 1, made at instant 100 and
    last written at [updatedAt]. *)
Definition appointment_1 (status notes : string) (updatedAt : Time)
  : Appointment.t :=
  Appointment.mk 1 2 1 None status notes 100 updatedAt None.

(** The clinic with that one appointment. *)
Definition booked_clinic_at (updatedAt : Time) (status notes : string)
  : Store :=
  set_appointments clinic [appointment_1 status notes updatedAt].

Definition booked_clinic (status notes : string) : Store :=
  booked_clinic_at 100 status notes.

(** ** Vocabulary of the slot and video-session properties *)

(** An appointment of the table refers to the slot. *)
Definition attached (st : Store) (slotID : uint) : Prop :=
  exists r, In r (appointments st)
            /\ Appointment.SlotID r = Some slotID.

(** The clinic where doctor 1 has declared slot 1 and patient 2 holds a
    pending appointment on it. *)
Definition clinic_with_booked_slot : Store :=
  set_availability_slots
    (set_appointments clinic
       [Appointment.mk 1 2 1 (Some 1%N) "pending" "" 100 100 None])
    [AvailabilitySlot.mk 1 1 600 630 "open" None None].

(** The same clinic after patient 2 has cancelled and patient 3 holds a
    pending appointment on the slot. *)
Definition clinic_with_rebooked_slot : Store :=
  set_availability_slots
    (set_appointments clinic
       [Appointment.mk 1 2 1 (Some 1%N) "cancelled" "" 100 150 None;
        Appointment.mk 2 3 1 (Some 1%N) "pending" "" 160 160 None])
    [AvailabilitySlot.mk 1 1 600 630 "open" None None].

(** The sessions of an appointment that are started and not ended. *)
Definition live_sessions (st : Store) (appointmentID : uint)
  : list VideoSession.t :=
  filter (fun v => N.eqb (VideoSession.AppointmentID v) appointmentID
                   && videoSessionRepository.is_active v)
         (video_sessions st).

Definition has_live_session (st : Store) (appointmentID : uint) : Prop :=
  exists v, In v (video_sessions st)
            /\ VideoSession.AppointmentID v = appointmentID
            /\ VideoSession.StartedAt v <> None
            /\ VideoSession.EndedAt v = None.

Definition participant (a : Appointment.t) (userID : uint) : Prop :=
  userID = Appointment.PatientID a \/ userID = Appointment.DoctorID a.

(** The scenario of the spec: a session was created for an appointment
    and has not ended (no call has come in between); a second [Create] on
    the same appointment is refused and creates nothing. *)
Definition second_create_conflicts : Prop :=
  forall (st st1 : Store) (room1 room2 : string)
         (req : CreateVideoSessionRequest.t) (userID : uint)
         (s1 : VideoSession.t),
    VideoService.CreateVideoSession (Ok room1) req userID st = (Ok s1, st1) ->
    is_ok (fst (VideoService.CreateVideoSession (Ok room2) req userID st1))
    = false
    /\ video_sessions
         (snd (VideoService.CreateVideoSession (Ok room2) req userID st1))
       = video_sessions st1.

(** The request of a participant for a session on appointment 1. *)
Definition session_request : CreateVideoSessionRequest.t :=
  CreateVideoSessionRequest.mk 1 2 "" 2 false.

(** ** Vocabulary of the access properties *)

(** The operations on the sub-resources of an appointment, each with the
    arguments that do not name the caller.  The caller is given apart, as
    the handlers take it from the session and write it into the request. *)
Inductive SubResourceOp :=
| OpSendMessage (appointmentID : uint) (body : string)
                (attachmentURL : option string)
| OpGetMessages (appointmentID : uint) (limit offset : nat)
| OpUploadAttachment (stored : result string) (appointmentID : uint)
| OpMarkMessagesAsRead (now : Time) (appointmentID : uint)
| OpGetUnreadCount (appointmentID : uint)
| OpCreatePrescription (appointmentID : uint)
                       (items : list PrescriptionItem.t) (notes : string)
| OpGetPrescriptions (appointmentID : uint)
| OpGetPrescriptionDetails (prescriptionID : uint)
| OpUpdatePrescription (prescriptionID : uint)
                       (items : list PrescriptionItem.t) (notes : string)
| OpDeletePrescription (now : Time) (prescriptionID : uint)
| OpCreateVideoSession (roomID : result string) (appointmentID : uint)
| OpGetVideoSession (sessionID : uint)
| OpValidateSessionAccess (sessionID : uint)
| OpStartVideoSession (now : Time) (sessionID : uint)
| OpEndVideoSession (now : Time) (sessionID : uint)
| OpGetVideoSessionsByAppointment (appointmentID : uint)
| OpGetSignalingInfo (now : Time) (roomToken : result string)
                     (sessionID : uint)
| OpGetWebRTCOffer (sessionID : uint)
| OpSetWebRTCAnswer (sessionID : uint) (answer : string).

(** Forget the value a method returns. *)
Definition void {A} (c : M A) : M unit := bind c (fun _ => ret tt).

Definition run_op (op : SubResourceOp) (userID : uint) : M unit :=
  match op with
  | OpSendMessage appointmentID body attachmentURL =>
      void (ChatService.SendMessage
              (SendMessageRequest.mk appointmentID userID body attachmentURL))
  | OpGetMessages appointmentID limit offset =>
      void (ChatService.GetMessages appointmentID userID limit offset)
  | OpUploadAttachment stored appointmentID =>
      void (ChatService.UploadAttachment stored appointmentID userID)
  | OpMarkMessagesAsRead now appointmentID =>
      ChatService.MarkMessagesAsRead now appointmentID userID
  | OpGetUnreadCount appointmentID =>
      void (ChatService.GetUnreadCount appointmentID userID)
  | OpCreatePrescription appointmentID items notes =>
      void (PrescriptionService.CreatePrescription
              (CreatePrescriptionRequest.mk appointmentID items notes userID))
  | OpGetPrescriptions appointmentID =>
      void (PrescriptionService.GetPrescriptions appointmentID userID)
  | OpGetPrescriptionDetails prescriptionID =>
      void (PrescriptionService.GetPrescriptionDetails prescriptionID userID)
  | OpUpdatePrescription prescriptionID items notes =>
      void (PrescriptionService.UpdatePrescription
              (UpdatePrescriptionRequest.mk prescriptionID userID items notes))
  | OpDeletePrescription now prescriptionID =>
      PrescriptionService.DeletePrescription now prescriptionID userID
  | OpCreateVideoSession roomID appointmentID =>
      void (VideoService.CreateVideoSession roomID
              (CreateVideoSessionRequest.mk appointmentID userID "" 2 false)
              userID)
  | OpGetVideoSession sessionID =>
      void (VideoService.GetVideoSession sessionID)
  | OpValidateSessionAccess sessionID =>
      VideoService.ValidateSessionAccess sessionID userID
  | OpStartVideoSession now sessionID =>
      VideoService.StartVideoSession now sessionID userID
  | OpEndVideoSession now sessionID =>
      VideoService.EndVideoSession now sessionID userID
  | OpGetVideoSessionsByAppointment appointmentID =>
      void (VideoService.GetVideoSessionsByAppointment appointmentID userID)
  | OpGetSignalingInfo now roomToken sessionID =>
      void (VideoService.GetSignalingInfo now roomToken sessionID userID)
  | OpGetWebRTCOffer sessionID =>
      void (VideoService.GetWebRTCOffer sessionID userID)
  | OpSetWebRTCAnswer sessionID answer =>
      VideoService.SetWebRTCAnswer sessionID userID answer
  end.

(** How an operation names the appointment it is on. *)
Inductive Address :=
| ByAppointment (appointmentID : uint)
| ByPrescription (prescriptionID : uint)
| BySession (sessionID : uint).

Definition address (op : SubResourceOp) : Address :=
  match op with
  | OpSendMessage id _ _ | OpGetMessages id _ _ | OpUploadAttachment _ id
  | OpMarkMessagesAsRead _ id | OpGetUnreadCount id
  | OpCreatePrescription id _ _ | OpGetPrescriptions id
  | OpCreateVideoSession _ id | OpGetVideoSessionsByAppointment id =>
      ByAppointment id
  | OpGetPrescriptionDetails id | OpUpdatePrescription id _ _
  | OpDeletePrescription _ id => ByPrescription id
  | OpGetVideoSession id | OpValidateSessionAccess id
  | OpStartVideoSession _ id | OpEndVideoSession _ id
  | OpGetSignalingInfo _ _ id | OpGetWebRTCOffer id
  | OpSetWebRTCAnswer id _ => BySession id
  end.

Definition appointment_at (st : Store) (id : uint) : option Appointment.t :=
  match fst (appointmentRepository.FindByID id st) with
  | Ok a => Some a
  | Err _ => None
  end.

(** The appointment an operation is on, when there is one. *)
Definition target_appointment (op : SubResourceOp) (st : Store)
  : option Appointment.t :=
  match address op with
  | ByAppointment id => appointment_at st id
  | ByPrescription id =>
      match fst (prescriptionRepository.FindByID id st) with
      | Ok p => appointment_at st (Prescription.AppointmentID p)
      | Err _ => None
      end
  | BySession id =>
      match fst (videoSessionRepository.FindByID id st) with
      | Ok v => appointment_at st (VideoSession.AppointmentID v)
      | Err _ => None
      end
  end.

(** The one read that an operation addressed by the key of a sub-resource
    makes before it can check the caller: the row it is addressed to. *)
Definition lookup (op : SubResourceOp) : list Event :=
  match address op with
  | ByAppointment _ => []
  | ByPrescription id => [ReadByID Prescriptions id]
  | BySession id => [ReadByID VideoSessions id]
  end.

(** The methods that take the caller; [VideoService.GetVideoSession] does
    not. *)
Definition takes_actor (op : SubResourceOp) : bool :=
  match op with OpGetVideoSession _ => false | _ => true end.

(** The error of a refused caller: each method has its own message, all
    starting with [unauthorized]. *)
Definition forbidden (r : result unit) : Prop :=
  exists msg, r = Err msg /\ String.prefix "unauthorized" msg = true.

Definition same_tables (st st' : Store) : Prop :=
  users st' = users st
  /\ availability_slots st' = availability_slots st
  /\ appointments st' = appointments st
  /\ messages st' = messages st
  /\ prescriptions st' = prescriptions st
  /\ video_sessions st' = video_sessions st.

(** The access rule as the spec states it: whatever the operation, a
    caller who is neither the patient nor the doctor of the appointment is
    refused, and no sub-resource is read or written. *)
Definition participant_check_on_every_call : Prop :=
  forall (op : SubResourceOp) (userID : uint) (st : Store)
         (a : Appointment.t),
    target_appointment op st = Some a ->
    ~ participant a userID ->
    forbidden (fst (run_op op userID st))
    /\ same_tables st (snd (run_op op userID st))
    /\ log (snd (run_op op userID st)) = log st.

(** The clinic with a confirmed appointment, a prescription and a video
    session on it. *)
Definition clinic_in_session : Store :=
  set_prescriptions
    (set_video_sessions (booked_clinic "confirmed" "")
       [VideoSession.mk 1 1 "room1" None None])
    [Prescription.mk 1 1 (json.Marshal []) "" 1 None].

(** ** Vocabulary of the prescription properties *)

(** The five strings of every item are well-formed UTF-8. *)
Definition valid_item (it : PrescriptionItem.t) : bool :=
  utf8.ValidString (PrescriptionItem.MedicationName it)
  && utf8.ValidString (PrescriptionItem.Dosage it)
  && utf8.ValidString (PrescriptionItem.Frequency it)
  && utf8.ValidString (PrescriptionItem.Duration it)
  && utf8.ValidString (PrescriptionItem.Instructions it).

Definition valid_items (items : list PrescriptionItem.t) : bool :=
  forallb valid_item items.

(** The names of the five fields are read back as they were written. *)
Definition plain_key (k : string) : Prop :=
  forall tail,
    json.literal (String json.dquote (k ++ String json.dquote tail))
    = Some (k, tail).

(** The item of the spec's example. *)
Definition amoxicillin : PrescriptionItem.t :=
  PrescriptionItem.mk "Amoxicillin" "500mg" "3x/day" "7 days" "".

(** Prescription 1 of the sample clinic once its items are the
    amoxicillin item. *)
Definition amoxicillin_prescription : Prescription.t :=
  Prescription.mk 1 1 (json.Marshal [amoxicillin]) "" 1 None.

(** Another item, and the sample clinic once prescription 1 holds the
    amoxicillin item. *)
Definition ibuprofen : PrescriptionItem.t :=
  PrescriptionItem.mk "Ibuprofen" "200mg" "2x/day" "5 days" "after meals".

Definition clinic_with_amoxicillin : Store :=
  set_prescriptions clinic_in_session [amoxicillin_prescription].

(** ** Vocabulary of the further properties *)

(** What the schema asks of a slot, [status IN ('open','blocked')], and
    what [CreateSlot] asks of its range. *)
Definition well_formed_slot (r : AvailabilitySlot.t) : Prop :=
  (AvailabilitySlot.StartTime r < AvailabilitySlot.EndTime r)%Z
  /\ (AvailabilitySlot.Status r = "open"
      \/ AvailabilitySlot.Status r = "blocked").

Definition well_formed_slots (st : Store) : Prop :=
  forall r, In r (availability_slots st) -> well_formed_slot r.

(** No two rows of the table of appointments have the same key. *)
Definition unique_appointment_keys (st : Store) : Prop :=
  NoDup (map Appointment.ID (appointments st)).

(** One of the characters [0123456789abcdef]. *)
Definition lower_hex (c : ascii) : bool :=
  utf8.within 48 57 c || utf8.within 97 102 c.

Fixpoint all_chars (p : ascii -> bool) (s : string) : bool :=
  match s with
  | EmptyString => true
  | String c t => p c && all_chars p t
  end.

(** A stored message after some calls: its key, appointment, sender, body
    and attachment are as they were, and once it has a read time the whole
    row is as it was. *)
Definition message_kept (m m' : Message.t) : Prop :=
  Message.with_ReadAt m' None = Message.with_ReadAt m None
  /\ (Message.ReadAt m <> None -> m' = m).

(** The table of messages has only grown at its end, its earlier rows
    kept; the directory, the slots and the appointments are untouched. *)
Definition history_kept (st st' : Store) : Prop :=
  (exists old extra,
      messages st' = old ++ extra
      /\ Forall2 message_kept (messages st) old)
  /\ users st' = users st
  /\ availability_slots st' = availability_slots st
  /\ appointments st' = appointments st.

Definition keeps_history {A} (c : M A) : Prop :=
  forall st, history_kept st (snd (c st)).

(** What the codec makes of a string that goes through it: every byte
    that is not part of a well-formed UTF-8 sequence is replaced by the
    encoding of U+FFFD, and the rest is kept. *)
Fixpoint coerce_loop (fuel : nat) (s : string) : string :=
  match fuel, s with
  | _, EmptyString => EmptyString
  | O, _ => EmptyString
  | S fuel', String _ _ =>
      let '(c, size) := utf8.DecodeRune s in
      ((if N.eqb c utf8.RuneError && Nat.eqb size 1
        then utf8.EncodeRune utf8.RuneError
        else utf8.take size s)
       ++ coerce_loop fuel' (utf8.drop size s))%string
  end.

Definition coerce (s : string) : string := coerce_loop (String.length s) s.

Definition coerce_item (it : PrescriptionItem.t) : PrescriptionItem.t :=
  PrescriptionItem.mk (coerce (PrescriptionItem.MedicationName it))
                      (coerce (PrescriptionItem.Dosage it))
                      (coerce (PrescriptionItem.Frequency it))
                      (coerce (PrescriptionItem.Duration it))
                      (coerce (PrescriptionItem.Instructions it)).
(** * Properties *)

(** ** Tools *)

Ltac run :=
  unfold bind, or_fail, fail, ret, lift, gets, modify, record in *; cbn in *.

Lemma next_id_above {A} (key : A -> uint) (rows : list A) (r : A) :
  In r rows -> (key r < next_id key rows)%N.
Proof.
  unfold next_id. induction rows as [|x rows IH]; cbn; [easy|].
  intros [->|Hin]; [lia|]. specialize (IH Hin). lia.
Qed.

Lemma find_app_fresh {A} (key : A -> uint) (rows : list A) (x : A) (id : uint) :
  key x = id ->
  (forall r, In r rows -> key r <> id) ->
  find (fun r => N.eqb (key r) id) (rows ++ [x]) = Some x.
Proof.
  intros <- H. induction rows as [|y rows IH]; cbn.
  - now rewrite N.eqb_refl.
  - destruct (N.eqb_spec (key y) (key x)) as [E|_].
    + exfalso. apply (H y); cbn; auto.
    + apply IH. intros r Hr. apply H. now right.
Qed.

(** ** Booking *)

(** The overlap query is refused whatever it is asked. *)
Lemma FindByDoctorAndTimeRange_fails doctorID startTime endTime st :
  appointmentRepository.FindByDoctorAndTimeRange doctorID startTime endTime st
  = (Err (sql.ErrUndefinedColumn "start_time"), st).
Proof. reflexivity. Qed.

(** [CreateAppointment] as one decision tree over the store. *)
Lemma CreateAppointment_eq now req st :
  AppointmentService.CreateAppointment now req st =
  match first_row (fun u => N.eqb (User.ID u)
                                  (CreateAppointmentRequest.DoctorID req))
                  (users st) with
  | Err _ => (Err "doctor not found", st)
  | Ok d =>
    if negb (String.eqb (User.Role d) "doctor")
    then (Err "doctor not found", st) else
    match first_row (fun u => N.eqb (User.ID u)
                                    (CreateAppointmentRequest.PatientID req))
                    (users st) with
    | Err _ => (Err "patient not found", st)
    | Ok p =>
      if negb (String.eqb (User.Role p) "patient")
      then (Err "patient not found", st) else
      if Z.ltb (CreateAppointmentRequest.StartTime req) now
      then (Err "start time cannot be in the past", st) else
      if Z.ltb (CreateAppointmentRequest.EndTime req)
               (CreateAppointmentRequest.StartTime req)
      then (Err "end time must be after start time", st)
      else (Err (sql.ErrUndefinedColumn "start_time"), st)
    end
  end.
Proof.
  destruct req as [patientID doctorID slotID notes startTime endTime].
  unfold AppointmentService.CreateAppointment. cbn.
  unfold bind at 1, or_fail at 1, userRepository.FindByID at 1. cbn.
  destruct (first_row (fun u => N.eqb (User.ID u) doctorID) (users st))
    as [d|]; [|reflexivity].
  destruct (negb (String.eqb (User.Role d) "doctor")); [reflexivity|].
  unfold bind at 1, or_fail at 1, userRepository.FindByID at 1. cbn.
  destruct (first_row (fun u => N.eqb (User.ID u) patientID) (users st))
    as [p|]; [|reflexivity].
  destruct (negb (String.eqb (User.Role p) "patient")); [reflexivity|].
  unfold time.Before.
  destruct (Z.ltb startTime now); [reflexivity|].
  destruct (Z.ltb endTime startTime); reflexivity.
Qed.

Ltac role_cases :=
  unfold has_role, userRepository.FindByID in *; cbn [fst snd] in *;
  repeat match goal with
         | H : exists u, _ = Ok u /\ User.Role u = _ |- _ =>
             let u := fresh "u" in
             let E := fresh "E" in
             let R := fresh "R" in
             destruct H as (u & E & R); rewrite E; rewrite R; cbn
         end.

(** What [CreateAppointment] returns once its four guards are passed: the
    error of the overlap query. *)
Lemma CreateAppointment_guards_passed now req st :
  has_role st (CreateAppointmentRequest.DoctorID req) "doctor" ->
  has_role st (CreateAppointmentRequest.PatientID req) "patient" ->
  (now <= CreateAppointmentRequest.StartTime req)%Z ->
  (CreateAppointmentRequest.StartTime req
   <= CreateAppointmentRequest.EndTime req)%Z ->
  AppointmentService.CreateAppointment now req st
  = (Err (sql.ErrUndefinedColumn "start_time"), st).
Proof.
  intros Gd Gp Hnow Hrange. rewrite CreateAppointment_eq. role_cases.
  destruct (Z.ltb_spec (CreateAppointmentRequest.StartTime req) now); [lia|].
  destruct (Z.ltb_spec (CreateAppointmentRequest.EndTime req)
                       (CreateAppointmentRequest.StartTime req)); [lia|].
  reflexivity.
Qed.

(** No call of [CreateAppointment] returns an appointment, and none
    writes. *)
Lemma CreateAppointment_fails now req st :
  is_ok (fst (AppointmentService.CreateAppointment now req st)) = false
  /\ snd (AppointmentService.CreateAppointment now req st) = st.
Proof.
  rewrite CreateAppointment_eq.
  repeat match goal with
         | |- context [match ?x with _ => _ end] => destruct x
         end; split; reflexivity.
Qed.

(** C1. When the preconditions of a booking request hold, the call
    returns neither the conflict error nor an appointment: it returns the
    error with which the database refuses the overlap query, whose
    condition names the columns [start_time] and [end_time] that table
    [appointments] does not have, and it inserts nothing. *)
Theorem create_appointment_fails_at_overlap_query now req st :
  preconditions now req st ->
  AppointmentService.CreateAppointment now req st
  = (Err (sql.ErrUndefinedColumn "start_time"), st)
  /\ fst (appointmentRepository.FindByDoctorAndTimeRange
            (CreateAppointmentRequest.DoctorID req)
            (CreateAppointmentRequest.StartTime req)
            (CreateAppointmentRequest.EndTime req) st)
     = Err (sql.ErrUndefinedColumn "start_time")
  /\ fst (AppointmentService.CreateAppointment now req st)
     <> Err "time slot is already booked"
  /\ appointments (snd (AppointmentService.CreateAppointment now req st))
     = appointments st.
Proof.
  intros (Gd & Gp & Gn & Gr).
  rewrite (CreateAppointment_guards_passed now req st Gd Gp Gn);
    [|apply Z.lt_le_incl, Gr].
  repeat split. cbn. discriminate.
Qed.

(** C1 where the claim promises an appointment: patient 2 asks doctor 1
    for [[600, 630]] and nothing is booked yet. *)
Lemma create_appointment_fails_at_overlap_query_witness :
  preconditions 0 (request 600 630) clinic
  /\ AppointmentService.CreateAppointment 0 (request 600 630) clinic
     = (Err (sql.ErrUndefinedColumn "start_time"), clinic).
Proof.
  assert (P : preconditions 0 (request 600 630) clinic).
  { unfold preconditions, has_role. cbn.
    repeat split; try lia; eexists; split; reflexivity. }
  split; [exact P|].
  exact (proj1 (create_appointment_fails_at_overlap_query _ _ _ P)).
Defined.



(** The record of the sample request, as [Create] stores it at instant 5
    in the clinic. *)
Lemma create_stores_no_range :
  appointmentRepository.Create 5 (AppointmentService.new_appointment
                                    (request 600 630)) clinic
  = (Ok (Appointment.mk 1 2 1 None "pending" "" 5 5 None),
     set_appointments clinic [Appointment.mk 1 2 1 None "pending" "" 5 5 None]).
Proof. reflexivity. Qed.

(** A request over a range of no length (end equal to start) passes the
    guard that compares the two: the call goes on to the overlap query. *)
Lemma empty_range_passes_guards now req st :
  has_role st (CreateAppointmentRequest.DoctorID req) "doctor" ->
  has_role st (CreateAppointmentRequest.PatientID req) "patient" ->
  (now <= CreateAppointmentRequest.StartTime req)%Z ->
  CreateAppointmentRequest.EndTime req = CreateAppointmentRequest.StartTime req ->
  AppointmentService.CreateAppointment now req st
  = (Err (sql.ErrUndefinedColumn "start_time"), st).
Proof.
  intros Gd Gp Gn Ge.
  apply (CreateAppointment_guards_passed now req st Gd Gp Gn). lia.
Qed.

(** The guards of [CreateAppointment] that do reject: each returns its
    error and writes nothing. *)
Lemma CreateAppointment_rejections now req st :
  (~ has_role st (CreateAppointmentRequest.DoctorID req) "doctor" ->
   AppointmentService.CreateAppointment now req st
   = (Err "doctor not found", st))
  /\ (has_role st (CreateAppointmentRequest.DoctorID req) "doctor" ->
      ~ has_role st (CreateAppointmentRequest.PatientID req) "patient" ->
      AppointmentService.CreateAppointment now req st
      = (Err "patient not found", st))
  /\ (has_role st (CreateAppointmentRequest.DoctorID req) "doctor" ->
      has_role st (CreateAppointmentRequest.PatientID req) "patient" ->
      (CreateAppointmentRequest.StartTime req < now)%Z ->
      AppointmentService.CreateAppointment now req st
      = (Err "start time cannot be in the past", st))
  /\ (has_role st (CreateAppointmentRequest.DoctorID req) "doctor" ->
      has_role st (CreateAppointmentRequest.PatientID req) "patient" ->
      (now <= CreateAppointmentRequest.StartTime req)%Z ->
      (CreateAppointmentRequest.EndTime req
       < CreateAppointmentRequest.StartTime req)%Z ->
      AppointmentService.CreateAppointment now req st
      = (Err "end time must be after start time", st)).
Proof.
  rewrite CreateAppointment_eq. unfold has_role, userRepository.FindByID.
  cbn [fst].
  destruct (first_row _ (users st)) as [d|].
  2:{ repeat split; try reflexivity; intros (u & [=] & _). }
  destruct (String.eqb_spec (User.Role d) "doctor") as [Rd|Rd]; cbn.
  2:{ split; [reflexivity|].
      repeat split; intros (u & [= <-] & R); contradiction. }
  split; [intros G; contradiction G; eauto|].
  destruct (first_row _ (users st)) as [p|].
  2:{ split; [reflexivity|]. split; intros _ (u & [=] & _). }
  destruct (String.eqb_spec (User.Role p) "patient") as [Rp|Rp]; cbn.
  2:{ split; [reflexivity|]. split; intros _ (u & [= <-] & R); contradiction. }
  split; [intros _ G; contradiction G; eauto|].
  split; intros _ _.
  - intros H.
    destruct (Z.ltb_spec (CreateAppointmentRequest.StartTime req) now);
      [reflexivity|lia].
  - intros H1 H2.
    destruct (Z.ltb_spec (CreateAppointmentRequest.StartTime req) now); [lia|].
    destruct (Z.ltb_spec (CreateAppointmentRequest.EndTime req)
                         (CreateAppointmentRequest.StartTime req));
      [reflexivity|lia].
Qed.

(** C7. A request whose end equals its start is not refused by the
    validation: with doctor 1 and patient 2 in the directory and a range
    that starts and ends at minute 600, the call passes the four guards
    and returns what the overlap query returns, which is none of the four
    validation errors; a range that ends one minute before it starts is
    refused with [end time must be after start time]. *)
Theorem empty_range_passes_validation :
  AppointmentService.CreateAppointment 0 (request 600 600) clinic
  = (Err (sql.ErrUndefinedColumn "start_time"), clinic)
  /\ fst (appointmentRepository.FindByDoctorAndTimeRange 1 600 600 clinic)
     = Err (sql.ErrUndefinedColumn "start_time")
  /\ ~ In (sql.ErrUndefinedColumn "start_time")
          ["doctor not found"; "patient not found";
           "start time cannot be in the past";
           "end time must be after start time"]
  /\ AppointmentService.CreateAppointment 0 (request 600 599) clinic
     = (Err "end time must be after start time", clinic).
Proof.
  split; [reflexivity|]. split; [reflexivity|]. split; [|reflexivity].
  cbn. intros [H|[H|[H|[H|[]]]]]; discriminate.
Qed.




(** ** Status changes *)

Lemma existsb_find {A} (p : A -> bool) (l : list A) :
  existsb p l = match find p l with Some _ => true | None => false end.
Proof.
  induction l as [|x l IH]; cbn; [reflexivity|].
  destruct (p x); [reflexivity|exact IH].
Qed.

Lemma FindByID_inv id st a :
  fst (appointmentRepository.FindByID id st) = Ok a ->
  In a (appointments st) /\ Appointment.ID a = id
  /\ Appointment.DeletedAt a = None.
Proof.
  unfold appointmentRepository.FindByID, first_row. cbn.
  destruct (find _ (appointments st)) as [r|] eqn:F; cbn; [|discriminate].
  intros [= <-]. apply find_some in F as [I F].
  apply andb_true_iff in F as [L K]. apply N.eqb_eq in K.
  unfold appointmentRepository.live in L.
  destruct (Appointment.DeletedAt r); [discriminate|]. auto.
Qed.

Lemma FindByID_key id st a :
  fst (appointmentRepository.FindByID id st) = Ok a -> Appointment.ID a = id.
Proof. intros F. now apply FindByID_inv in F. Qed.

Lemma FindByID_pure id st :
  snd (appointmentRepository.FindByID id st) = st.
Proof. reflexivity. Qed.

(** Reading by its key a row that was just saved. *)
Lemma find_save_row (a : Appointment.t) (rows : list Appointment.t) :
  appointmentRepository.live a = true ->
  find (fun r => appointmentRepository.live r
                 && N.eqb (Appointment.ID r) (Appointment.ID a))
       (map (appointmentRepository.save_row a) rows)
  = if existsb (fun r => N.eqb (Appointment.ID r) (Appointment.ID a)) rows
    then Some a else None.
Proof.
  intros L. induction rows as [|x rows IH]; cbn; [reflexivity|].
  assert (S : appointmentRepository.save_row a x
              = if N.eqb (Appointment.ID x) (Appointment.ID a) then a else x)
    by reflexivity.
  rewrite S. destruct (N.eqb (Appointment.ID x) (Appointment.ID a)) eqn:E; cbn.
  - now rewrite L, N.eqb_refl.
  - rewrite E, andb_false_r. exact IH.
Qed.

(** A write that turns an appointment into one that the index does not
    hold is never refused. *)
Lemma no_clash_off_index a rows :
  appointmentRepository.indexed a = None ->
  existsb (appointmentRepository.clashes a) rows = false.
Proof.
  intros I. induction rows as [|r rows IH]; cbn; [reflexivity|].
  unfold appointmentRepository.clashes at 1. rewrite I, andb_false_r.
  exact IH.
Qed.

(** In a table that respects its index, a write over an active
    appointment that leaves its key and slot alone is never refused. *)
Lemma no_clash_on_active st a a' :
  index_respected st ->
  In a (appointments st) ->
  active a ->
  Appointment.ID a' = Appointment.ID a ->
  Appointment.SlotID a' = Appointment.SlotID a ->
  existsb (appointmentRepository.clashes a') (appointments st) = false.
Proof.
  intros X I A K S.
  destruct (existsb _ _) eqn:E; [|reflexivity].
  apply existsb_exists in E as (r & Hr & C).
  specialize (X a r I Hr).
  unfold appointmentRepository.clashes in *. rewrite K in C.
  apply andb_true_iff in C as [C1 C2]. rewrite C1 in X. cbn in X.
  assert (Ia : appointmentRepository.indexed a = Appointment.SlotID a).
  { unfold appointmentRepository.indexed. now destruct A as [-> | ->]. }
  rewrite Ia in X.
  unfold appointmentRepository.indexed at 1 in C2. rewrite S in C2.
  destruct (String.eqb _ _ || String.eqb _ _); [|discriminate].
  destruct (Appointment.SlotID a); [|discriminate]. congruence.
Qed.

(** Saving, at [now], an appointment made from one that was read by its
    key, then reading it back. *)
Lemma Update_then_FindByID now a0 a st :
  fst (appointmentRepository.FindByID (Appointment.ID a) st) = Ok a0 ->
  Appointment.DeletedAt a = None ->
  let a' := Appointment.with_UpdatedAt a now in
  let st' := set_appointments st
               (map (appointmentRepository.save_row a') (appointments st)) in
  appointmentRepository.Update now a st
  = (if existsb (appointmentRepository.clashes a') (appointments st)
     then (Err (sql.ErrUniqueViolation
                  appointmentRepository.uniq_slot_confirmed), st)
     else (Ok tt, st'))
  /\ appointmentRepository.FindByID (Appointment.ID a) st' = (Ok a', st').
Proof.
  intros F D a' st'.
  apply FindByID_inv in F as (I & K & _).
  assert (E : existsb (fun r => N.eqb (Appointment.ID r) (Appointment.ID a))
                      (appointments st) = true).
  { apply existsb_exists. exists a0. split; [exact I|]. now apply N.eqb_eq. }
  split.
  - unfold appointmentRepository.Update. fold a'. now rewrite E.
  - unfold appointmentRepository.FindByID, first_row, st'. cbn.
    change (Appointment.ID a) with (Appointment.ID a').
    rewrite find_save_row.
    + change (Appointment.ID a') with (Appointment.ID a). now rewrite E.
    + unfold appointmentRepository.live, a'. cbn. now rewrite D.
Qed.

Lemma updated_fields a status notes :
  Appointment.ID (updated a status notes) = Appointment.ID a
  /\ Appointment.PatientID (updated a status notes) = Appointment.PatientID a
  /\ Appointment.DoctorID (updated a status notes) = Appointment.DoctorID a
  /\ Appointment.SlotID (updated a status notes) = Appointment.SlotID a
  /\ Appointment.Status (updated a status notes) = status
  /\ Appointment.Notes (updated a status notes)
     = (if String.eqb notes "" then Appointment.Notes a else notes)
  /\ Appointment.CreatedAt (updated a status notes) = Appointment.CreatedAt a
  /\ Appointment.UpdatedAt (updated a status notes) = Appointment.UpdatedAt a
  /\ Appointment.DeletedAt (updated a status notes) = Appointment.DeletedAt a.
Proof.
  unfold updated. destruct (String.eqb notes ""); cbn; repeat split.
Qed.

(** [UpdateAppointmentStatus] as one decision tree over the store. *)
Lemma UpdateAppointmentStatus_eq now req st :
  AppointmentService.UpdateAppointmentStatus now req st =
  match fst (appointmentRepository.FindByID
               (UpdateAppointmentStatusRequest.AppointmentID req) st) with
  | Err _ => (Err "appointment not found", st)
  | Ok a =>
    if negb (N.eqb (Appointment.DoctorID a)
                   (UpdateAppointmentStatusRequest.DoctorID req))
    then (Err "unauthorized to update this appointment", st)
    else
      let a' := Appointment.with_UpdatedAt
                  (updated a (UpdateAppointmentStatusRequest.Status req)
                           (UpdateAppointmentStatusRequest.Notes req)) now in
      if existsb (appointmentRepository.clashes a') (appointments st)
      then (Err (sql.ErrUniqueViolation
                   appointmentRepository.uniq_slot_confirmed), st)
      else (Ok a', set_appointments st
                     (map (appointmentRepository.save_row a')
                          (appointments st)))
  end.
Proof.
  destruct req as [appointmentID doctorID status notes].
  cbn [UpdateAppointmentStatusRequest.AppointmentID
         UpdateAppointmentStatusRequest.DoctorID
         UpdateAppointmentStatusRequest.Status
         UpdateAppointmentStatusRequest.Notes].
  unfold AppointmentService.UpdateAppointmentStatus.
  unfold bind at 1, or_fail at 1.
  pose proof (FindByID_inv appointmentID st) as K.
  pose proof (FindByID_pure appointmentID st) as P.
  destruct (appointmentRepository.FindByID appointmentID st) as [[a|e] st0]
    eqn:F; cbn [fst snd] in *; cbv beta iota; subst st0; [|reflexivity].
  destruct (K a eq_refl) as (_ & Ka & D).
  destruct (negb (N.eqb (Appointment.DoctorID a) doctorID)); [reflexivity|].
  fold (updated a status notes).
  destruct (updated_fields a status notes) as (I & _ & _ & _ & _ & _ & _ & _ & D').
  destruct (Update_then_FindByID now a (updated a status notes) st) as [U L].
  { rewrite I, Ka, F. reflexivity. }
  { now rewrite D'. }
  unfold bind. rewrite U.
  destruct (existsb _ _); [reflexivity|].
  unfold appointmentRepository.LoadRelations. exact L.
Qed.

(** [CancelAppointment] as one decision tree over the store. *)
Lemma CancelAppointment_eq now appointmentID userID st :
  AppointmentService.CancelAppointment now appointmentID userID st =
  match fst (appointmentRepository.FindByID appointmentID st) with
  | Err _ => (Err "appointment not found", st)
  | Ok a =>
    if negb (N.eqb (Appointment.PatientID a) userID)
       && negb (N.eqb (Appointment.DoctorID a) userID)
    then (Err "unauthorized to cancel this appointment", st)
    else if String.eqb (Appointment.Status a) "completed"
            || String.eqb (Appointment.Status a) "cancelled"
    then (Err "appointment cannot be cancelled", st)
    else (Ok tt,
          set_appointments st
            (map (appointmentRepository.save_row
                    (Appointment.with_UpdatedAt
                       (Appointment.with_Status a "cancelled") now))
                 (appointments st)))
  end.
Proof.
  unfold AppointmentService.CancelAppointment.
  unfold bind at 1, or_fail at 1.
  pose proof (FindByID_inv appointmentID st) as K.
  pose proof (FindByID_pure appointmentID st) as P.
  destruct (appointmentRepository.FindByID appointmentID st) as [[a|e] st0]
    eqn:F; cbn [fst snd] in *; cbv beta iota; subst st0; [|reflexivity].
  destruct (K a eq_refl) as (_ & Ka & D).
  destruct (negb (N.eqb (Appointment.PatientID a) userID)
            && negb (N.eqb (Appointment.DoctorID a) userID)); [reflexivity|].
  destruct (String.eqb (Appointment.Status a) "completed"
            || String.eqb (Appointment.Status a) "cancelled"); [reflexivity|].
  destruct (Update_then_FindByID now a
              (Appointment.with_Status a "cancelled") st) as [U _].
  { cbn [Appointment.ID Appointment.with_Status]. rewrite Ka, F. reflexivity. }
  { exact D. }
  rewrite U, no_clash_off_index; reflexivity.
Qed.

(** The status read back after a row was saved over the one read before. *)
Lemma status_of_saved a0 a st :
  fst (appointmentRepository.FindByID (Appointment.ID a) st) = Ok a0 ->
  Appointment.DeletedAt a = None ->
  status_of (set_appointments st
               (map (appointmentRepository.save_row a) (appointments st)))
            (Appointment.ID a)
  = Some (Appointment.Status a).
Proof.
  intros F D. apply FindByID_inv in F as (I & K & _).
  unfold status_of, appointmentRepository.FindByID, first_row. cbn.
  rewrite find_save_row.
  - assert (E : existsb (fun r => N.eqb (Appointment.ID r) (Appointment.ID a))
                        (appointments st) = true).
    { apply existsb_exists. exists a0. split; [exact I|]. now apply N.eqb_eq. }
    now rewrite E.
  - unfold appointmentRepository.live. now rewrite D.
Qed.

(** C3, as the spec states it, fails: the doctor of a pending appointment
    asks for [completed], which the table does not allow from [pending],
    and the call succeeds and stores [completed]. *)
Lemma transition_table_not_respected : ~ transition_table_respected.
Proof.
  intros H.
  specialize (H 200%Z (booked_clinic "pending" "")
                (ViaUpdate (UpdateAppointmentStatusRequest.mk 1 1 "completed" ""))
                (appointment_1 "pending" "" 100)
                eq_refl eq_refl).
  destruct H as [H _]. cbn in H. discriminate.
Qed.

(** C3, amended.  A status change is refused, and nothing is written, when
    an update comes from anyone but the doctor of the appointment, when a
    cancellation comes from neither its patient nor its doctor, and when a
    cancellation meets an appointment that is already completed or
    cancelled.  On an active appointment a cancellation by a participant
    stores [cancelled], and an update by the doctor stores whichever status
    it asks for, in a table that respects its unique index:
    [UpdateAppointmentStatus] consults no transition table. *)
Theorem status_change_guards now st c a :
  fst (appointmentRepository.FindByID (change_target c) st) = Ok a ->
  match c with
  | ViaUpdate req =>
      (UpdateAppointmentStatusRequest.DoctorID req <> Appointment.DoctorID a ->
       apply_change now c st
       = (Err "unauthorized to update this appointment", st))
      /\ (UpdateAppointmentStatusRequest.DoctorID req = Appointment.DoctorID a ->
          active a ->
          index_respected st ->
          fst (apply_change now c st) = Ok tt
          /\ status_of (snd (apply_change now c st)) (change_target c)
             = Some (UpdateAppointmentStatusRequest.Status req))
  | ViaCancel appointmentID userID =>
      (userID <> Appointment.PatientID a ->
       userID <> Appointment.DoctorID a ->
       apply_change now c st
       = (Err "unauthorized to cancel this appointment", st))
      /\ (userID = Appointment.PatientID a \/ userID = Appointment.DoctorID a ->
          Appointment.Status a = "completed"
          \/ Appointment.Status a = "cancelled" ->
          apply_change now c st = (Err "appointment cannot be cancelled", st))
      /\ (userID = Appointment.PatientID a \/ userID = Appointment.DoctorID a ->
          active a ->
          fst (apply_change now c st) = Ok tt
          /\ status_of (snd (apply_change now c st)) (change_target c)
             = Some "cancelled")
  end.
Proof.
  intros F. pose proof (FindByID_inv _ _ _ F) as (I & K & D).
  destruct c as [req|appointmentID userID];
    cbn [change_target apply_change] in *.
  - unfold bind. rewrite UpdateAppointmentStatus_eq, F. split.
    + intros Hd. destruct (N.eqb_spec (Appointment.DoctorID a)
                             (UpdateAppointmentStatusRequest.DoctorID req));
        [congruence|reflexivity].
    + intros Hd Ha X. rewrite Hd, N.eqb_refl. cbn.
      destruct (updated_fields a (UpdateAppointmentStatusRequest.Status req)
                  (UpdateAppointmentStatusRequest.Notes req))
        as (Ki & _ & _ & Si & S & _ & _ & _ & Di).
      set (a' := Appointment.with_UpdatedAt (updated a _ _) now).
      rewrite (no_clash_on_active st a a' X I Ha Ki Si).
      cbn. split; [reflexivity|].
      pose proof (status_of_saved a a' st) as P.
      change (Appointment.ID a') with (Appointment.ID (updated a
               (UpdateAppointmentStatusRequest.Status req)
               (UpdateAppointmentStatusRequest.Notes req))) in P.
      rewrite Ki, K in P. rewrite P; [|exact F|exact (eq_trans Di D)].
      unfold a'. cbn [Appointment.Status Appointment.with_UpdatedAt].
      now rewrite S.
  - rewrite CancelAppointment_eq, F. split; [|split].
    + intros Hp Hd.
      destruct (N.eqb_spec (Appointment.PatientID a) userID); [congruence|].
      destruct (N.eqb_spec (Appointment.DoctorID a) userID); [congruence|].
      reflexivity.
    + intros Hu Hs.
      assert (E : negb (N.eqb (Appointment.PatientID a) userID)
                  && negb (N.eqb (Appointment.DoctorID a) userID) = false).
      { destruct Hu as [->| ->]; rewrite N.eqb_refl; cbn;
          [reflexivity|apply andb_false_r]. }
      rewrite E. destruct Hs as [-> | ->]; reflexivity.
    + intros Hu Ha.
      assert (E : negb (N.eqb (Appointment.PatientID a) userID)
                  && negb (N.eqb (Appointment.DoctorID a) userID) = false).
      { destruct Hu as [->| ->]; rewrite N.eqb_refl; cbn;
          [reflexivity|apply andb_false_r]. }
      rewrite E.
      assert (T : String.eqb (Appointment.Status a) "completed"
                  || String.eqb (Appointment.Status a) "cancelled" = false).
      { destruct Ha as [-> | ->]; reflexivity. }
      rewrite T. cbn. split; [reflexivity|].
      pose proof (status_of_saved a
                    (Appointment.with_UpdatedAt
                       (Appointment.with_Status a "cancelled") now) st) as P.
      cbn in P. rewrite K in P. apply P; [exact F|exact D].
Qed.

(** The refusal of C3 for an update that does not come from the doctor:
    patient 2 asks to confirm the own pending appointment. *)
Lemma status_change_guards_witness :
  fst (appointmentRepository.FindByID 1 (booked_clinic "pending" ""))
  = Ok (appointment_1 "pending" "" 100)
  /\ apply_change 200
       (ViaUpdate (UpdateAppointmentStatusRequest.mk 1 2 "confirmed" ""))
       (booked_clinic "pending" "")
     = (Err "unauthorized to update this appointment",
        booked_clinic "pending" "").
Proof.
  split; [reflexivity|].
  refine (proj1 (status_change_guards 200 (booked_clinic "pending" "")
                   (ViaUpdate (UpdateAppointmentStatusRequest.mk
                                 1 2 "confirmed" ""))
                   (appointment_1 "pending" "" 100) eq_refl) _).
  cbn. discriminate.
Defined.

Lemma save_row_others a rows r :
  In r rows ->
  Appointment.ID r <> Appointment.ID a ->
  In r (map (appointmentRepository.save_row a) rows).
Proof.
  intros Hin Hne. apply in_map_iff. exists r. split; [|exact Hin].
  unfold appointmentRepository.save_row.
  destruct (N.eqb_spec (Appointment.ID r) (Appointment.ID a));
    [contradiction|reflexivity].
Qed.

(** C10, as the spec states it, fails: the doctor confirms, at instant
    200, an appointment last written at instant 100, and the appointment
    stored afterwards differs from the one before in its [UpdatedAt]
    too. *)
Lemma other_fields_do_change : ~ only_status_and_notes_change.
Proof.
  intros H.
  destruct (H 200%Z (UpdateAppointmentStatusRequest.mk 1 1 "confirmed" "")
              (booked_clinic "pending" "fasting")
              (booked_clinic_at 200 "confirmed" "fasting")
              (appointment_1 "pending" "fasting" 100)
              (appointment_1 "confirmed" "fasting" 200)
              eq_refl eq_refl) as [_ E].
  discriminate E.
Qed.

(** C10, amended.  A successful [UpdateAppointmentStatus] writes the
    requested status and, when the request carries notes, the notes; with
    empty notes the stored notes stay, so notes that were not empty are
    never emptied.  It also sets [UpdatedAt] to the time of the call.  The
    key, patient, doctor, slot, [CreatedAt] and [DeletedAt] of the
    appointment, the rows of other appointments and all other tables are
    as they were. *)
Theorem update_status_frame now req st a1 st' :
  AppointmentService.UpdateAppointmentStatus now req st = (Ok a1, st') ->
  exists a0,
    fst (appointmentRepository.FindByID
           (UpdateAppointmentStatusRequest.AppointmentID req) st) = Ok a0
    /\ fst (appointmentRepository.FindByID
              (UpdateAppointmentStatusRequest.AppointmentID req) st') = Ok a1
    /\ Appointment.Status a1 = UpdateAppointmentStatusRequest.Status req
    /\ (UpdateAppointmentStatusRequest.Notes req = "" ->
        Appointment.Notes a1 = Appointment.Notes a0)
    /\ (UpdateAppointmentStatusRequest.Notes req <> "" ->
        Appointment.Notes a1 = UpdateAppointmentStatusRequest.Notes req)
    /\ (Appointment.Notes a0 <> "" -> Appointment.Notes a1 <> "")
    /\ Appointment.UpdatedAt a1 = now
    /\ Appointment.ID a1 = Appointment.ID a0
    /\ Appointment.PatientID a1 = Appointment.PatientID a0
    /\ Appointment.DoctorID a1 = Appointment.DoctorID a0
    /\ Appointment.SlotID a1 = Appointment.SlotID a0
    /\ Appointment.CreatedAt a1 = Appointment.CreatedAt a0
    /\ Appointment.DeletedAt a1 = Appointment.DeletedAt a0
    /\ appointments st'
       = map (appointmentRepository.save_row a1) (appointments st)
    /\ (forall r, In r (appointments st) ->
                  Appointment.ID r
                  <> UpdateAppointmentStatusRequest.AppointmentID req ->
                  In r (appointments st'))
    /\ users st' = users st
    /\ availability_slots st' = availability_slots st
    /\ messages st' = messages st
    /\ prescriptions st' = prescriptions st
    /\ video_sessions st' = video_sessions st
    /\ log st' = log st.
Proof.
  rewrite UpdateAppointmentStatus_eq.
  destruct (fst (appointmentRepository.FindByID _ st)) as [a0|] eqn:F;
    [|discriminate].
  destruct (negb (N.eqb _ _)); [discriminate|].
  cbv zeta. destruct (existsb _ _); [discriminate|].
  intros [= <- <-]. exists a0.
  pose proof (FindByID_inv _ _ _ F) as (_ & K & D0).
  destruct (updated_fields a0 (UpdateAppointmentStatusRequest.Status req)
              (UpdateAppointmentStatusRequest.Notes req))
    as (I & P & D & S & T & N & C & _ & X).
  set (a := updated a0 _ _) in *.
  destruct (Update_then_FindByID now a0 a st) as [_ L];
    [now rewrite I, K|now rewrite X|].
  rewrite I, K in L. cbv zeta in L.
  split; [reflexivity|]. split; [now rewrite L|]. split; [exact T|].
  split; [intros Hn; cbn; rewrite N, Hn; reflexivity|].
  split; [intros Hn; apply String.eqb_neq in Hn; cbn; now rewrite Hn in N|].
  split.
  { intros Hn. cbn. rewrite N.
    destruct (String.eqb_spec (UpdateAppointmentStatusRequest.Notes req) "");
      assumption. }
  repeat (split; [assumption || reflexivity|]).
  split.
  { intros r Hr Hne. apply save_row_others; [exact Hr|]. cbn.
    now rewrite I, K. }
  repeat split.
Qed.

(** C10 on an appointment whose notes read [fasting]: the doctor confirms
    it with empty notes at instant 200, and the notes are still there. *)
Lemma update_status_frame_witness :
  AppointmentService.UpdateAppointmentStatus 200
    (UpdateAppointmentStatusRequest.mk 1 1 "confirmed" "")
    (booked_clinic "pending" "fasting")
  = (Ok (appointment_1 "confirmed" "fasting" 200),
     booked_clinic_at 200 "confirmed" "fasting")
  /\ exists a0,
      fst (appointmentRepository.FindByID 1 (booked_clinic "pending" "fasting"))
      = Ok a0
      /\ Appointment.Notes (appointment_1 "confirmed" "fasting" 200)
         = Appointment.Notes a0
      /\ Appointment.UpdatedAt (appointment_1 "confirmed" "fasting" 200)
         = 200%Z.
Proof.
  assert (H : AppointmentService.UpdateAppointmentStatus 200
                (UpdateAppointmentStatusRequest.mk 1 1 "confirmed" "")
                (booked_clinic "pending" "fasting")
              = (Ok (appointment_1 "confirmed" "fasting" 200),
                 booked_clinic_at 200 "confirmed" "fasting")) by reflexivity.
  split; [exact H|].
  destruct (update_status_frame _ _ _ _ _ H) as (a0 & F & _ & _ & N & _ & _ & U & _).
  exists a0. split; [exact F|]. split; [apply N; reflexivity|exact U].
Defined.

(** ** Slots *)

(** [DeleteSlot] never looks at the table of appointments. *)
Lemma DeleteSlot_ignores_appointments now slotID doctorID st rows :
  fst (SlotService.DeleteSlot now slotID doctorID (set_appointments st rows))
  = fst (SlotService.DeleteSlot now slotID doctorID st)
  /\ availability_slots
       (snd (SlotService.DeleteSlot now slotID doctorID
               (set_appointments st rows)))
     = availability_slots
         (snd (SlotService.DeleteSlot now slotID doctorID st)).
Proof.
  unfold SlotService.DeleteSlot, slotRepository.FindByID, bind. cbn.
  destruct (first_row _ (availability_slots st)) as [r|]; cbn;
    [|split; reflexivity].
  destruct (negb (N.eqb (AvailabilitySlot.DoctorID r) doctorID)); cbn;
    split; reflexivity.
Qed.

(** The owner of a live slot can always delete it. *)
Lemma DeleteSlot_by_owner now slotID st slot :
  fst (slotRepository.FindByID slotID st) = Ok slot ->
  SlotService.DeleteSlot now slotID (AvailabilitySlot.DoctorID slot) st
  = (Ok tt,
     set_availability_slots st
       (map (slotRepository.delete_row now slotID) (availability_slots st))).
Proof.
  unfold SlotService.DeleteSlot, slotRepository.FindByID, bind. cbn.
  destruct (first_row _ (availability_slots st)) as [r|]; cbn;
    [|discriminate].
  intros [= <-]. cbn. now rewrite N.eqb_refl.
Qed.

(** [CreateSlot] refuses a range of no length: its guard tests both
    [After] and [Equal]. *)
Lemma CreateSlot_rejects_empty_range now doctorID t st :
  (now <= t)%Z ->
  SlotService.CreateSlot now doctorID (Ok t) (Ok t) st
  = (Err "start time must be before end time", st).
Proof.
  intros H. unfold SlotService.CreateSlot, bind, or_fail, lift, fail,
              time.Before, time.After, time.Equal.
  destruct (Z.ltb_spec t now); [lia|].
  now rewrite Z.eqb_refl, orb_true_r.
Qed.

(** C6. Slot 1 of doctor 1 has the pending appointment of patient 2
    attached; doctor 1 deletes the slot, the call succeeds, the row is marked
    deleted and the slot can no longer be found. *)
Theorem delete_slot_with_appointment_succeeds :
  attached clinic_with_booked_slot 1
  /\ SlotService.DeleteSlot 100 1 1 clinic_with_booked_slot
     = (Ok tt,
        set_availability_slots clinic_with_booked_slot
          [AvailabilitySlot.mk 1 1 600 630 "open" (Some 100%Z) None])
  /\ fst (slotRepository.FindByID 1
            (snd (SlotService.DeleteSlot 100 1 1 clinic_with_booked_slot)))
     = Err ErrRecordNotFound.
Proof.
  split; [|split; reflexivity].
  eexists. split; [left; reflexivity|reflexivity].
Qed.

(** ** Video sessions *)

Lemma find_rev_none {A} (p : A -> bool) (l : list A) :
  find p (rev l) = None <-> forall x, In x l -> p x = false.
Proof.
  split.
  - intros H x Hx. apply (find_none _ _ H). now apply in_rev in Hx.
  - intros H. destruct (find p (rev l)) as [x|] eqn:F; [|reflexivity].
    apply find_some in F as [Hin Hp]. apply in_rev in Hin.
    rewrite (H x Hin) in Hp. discriminate.
Qed.

Lemma is_active_spec v :
  videoSessionRepository.is_active v = true
  <-> VideoSession.StartedAt v <> None /\ VideoSession.EndedAt v = None.
Proof.
  unfold videoSessionRepository.is_active.
  destruct (VideoSession.StartedAt v), (VideoSession.EndedAt v);
    split; try discriminate; intros H;
    try (destruct H; congruence); split; congruence.
Qed.

(** The query behind the conflict check finds a row exactly when the
    appointment has a live session. *)
Lemma FindActiveByAppointment_spec appointmentID st :
  is_ok (fst (videoSessionRepository.FindActiveByAppointment appointmentID st))
  = true
  <-> has_live_session st appointmentID.
Proof.
  unfold videoSessionRepository.FindActiveByAppointment, first_row,
    has_live_session. cbn.
  destruct (find _ (rev (video_sessions st))) as [v|] eqn:F; cbn.
  - split; [intros _|reflexivity].
    apply find_some in F as [Hin Hp]. apply in_rev in Hin.
    apply andb_true_iff in Hp as [Ha Hp]. apply N.eqb_eq in Ha.
    apply is_active_spec in Hp as [Hs He]. exists v. auto.
  - split; [discriminate|].
    intros (v & Hin & Ha & Hs & He).
    pose proof (proj1 (find_rev_none _ _) F v Hin) as Hp. cbn in Hp.
    rewrite Ha, N.eqb_refl in Hp. cbn in Hp.
    assert (videoSessionRepository.is_active v = true)
      by (apply is_active_spec; auto).
    congruence.
Qed.

(** The session that [CreateVideoSession] stores. *)
Lemma CreateVideoSession_eq room req userID st a :
  fst (appointmentRepository.FindByID
         (CreateVideoSessionRequest.AppointmentID req) st) = Ok a ->
  participant a userID ->
  let id := CreateVideoSessionRequest.AppointmentID req in
  let v := VideoSession.mk (next_id VideoSession.ID (video_sessions st))
                           id room None None in
  VideoService.CreateVideoSession (Ok room) req userID st =
  if is_ok (fst (videoSessionRepository.FindActiveByAppointment id st))
  then (Err "active video session already exists for this appointment",
        set_log st (log st ++ [ReadByAppointment VideoSessions id]))
  else (Ok v,
        set_log (set_video_sessions st (video_sessions st ++ [v]))
                (((log st ++ [ReadByAppointment VideoSessions id])
                  ++ [Mutation VideoSessions])
                 ++ [ReadByID VideoSessions (VideoSession.ID v)])).
Proof.
  intros F P id v. unfold VideoService.CreateVideoSession.
  unfold bind at 1, or_fail at 1. fold id.
  pose proof (FindByID_pure id st) as Pu.
  subst id.
  destruct (appointmentRepository.FindByID _ st) as [[a'|] st0];
    cbn in F, Pu; [|discriminate]. injection F as ->. subst st0.
  assert (E : negb (N.eqb (Appointment.PatientID a) userID)
              && negb (N.eqb (Appointment.DoctorID a) userID) = false).
  { destruct P as [-> | ->]; rewrite N.eqb_refl; cbn;
      [reflexivity|apply andb_false_r]. }
  rewrite E.
  unfold videoSessionRepository.FindActiveByAppointment, first_row. cbn.
  destruct (find _ (rev (video_sessions st))) as [x|] eqn:Fx; cbn.
  - apply find_some in Fx as [_ Hp].
    apply andb_true_iff in Hp as [_ Hp].
    unfold videoSessionRepository.is_active in Hp.
    destruct (VideoSession.StartedAt x), (VideoSession.EndedAt x);
      try discriminate. reflexivity.
  - unfold bind, lift, videoSessionRepository.Create,
      videoSessionRepository.LoadRelations, videoSessionRepository.FindByID,
      first_row. cbn. fold v.
    erewrite (find_app_fresh VideoSession.ID).
    + reflexivity.
    + reflexivity.
    + intros r Hr. pose proof (next_id_above VideoSession.ID _ _ Hr).
      cbn in *. lia.
Qed.

(** C5, as the spec states it, fails: a participant of appointment 1
    creates a session and, before that session has ended, creates a second
    one; the second call succeeds, and once both are started the
    appointment has two sessions that are started and not ended. *)
Lemma second_create_is_not_refused : ~ second_create_conflicts.
Proof.
  intros H.
  destruct (H (booked_clinic "confirmed" "") _ "room1" "room2"
              session_request 2%N _ eq_refl) as [H1 _].
  cbn in H1. discriminate.
Qed.

(** Creating two sessions and starting both leaves two live sessions. *)
Lemma two_live_sessions_reachable :
  let run1 := VideoService.CreateVideoSession (Ok "room1") session_request 2
                (booked_clinic "confirmed" "") in
  let run2 := VideoService.CreateVideoSession (Ok "room2") session_request 2
                (snd run1) in
  let run3 := VideoService.StartVideoSession 100 1 2 (snd run2) in
  let run4 := VideoService.StartVideoSession 101 2 1 (snd run3) in
  fst run1 = Ok (VideoSession.mk 1 1 "room1" None None)
  /\ fst run2 = Ok (VideoSession.mk 2 1 "room2" None None)
  /\ fst run3 = Ok tt
  /\ fst run4 = Ok tt
  /\ live_sessions (snd run4) 1
     = [VideoSession.mk 1 1 "room1" (Some 100%Z) None;
        VideoSession.mk 2 1 "room2" (Some 101%Z) None].
Proof. vm_compute. repeat split. Qed.

(** C5, amended.  [CreateVideoSession], called by a participant of the
    appointment, is refused with the conflict error and stores nothing
    exactly when the appointment has a session that is started and not
    ended; otherwise, also when an earlier session was created and never
    started, it stores one new session, neither started nor ended. *)
Theorem create_video_session_conflict_iff_live room req userID st a :
  fst (appointmentRepository.FindByID
         (CreateVideoSessionRequest.AppointmentID req) st) = Ok a ->
  participant a userID ->
  let out := VideoService.CreateVideoSession (Ok room) req userID st in
  (fst out = Err "active video session already exists for this appointment"
   <-> has_live_session st (CreateVideoSessionRequest.AppointmentID req))
  /\ (has_live_session st (CreateVideoSessionRequest.AppointmentID req) ->
      video_sessions (snd out) = video_sessions st)
  /\ (~ has_live_session st (CreateVideoSessionRequest.AppointmentID req) ->
      exists v,
        fst out = Ok v
        /\ video_sessions (snd out) = video_sessions st ++ [v]
        /\ VideoSession.AppointmentID v
           = CreateVideoSessionRequest.AppointmentID req
        /\ VideoSession.RoomID v = room
        /\ VideoSession.StartedAt v = None
        /\ VideoSession.EndedAt v = None).
Proof.
  intros F P out. subst out.
  rewrite (CreateVideoSession_eq room req userID st a F P).
  rewrite <- FindActiveByAppointment_spec.
  destruct (is_ok (fst (videoSessionRepository.FindActiveByAppointment _ st)));
    cbn.
  - repeat split; auto. intros H. now contradiction H.
  - split; [split; discriminate|]. split; [discriminate|].
    intros _. eexists. repeat split.
Qed.

(** The refusal of C5: the first session of appointment 1 was started at
    100 and has not ended. *)
Lemma create_video_session_conflict_iff_live_witness :
  let st := set_video_sessions (booked_clinic "confirmed" "")
              [VideoSession.mk 1 1 "room1" (Some 100%Z) None] in
  has_live_session st 1
  /\ fst (VideoService.CreateVideoSession (Ok "room2") session_request 2 st)
     = Err "active video session already exists for this appointment".
Proof.
  cbv zeta.
  assert (L : has_live_session
                (set_video_sessions (booked_clinic "confirmed" "")
                   [VideoSession.mk 1 1 "room1" (Some 100%Z) None]) 1).
  { eexists. split; [left; reflexivity|]. cbn. repeat split. discriminate. }
  split; [exact L|].
  refine (proj2 (proj1 (create_video_session_conflict_iff_live
                          "room2" session_request 2%N
                          (set_video_sessions (booked_clinic "confirmed" "")
                             [VideoSession.mk 1 1 "room1" (Some 100%Z) None])
                          (appointment_1 "confirmed" "" 100)
                          eq_refl (or_introl eq_refl))) L).
Defined.

(** ** Access to the sub-resources *)

Lemma not_participant a userID :
  ~ participant a userID ->
  negb (N.eqb (Appointment.PatientID a) userID)
  && negb (N.eqb (Appointment.DoctorID a) userID) = true
  /\ negb (N.eqb (Appointment.DoctorID a) userID) = true.
Proof.
  unfold participant. intros H.
  destruct (N.eqb_spec (Appointment.PatientID a) userID); [intuition|].
  destruct (N.eqb_spec (Appointment.DoctorID a) userID); [intuition|].
  split; reflexivity.
Qed.

Lemma appointment_at_FindByID st id a :
  appointment_at st id = Some a ->
  appointmentRepository.FindByID id st = (Ok a, st).
Proof.
  unfold appointment_at. pose proof (FindByID_pure id st) as P.
  destruct (appointmentRepository.FindByID id st) as [[a'|] st0]; cbn in *;
    [|discriminate]. now intros [= ->]; subst.
Qed.

Lemma appointment_at_set_log st l id :
  appointmentRepository.FindByID id (set_log st l)
  = (fst (appointmentRepository.FindByID id st), set_log st l).
Proof.
  unfold appointmentRepository.FindByID. cbn.
  now destruct (first_row _ (appointments st)).
Qed.

(** C4, as the spec states it, fails: [GetVideoSession] hands the session
    of appointment 1 to patient 3, who is no participant of it. *)
Lemma participant_check_is_not_on_every_call :
  ~ participant_check_on_every_call.
Proof.
  intros H.
  destruct (H (OpGetVideoSession 1) 3%N clinic_in_session
              (appointment_1 "confirmed" "" 100) eq_refl)
    as [(msg & E & _) _].
  - unfold participant. cbn. intros [E|E]; discriminate.
  - cbn in E. discriminate.
Qed.

(** C4, amended.  Every chat, prescription and video-session method that
    takes the caller refuses a caller who is neither the patient nor the
    doctor of the appointment, with its unauthorized error, and writes to no
    table.  A method addressed by an appointment reads no sub-resource
    first; a method addressed by a prescription or by a session reads that
    one row, to find the appointment, and nothing else.
    [VideoService.GetVideoSession] takes no caller and makes no check. *)
Theorem non_participant_is_refused op userID st a :
  takes_actor op = true ->
  target_appointment op st = Some a ->
  ~ participant a userID ->
  forbidden (fst (run_op op userID st))
  /\ same_tables st (snd (run_op op userID st))
  /\ log (snd (run_op op userID st)) = log st ++ lookup op.
Proof.
  intros T A P. apply not_participant in P as [P D].
  unfold target_appointment, lookup in *.
  destruct op; try discriminate T; cbn [address] in *;
    try (apply appointment_at_FindByID in A);
    cbn [run_op];
    unfold void, ChatService.SendMessage, ChatService.GetMessages,
      ChatService.UploadAttachment, ChatService.MarkMessagesAsRead,
      ChatService.GetUnreadCount, PrescriptionService.CreatePrescription,
      PrescriptionService.GetPrescriptions,
      PrescriptionService.GetPrescriptionDetails,
      PrescriptionService.UpdatePrescription,
      PrescriptionService.DeletePrescription,
      VideoService.CreateVideoSession,
      VideoService.GetVideoSessionsByAppointment,
      VideoService.StartVideoSession, VideoService.EndVideoSession,
      VideoService.GetSignalingInfo, VideoService.GetWebRTCOffer,
      VideoService.SetWebRTCAnswer, VideoService.ValidateSessionAccess,
      bind, or_fail, fail;
    cbn [SendMessageRequest.AppointmentID SendMessageRequest.SenderUserID
         CreatePrescriptionRequest.AppointmentID
         CreatePrescriptionRequest.CreatedByDoctorID
         UpdatePrescriptionRequest.PrescriptionID
         UpdatePrescriptionRequest.DoctorID
         CreateVideoSessionRequest.AppointmentID];
    try (rewrite A; first [rewrite P|rewrite D]; cbn;
         rewrite app_nil_r;
         split; [eexists; split; reflexivity|];
         split; [repeat split|reflexivity]).
  all: unfold prescriptionRepository.FindByID, videoSessionRepository.FindByID
         in *; cbn [fst snd] in *;
    match goal with
    | A : match first_row ?p ?l with _ => _ end = _ |- _ =>
        destruct (first_row p l) as [x|]; [|discriminate]
    end;
    apply appointment_at_FindByID in A;
    rewrite appointment_at_set_log, A; cbn [fst];
    first [rewrite P|rewrite D]; cbn;
    (split; [eexists; split; reflexivity|]);
    (split; [repeat split|reflexivity]).
Qed.

(** The refusal of C4 for a method addressed by a prescription: patient 3
    asks for the details of prescription 1, which belongs to the
    appointment of patient 2 with doctor 1. *)
Lemma non_participant_is_refused_witness :
  target_appointment (OpGetPrescriptionDetails 1) clinic_in_session
  = Some (appointment_1 "confirmed" "" 100)
  /\ forbidden (fst (run_op (OpGetPrescriptionDetails 1) 3 clinic_in_session))
  /\ log (snd (run_op (OpGetPrescriptionDetails 1) 3 clinic_in_session))
     = [ReadByID Prescriptions 1].
Proof.
  split; [reflexivity|].
  destruct (non_participant_is_refused (OpGetPrescriptionDetails 1) 3%N
              clinic_in_session (appointment_1 "confirmed" "" 100)
              eq_refl eq_refl) as (F & _ & L).
  - unfold participant. cbn. intros [E|E]; discriminate.
  - split; [exact F|exact L].
Defined.

(** The handler of [GetVideoSession] does refuse patient 3, after the
    session was read twice by the fetch and once by the check. *)
Lemma handler_checks_after_reading :
  VideoService.GetVideoSession 1 clinic_in_session
  = (Ok (VideoSession.mk 1 1 "room1" None None),
     set_log clinic_in_session
       [ReadByID VideoSessions 1; ReadByID VideoSessions 1])
  /\ VideoHandler.GetVideoSession 1 3 clinic_in_session
     = (Err "unauthorized to access this video session",
        set_log clinic_in_session
          [ReadByID VideoSessions 1; ReadByID VideoSessions 1;
           ReadByID VideoSessions 1]).
Proof. split; reflexivity. Qed.

(** ** The codec of the prescription items *)

Ltac Zify.zify_post_hook ::= Z.to_euclidean_division_equations.

Lemma append_assoc (a b c : string) :
  ((a ++ b) ++ c = a ++ (b ++ c))%string.
Proof. induction a as [|x a IH]; cbn; [reflexivity|now rewrite IH]. Qed.

Lemma length_append (a b : string) :
  String.length (a ++ b) = (String.length a + String.length b)%nat.
Proof. induction a as [|x a IH]; cbn; [reflexivity|now rewrite IH]. Qed.

Lemma take_drop n s : (utf8.take n s ++ utf8.drop n s)%string = s.
Proof.
  revert s. induction n as [|n IH]; intros [|c t]; cbn; try reflexivity.
  now rewrite IH.
Qed.

Lemma drop_length n s :
  String.length (utf8.drop n s) = (String.length s - n)%nat.
Proof.
  revert s. induction n as [|n IH]; intros [|c t]; cbn; auto.
Qed.

Lemma byte_bounded c : (utf8.byte c < 256)%N.
Proof. apply N_ascii_bounded. Qed.

Lemma chr_byte c n : utf8.byte c = n -> utf8.chr n = c.
Proof. intros <-. apply ascii_N_embedding. Qed.

(** Boolean tests on numbers as propositions, for [lia]. *)
Ltac bools :=
  repeat match goal with
         | H : _ && _ = true |- _ => apply andb_true_iff in H as [? ?]
         | H : _ || _ = false |- _ => apply orb_false_iff in H as [? ?]
         | H : negb _ = true |- _ => apply negb_true_iff in H
         | H : negb _ = false |- _ => apply negb_false_iff in H
         | H : N.leb _ _ = true |- _ => apply N.leb_le in H
         | H : N.leb _ _ = false |- _ => apply N.leb_gt in H
         | H : N.ltb _ _ = true |- _ => apply N.ltb_lt in H
         | H : N.ltb _ _ = false |- _ => apply N.ltb_ge in H
         | H : N.eqb _ _ = true |- _ => apply N.eqb_eq in H
         | H : N.eqb _ _ = false |- _ => apply N.eqb_neq in H
         end.

Lemma DecodeRune_size b t :
  (1 <= snd (utf8.DecodeRune (String b t)))%nat.
Proof.
  unfold utf8.DecodeRune.
  repeat match goal with
         | |- context [match ?x with _ => _ end] => destruct x
         end; cbn; lia.
Qed.

Lemma within_spec lo hi b :
  utf8.within lo hi b = true <-> (lo <= utf8.byte b <= hi)%N.
Proof. unfold utf8.within. rewrite andb_true_iff, !N.leb_le. tauto. Qed.

(** Table [first], read back. *)
Lemma lead_spec n sz lo hi :
  utf8.lead n = Some (sz, lo, hi) ->
  (sz = 2%nat /\ lo = 128 /\ hi = 191 /\ 194 <= n <= 223)%N
  \/ (sz = 3%nat
      /\ ((n = 224 /\ lo = 160 /\ hi = 191)
          \/ (lo = 128 /\ hi = 191 /\ (225 <= n <= 236 \/ 238 <= n <= 239))
          \/ (n = 237 /\ lo = 128 /\ hi = 159)))%N
  \/ (sz = 4%nat
      /\ ((n = 240 /\ lo = 144 /\ hi = 191)
          \/ (lo = 128 /\ hi = 191 /\ 241 <= n <= 243)
          \/ (n = 244 /\ lo = 128 /\ hi = 143)))%N.
Proof.
  unfold utf8.lead.
  repeat match goal with
         | |- context [if ?x then _ else _] => destruct x eqn:?
         end; intros [= <- <- <-]; bools; lia.
Qed.

(** A well-formed sequence of more than one byte at the head of [s]: its
    bytes are the encoding of the rune, and they decode to it whatever
    follows. *)
Lemma DecodeRune_multibyte b0 t0 c size :
  (128 <= utf8.byte b0)%N ->
  utf8.DecodeRune (String b0 t0) = (c, size) ->
  (N.eqb c utf8.RuneError && Nat.eqb size 1) = false ->
  exists p,
    utf8.take size (String b0 t0) = String b0 p
    /\ String.length (String b0 p) = size
    /\ utf8.EncodeRune c = String b0 p
    /\ (128 <= c)%N
    /\ forall t, utf8.DecodeRune (String b0 p ++ t) = (c, size).
Proof.
  intros Hb H NE.
  assert (B0 := byte_bounded b0).
  unfold utf8.DecodeRune in H.
  destruct (N.ltb_spec (utf8.byte b0) utf8.RuneSelf) as [Hlt|_];
    [unfold utf8.RuneSelf in Hlt; lia|].
  destruct (utf8.lead (utf8.byte b0)) as [[[sz lo] hi]|] eqn:L;
    [|injection H as <- <-; discriminate NE].
  destruct t0 as [|b1 t1]; [injection H as <- <-; discriminate NE|].
  assert (B1 := byte_bounded b1).
  destruct (utf8.within lo hi b1) eqn:W1; cbn [negb] in H;
    [|injection H as <- <-; discriminate NE].
  pose proof (lead_spec _ _ _ _ L) as S.
  apply within_spec in W1.
  destruct (Nat.eqb_spec sz 2) as [->|N2].
  { (* two bytes *)
    injection H as <- <-. exists (String b1 "").
    assert (E1 : (192 + ((utf8.byte b0 mod 32) * 64 + utf8.byte b1 mod 64) / 64
                  = utf8.byte b0)%N) by lia.
    assert (E2 : (128 + ((utf8.byte b0 mod 32) * 64 + utf8.byte b1 mod 64) mod 64
                  = utf8.byte b1)%N) by lia.
    repeat split.
    - unfold utf8.EncodeRune.
      destruct (N.leb_spec ((utf8.byte b0 mod 32) * 64 + utf8.byte b1 mod 64)
                           127); [lia|].
      destruct (N.leb_spec ((utf8.byte b0 mod 32) * 64 + utf8.byte b1 mod 64)
                           2047); [|lia].
      rewrite E1, E2. now rewrite !(chr_byte _ _ eq_refl).
    - lia.
    - intros t. cbn [append]. unfold utf8.DecodeRune.
      destruct (N.ltb_spec (utf8.byte b0) utf8.RuneSelf) as [Hlt|_];
        [unfold utf8.RuneSelf in Hlt; lia|].
      rewrite L. apply within_spec in W1. now rewrite W1. }
  destruct t1 as [|b2 t2]; [injection H as <- <-; discriminate NE|].
  assert (B2 := byte_bounded b2).
  destruct (utf8.within 128 191 b2) eqn:W2; cbn [negb] in H;
    [|injection H as <- <-; discriminate NE].
  apply within_spec in W2.
  destruct (Nat.eqb_spec sz 3) as [->|N3].
  { (* three bytes *)
    injection H as <- <-. exists (String b1 (String b2 "")).
    set (r := ((utf8.byte b0 mod 16) * 4096 + (utf8.byte b1 mod 64) * 64
               + utf8.byte b2 mod 64)%N).
    assert (R : (2048 <= r <= 65535 /\ ~ (55296 <= r <= 57343))%N)
      by (unfold r; lia).
    assert (E1 : (224 + r / 4096 = utf8.byte b0)%N) by (unfold r; lia).
    assert (E2 : (128 + (r / 64) mod 64 = utf8.byte b1)%N) by (unfold r; lia).
    assert (E3 : (128 + r mod 64 = utf8.byte b2)%N) by (unfold r; lia).
    repeat split.
    - unfold utf8.EncodeRune, utf8.MaxRune.
      destruct (N.leb_spec r 127); [lia|].
      destruct (N.leb_spec r 2047); [lia|].
      destruct (N.ltb_spec 1114111 r); [lia|].
      destruct (N.leb_spec 55296 r), (N.leb_spec r 57343); cbn [orb andb]; try lia;
        destruct (N.leb_spec r 65535); try lia;
        rewrite E1, E2, E3; now rewrite !(chr_byte _ _ eq_refl).
    - lia.
    - intros t. cbn [append]. unfold utf8.DecodeRune.
      destruct (N.ltb_spec (utf8.byte b0) utf8.RuneSelf) as [Hlt|_];
        [unfold utf8.RuneSelf in Hlt; lia|].
      rewrite L. apply within_spec in W1, W2. now rewrite W1, W2. }
  destruct t2 as [|b3 t3]; [injection H as <- <-; discriminate NE|].
  assert (B3 := byte_bounded b3).
  destruct (utf8.within 128 191 b3) eqn:W3; cbn [negb] in H;
    [|injection H as <- <-; discriminate NE].
  apply within_spec in W3.
  assert (sz = 4%nat) as -> by (destruct S as [S|[S|S]]; lia).
  injection H as <- <-. exists (String b1 (String b2 (String b3 ""))).
  set (r := ((utf8.byte b0 mod 8) * 262144 + (utf8.byte b1 mod 64) * 4096
             + (utf8.byte b2 mod 64) * 64 + utf8.byte b3 mod 64)%N).
  assert (R : (65536 <= r <= 1114111)%N) by (unfold r; lia).
  assert (E1 : (240 + r / 262144 = utf8.byte b0)%N) by (unfold r; lia).
  assert (E2 : (128 + (r / 4096) mod 64 = utf8.byte b1)%N) by (unfold r; lia).
  assert (E3 : (128 + (r / 64) mod 64 = utf8.byte b2)%N) by (unfold r; lia).
  assert (E4 : (128 + r mod 64 = utf8.byte b3)%N) by (unfold r; lia).
  repeat split.
  - unfold utf8.EncodeRune, utf8.MaxRune.
    destruct (N.leb_spec r 127); [lia|].
    destruct (N.leb_spec r 2047); [lia|].
    destruct (N.ltb_spec 1114111 r); [lia|].
    destruct (N.leb_spec 55296 r), (N.leb_spec r 57343); cbn [orb andb]; try lia;
      destruct (N.leb_spec r 65535); try lia;
      rewrite E1, E2, E3, E4; now rewrite !(chr_byte _ _ eq_refl).
  - lia.
  - intros t. cbn [append]. unfold utf8.DecodeRune.
    destruct (N.ltb_spec (utf8.byte b0) utf8.RuneSelf) as [Hlt|_];
      [unfold utf8.RuneSelf in Hlt; lia|].
    rewrite L. apply within_spec in W1, W2, W3. now rewrite W1, W2, W3.
Qed.

(** *** The loop of the encoder *)

Lemma appendString_loop_nil f : json.appendString_loop f "" = "".
Proof. now destruct f. Qed.

(** The fuel of the encoder's loop is enough once it covers the bytes that
    are left. *)
Lemma appendString_loop_fuel f1 :
  forall f2 s, (String.length s <= f1)%nat -> (String.length s <= f2)%nat ->
               json.appendString_loop f1 s = json.appendString_loop f2 s.
Proof.
  induction f1 as [|f1 IH]; intros f2 [|b rest] H1 H2;
    try (now rewrite !appendString_loop_nil); cbn in H1, H2; [lia|].
  destruct f2 as [|f2]; [lia|]. cbn [json.appendString_loop].
  destruct (N.ltb (utf8.byte b) utf8.RuneSelf).
  - f_equal. apply IH; lia.
  - pose proof (DecodeRune_size b rest) as Hs.
    destruct (utf8.DecodeRune (String b rest)) as [c size]. cbn in Hs.
    assert (E : json.appendString_loop f1 (utf8.drop size (String b rest))
                = json.appendString_loop f2 (utf8.drop size (String b rest))).
    { apply IH; rewrite drop_length; cbn [String.length]; lia. }
    now rewrite E.
Qed.


Lemma body_ascii b rest :
  (utf8.byte b < 128)%N ->
  json.body (String b rest)
  = ((if json.htmlSafeSet (utf8.byte b) then String b "" else json.escape b)
     ++ json.body rest)%string.
Proof.
  intros H. unfold json.body. cbn [String.length json.appendString_loop].
  destruct (N.ltb_spec (utf8.byte b) utf8.RuneSelf) as [_|G];
    [reflexivity|unfold utf8.RuneSelf in G; lia].
Qed.

Lemma body_multibyte b rest c size :
  (128 <= utf8.byte b)%N ->
  utf8.DecodeRune (String b rest) = (c, size) ->
  json.body (String b rest)
  = ((if N.eqb c utf8.RuneError && Nat.eqb size 1
      then String json.backslash "ufffd"
      else if N.eqb c 8232 || N.eqb c 8233
      then String json.backslash "u202" ++ String (json.hex (c mod 16)) ""
      else utf8.take size (String b rest))
     ++ json.body (utf8.drop size (String b rest)))%string.
Proof.
  intros H D. unfold json.body. cbn [String.length json.appendString_loop].
  destruct (N.ltb_spec (utf8.byte b) utf8.RuneSelf) as [G|_];
    [unfold utf8.RuneSelf in G; lia|].
  rewrite D.
  pose proof (DecodeRune_size b rest) as Hs. rewrite D in Hs. cbn in Hs.
  rewrite (appendString_loop_fuel (String.length rest)
             (String.length (utf8.drop size (String b rest)))
             (utf8.drop size (String b rest)));
    [|rewrite drop_length; cbn [String.length]; lia|lia].
  destruct (N.eqb c utf8.RuneError && Nat.eqb size 1); [reflexivity|].
  destruct (N.eqb c 8232 || N.eqb c 8233); [|reflexivity].
  now rewrite !append_assoc.
Qed.

(** *** Well-formed strings *)

Lemma valid_from_nil f : utf8.valid_from f "" = true.
Proof. now destruct f. Qed.

Lemma valid_from_fuel f1 :
  forall f2 s, (String.length s <= f1)%nat -> (String.length s <= f2)%nat ->
               utf8.valid_from f1 s = utf8.valid_from f2 s.
Proof.
  induction f1 as [|f1 IH]; intros f2 [|b rest] H1 H2;
    try (now rewrite !valid_from_nil); cbn in H1, H2; [lia|].
  destruct f2 as [|f2]; [lia|]. cbn [utf8.valid_from].
  pose proof (DecodeRune_size b rest) as Hs.
  destruct (utf8.DecodeRune (String b rest)) as [c size]. cbn in Hs.
  destruct (N.eqb c utf8.RuneError && Nat.eqb size 1); [reflexivity|].
  apply IH; rewrite drop_length; cbn [String.length]; lia.
Qed.

Lemma ValidString_step b rest c size :
  utf8.ValidString (String b rest) = true ->
  utf8.DecodeRune (String b rest) = (c, size) ->
  (N.eqb c utf8.RuneError && Nat.eqb size 1) = false
  /\ utf8.ValidString (utf8.drop size (String b rest)) = true.
Proof.
  unfold utf8.ValidString. cbn [String.length utf8.valid_from].
  intros V D. rewrite D in V.
  pose proof (DecodeRune_size b rest) as Hs. rewrite D in Hs. cbn in Hs.
  destruct (N.eqb c utf8.RuneError && Nat.eqb size 1); [discriminate|].
  split; [reflexivity|]. rewrite <- V.
  apply valid_from_fuel; [lia|rewrite drop_length; cbn [String.length]; lia].
Qed.

Lemma DecodeRune_ascii b rest :
  (utf8.byte b < 128)%N -> utf8.DecodeRune (String b rest) = (utf8.byte b, 1%nat).
Proof.
  intros H. unfold utf8.DecodeRune.
  destruct (N.ltb_spec (utf8.byte b) utf8.RuneSelf) as [_|G];
    [reflexivity|unfold utf8.RuneSelf in G; lia].
Qed.

(** *** The loop of the decoder *)

Lemma prepend_mono x o o' r :
  (forall r0, o = Some r0 -> o' = Some r0) ->
  json.prepend x o = Some r -> json.prepend x o' = Some r.
Proof.
  intros H. destruct o as [[d rest]|]; cbn; [|discriminate].
  now rewrite (H _ eq_refl).
Qed.

Lemma unquote_loop_mono f :
  forall f' s r, (f <= f')%nat ->
                 json.unquote_loop f s = Some r ->
                 json.unquote_loop f' s = Some r.
Proof.
  induction f as [|f IH]; intros f' s r Hle; [discriminate|].
  destruct f' as [|f']; [lia|].
  assert (IH' : forall x s0, json.prepend x (json.unquote_loop f s0) = Some r ->
                            json.prepend x (json.unquote_loop f' s0) = Some r).
  { intros x s0. apply prepend_mono. intros r0 H0. apply (IH f'); [lia|exact H0]. }
  destruct s as [|c rest]; [discriminate|].
  cbn [json.unquote_loop].
  repeat match goal with
         | |- context [if ?x then _ else _] => destruct x
         | |- context [match ?x with _ => _ end] => destruct x
         end; auto.
Qed.

Lemma unquote_loop_more f f' s r :
  json.unquote_loop f s = Some r -> (f <= f')%nat ->
  json.unquote_loop f' s = Some r.
Proof. intros H L. exact (unquote_loop_mono f f' s r L H). Qed.

(** One step of the decoder undoes what the encoder wrote for an ASCII
    byte. *)
Lemma unquote_ascii b :
  (utf8.byte b < 128)%N ->
  forall f tail,
    json.unquote_loop (S f)
      ((if json.htmlSafeSet (utf8.byte b) then String b "" else json.escape b)
       ++ tail)
    = json.prepend (String b "") (json.unquote_loop f tail).
Proof.
  destruct b as [b0 b1 b2 b3 b4 b5 b6 b7].
  destruct b7; [intros H; destruct b0, b1, b2, b3, b4, b5, b6; discriminate H|].
  intros _ f tail.
  destruct b0, b1, b2, b3, b4, b5, b6; reflexivity.
Qed.

Lemma unquote_multibyte b q c size f :
  (128 <= utf8.byte b)%N ->
  utf8.DecodeRune (String b q) = (c, size) ->
  json.unquote_loop (S f) (String b q)
  = json.prepend (utf8.EncodeRune c)
                 (json.unquote_loop f (utf8.drop size (String b q))).
Proof.
  intros H D. cbn [json.unquote_loop].
  destruct (N.eqb_spec (utf8.byte b) 34); [lia|].
  destruct (N.eqb_spec (utf8.byte b) 92); [lia|].
  destruct (N.ltb_spec (utf8.byte b) 32); [lia|].
  destruct (N.ltb_spec (utf8.byte b) utf8.RuneSelf) as [G|_];
    [unfold utf8.RuneSelf in G; lia|].
  now rewrite D.
Qed.

Lemma unquote_line_separator c :
  c = 8232%N \/ c = 8233%N ->
  forall f tail,
    json.unquote_loop (S f)
      ((String json.backslash "u202" ++ String (json.hex (c mod 16)) "")
       ++ tail)
    = json.prepend (utf8.EncodeRune c) (json.unquote_loop f tail).
Proof. intros [-> | ->] f tail; reflexivity. Qed.

Lemma drop_append a t : utf8.drop (String.length a) (a ++ t) = t.
Proof. induction a as [|x a IH]; cbn; [reflexivity|exact IH]. Qed.

Lemma piece_length b :
  (1 <= String.length
          (if json.htmlSafeSet (utf8.byte b) then String b ""
           else json.escape b))%nat.
Proof.
  unfold json.escape.
  repeat match goal with
         | |- context [if ?x then _ else _] => destruct x
         end; cbn; lia.
Qed.

(** The decoder reads back a well-formed string from what the encoder
    wrote for it, up to the closing quote. *)
Lemma unquote_body n :
  forall s rest,
    (String.length s <= n)%nat ->
    utf8.ValidString s = true ->
    json.unquote_loop (S (String.length (json.body s)))
                      (json.body s ++ String json.dquote rest)
    = Some (s, rest).
Proof.
  induction n as [|n IH]; intros [|b t] rest Hn V; cbn in Hn;
    [reflexivity|lia|reflexivity|].
  destruct (N.ltb_spec (utf8.byte b) 128) as [A|A].
  - (* an ASCII byte *)
    destruct (ValidString_step b t _ _ V (DecodeRune_ascii b t A)) as [_ Vt].
    cbn [utf8.drop] in Vt.
    rewrite (body_ascii b t A), append_assoc, (unquote_ascii b A).
    rewrite (unquote_loop_more _ _ _ _ (IH t rest ltac:(lia) Vt));
      [reflexivity|].
    rewrite length_append. pose proof (piece_length b). lia.
  - (* a sequence of several bytes *)
    destruct (utf8.DecodeRune (String b t)) as [c size] eqn:D.
    destruct (ValidString_step b t c size V D) as [NE Vt].
    destruct (DecodeRune_multibyte b t c size A D NE)
      as (p & Tk & Ln & En & Hc & Dp).
    pose proof (take_drop size (String b t)) as TD. rewrite Tk in TD.
    assert (Hd : (String.length (utf8.drop size (String b t)) <= n)%nat).
    { rewrite drop_length. cbn [String.length]. cbn in Ln. lia. }
    specialize (IH _ rest Hd Vt).
    rewrite (body_multibyte b t c size A D), NE, append_assoc.
    set (tail := (json.body (utf8.drop size (String b t))
                  ++ String json.dquote rest)%string) in *.
    destruct (N.eqb c 8232 || N.eqb c 8233) eqn:LS.
    + (* U+2028 and U+2029 are written as escapes *)
      assert (LS' : c = 8232%N \/ c = 8233%N)
        by (apply orb_true_iff in LS as [E|E]; apply N.eqb_eq in E; auto).
      rewrite (unquote_line_separator c LS').
      rewrite (unquote_loop_more _ _ _ _ IH).
      * cbn [json.prepend]. now rewrite En, TD.
      * rewrite !length_append. cbn [String.length]. lia.
    + rewrite Tk.
      assert (Dr : utf8.drop size (String b (p ++ tail)) = tail).
      { rewrite <- Ln. exact (drop_append (String b p) tail). }
      change (String b p ++ tail)%string with (String b (p ++ tail)).
      rewrite (unquote_multibyte b (p ++ tail) c size _ A (Dp tail)), Dr.
      rewrite (unquote_loop_more _ _ _ _ IH).
      * cbn [json.prepend]. now rewrite En, TD.
      * rewrite length_append. cbn [String.length]. lia.
Qed.

(** *** Literals, members, objects and arrays *)

(** A string written by the encoder is read back as a literal. *)
Lemma literal_appendString v rest :
  utf8.ValidString v = true ->
  json.literal (json.appendString v ++ rest) = Some (v, rest).
Proof.
  intros V. unfold json.appendString. cbn [append].
  rewrite append_assoc. cbn [append].
  unfold json.literal.
  change (N.eqb (utf8.byte json.dquote) 34) with true. cbv iota.
  apply (unquote_loop_more _ _ _ _ (unquote_body _ v rest (le_n _) V)).
  rewrite length_append. cbn [String.length]. lia.
Qed.

Lemma value_appendString v rest :
  utf8.ValidString v = true ->
  json.value (json.appendString v ++ rest) = Some (Some v, rest).
Proof.
  intros V. unfold json.value.
  rewrite (literal_appendString v rest V).
  unfold json.appendString. reflexivity.
Qed.

Lemma plain_keys :
  plain_key "medication_name" /\ plain_key "dosage" /\ plain_key "frequency"
  /\ plain_key "duration" /\ plain_key "instructions".
Proof. repeat split; intros tail; reflexivity. Qed.

Lemma member_read k v f it tail :
  plain_key k ->
  utf8.ValidString v = true ->
  json.members (S f) it (json.member k v ++ tail)
  = match json.assign k (Some v) it with
    | None => None
    | Some it' =>
      match json.skip_ws tail with
      | String "," s4 => json.members f it' (json.skip_ws s4)
      | String "}" s4 => Some (it', s4)
      | _ => None
      end
    end.
Proof.
  intros K V. unfold json.member. rewrite !append_assoc.
  cbn [append json.members].
  rewrite K.
  change (json.skip_ws (String ":" (json.appendString v ++ tail)))
    with (String ":" (json.appendString v ++ tail)).
  cbv iota.
  change (json.skip_ws (json.appendString v ++ tail))
    with (json.appendString v ++ tail)%string.
  now rewrite (value_appendString v tail V).
Qed.

Lemma members_more f :
  forall f' it s r, json.members f it s = Some r -> (f <= f')%nat ->
                    json.members f' it s = Some r.
Proof.
  induction f as [|f IH]; intros f' it s r H L; [discriminate|].
  destruct f' as [|f']; [lia|]. cbn [json.members] in *.
  repeat match goal with
         | _ : context [match ?x with _ => _ end] |- _ =>
             destruct x; try discriminate
         end;
    first [assumption | apply (IH f'); [assumption|lia]].
Qed.

Lemma valid_item_fields it :
  valid_item it = true ->
  utf8.ValidString (PrescriptionItem.MedicationName it) = true
  /\ utf8.ValidString (PrescriptionItem.Dosage it) = true
  /\ utf8.ValidString (PrescriptionItem.Frequency it) = true
  /\ utf8.ValidString (PrescriptionItem.Duration it) = true
  /\ utf8.ValidString (PrescriptionItem.Instructions it) = true.
Proof.
  unfold valid_item. rewrite !andb_true_iff. tauto.
Qed.

Lemma skip_ws_member k v x :
  json.skip_ws (json.member k v ++ x) = (json.member k v ++ x)%string.
Proof. reflexivity. Qed.

Lemma member_then_comma k v f it it' k2 v2 x :
  plain_key k ->
  utf8.ValidString v = true ->
  json.assign k (Some v) it = Some it' ->
  json.members (S f) it (json.member k v ++ String "," (json.member k2 v2 ++ x))
  = json.members f it' (json.member k2 v2 ++ x).
Proof.
  intros K V A. rewrite (member_read k v f it _ K V), A.
  change (json.skip_ws (String "," (json.member k2 v2 ++ x)))
    with (String "," (json.member k2 v2 ++ x)).
  cbv iota. now rewrite skip_ws_member.
Qed.

Lemma member_then_close k v f it it' tail :
  plain_key k ->
  utf8.ValidString v = true ->
  json.assign k (Some v) it = Some it' ->
  json.members (S f) it (json.member k v ++ String "}" tail) = Some (it', tail).
Proof.
  intros K V A. now rewrite (member_read k v f it _ K V), A.
Qed.

Lemma object_of_members t it rest :
  json.members 5 PrescriptionItem.zero (String json.dquote t) = Some (it, rest) ->
  (5 <= String.length (String json.dquote t))%nat ->
  json.object (String "{" (String json.dquote t)) = Some (it, rest).
Proof.
  intros M L. unfold json.object.
  change (json.skip_ws (String json.dquote t)) with (String json.dquote t).
  change json.dquote with "034"%char in *. cbv iota.
  exact (members_more _ _ _ _ _ M L).
Qed.

(** An object written by the encoder is read back. *)
Lemma object_marshal_item it rest :
  valid_item it = true ->
  json.object (json.marshal_item it ++ rest) = Some (it, rest).
Proof.
  intros V. apply valid_item_fields in V as (V1 & V2 & V3 & V4 & V5).
  destruct plain_keys as (K1 & K2 & K3 & K4 & K5).
  destruct it as [m d f u i]. cbn [PrescriptionItem.MedicationName
    PrescriptionItem.Dosage PrescriptionItem.Frequency
    PrescriptionItem.Duration PrescriptionItem.Instructions] in *.
  unfold json.marshal_item.
  cbn [PrescriptionItem.MedicationName
    PrescriptionItem.Dosage PrescriptionItem.Frequency
    PrescriptionItem.Duration PrescriptionItem.Instructions].
  rewrite !append_assoc. cbn [append].
  set (s1 := (json.member "medication_name" m ++ _)%string).
  assert (M : json.members 5 PrescriptionItem.zero s1
              = Some (PrescriptionItem.mk m d f u i, rest)).
  { subst s1.
    erewrite member_then_comma; [|exact K1|exact V1|reflexivity].
    erewrite member_then_comma; [|exact K2|exact V2|reflexivity].
    erewrite member_then_comma; [|exact K3|exact V3|reflexivity].
    erewrite member_then_comma; [|exact K4|exact V4|reflexivity].
    erewrite member_then_close; [|exact K5|exact V5|reflexivity].
    reflexivity. }
  subst s1. unfold json.member at 1. cbn [append].
  apply object_of_members.
  - exact M.
  - cbn [String.length append]. lia.
Qed.

Lemma elements_more f :
  forall f' s r, json.elements f s = Some r -> (f <= f')%nat ->
                 json.elements f' s = Some r.
Proof.
  induction f as [|f IH]; intros f' s r H L; [discriminate|].
  destruct f' as [|f']; [lia|]. cbn [json.elements] in *.
  destruct (json.object s) as [[it s1]|]; [|discriminate].
  destruct (json.skip_ws s1) as [|c s2]; [discriminate|].
  destruct c as [[] [] [] [] [] [] [] []]; try discriminate; try assumption.
  destruct (json.elements f (json.skip_ws s2)) as [[items s3]|] eqn:E;
    [|discriminate].
  now rewrite (IH f' _ _ E ltac:(lia)).
Qed.

Lemma marshal_item_head it :
  exists t, json.marshal_item it = String "{" (String json.dquote t).
Proof. eexists. reflexivity. Qed.

Lemma marshal_elements_head it items x :
  exists t, (json.marshal_elements (it :: items) ++ x)%string = String "{" t.
Proof.
  destruct (marshal_item_head it) as [t E].
  destruct items; cbn [json.marshal_elements]; rewrite E; eexists; reflexivity.
Qed.

Lemma elements_step f s :
  json.elements (S f) s
  = match json.object s with
    | None => None
    | Some (it, s1) =>
      match json.skip_ws s1 with
      | String "," s2 =>
        match json.elements f (json.skip_ws s2) with
        | Some (items, s3) => Some (it :: items, s3)
        | None => None
        end
      | String "]" s2 => Some ([it], s2)
      | _ => None
      end
    end.
Proof. reflexivity. Qed.

(** The elements of an array written by the encoder are read back. *)
Lemma elements_marshal items :
  forall it rest,
    valid_items (it :: items) = true ->
    json.elements (S (List.length items))
                  (json.marshal_elements (it :: items) ++ String "]" rest)
    = Some (it :: items, rest).
Proof.
  induction items as [|it2 items IH]; intros it rest V;
    cbn [valid_items forallb] in V; apply andb_true_iff in V as [V1 V2].
  - cbn [json.marshal_elements List.length]. rewrite elements_step.
    now rewrite (object_marshal_item it _ V1).
  - change (json.marshal_elements (it :: it2 :: items))
      with (json.marshal_item it ++ "," ++ json.marshal_elements (it2 :: items))%string.
    rewrite !append_assoc. cbn [append List.length]. rewrite elements_step.
    rewrite (object_marshal_item it _ V1).
    change (json.skip_ws (String "," ?x)) with (String "," x). cbv iota.
    destruct (marshal_elements_head it2 items (String "]" rest)) as [t E].
    rewrite E.
    change (json.skip_ws (String "{" t)) with (String "{" t).
    rewrite <- E. now rewrite (IH it2 rest V2).
Qed.

Lemma length_marshal_elements items :
  (List.length items <= String.length (json.marshal_elements items))%nat.
Proof.
  induction items as [|it items IH]; [cbn; lia|].
  destruct (marshal_item_head it) as [t E].
  destruct items as [|it2 items]; cbn [json.marshal_elements List.length] in *.
  - rewrite E. cbn [String.length]. lia.
  - rewrite !length_append, E. cbn [String.length] in *. lia.
Qed.

(** The round trip of the codec: what [Marshal] writes for well-formed
    strings, [Unmarshal] reads back. *)
Lemma Unmarshal_Marshal items :
  valid_items items = true ->
  json.Unmarshal (json.Marshal items) = Ok items.
Proof.
  intros V. destruct items as [|it items]; [reflexivity|].
  unfold json.Marshal, json.Unmarshal. cbn [append].
  change (json.skip_ws (String "[" ?x)) with (String "[" x). cbv iota.
  unfold json.array.
  destruct (marshal_elements_head it items "]") as [t E].
  rewrite E. change (json.skip_ws (String "{" t)) with (String "{" t).
  cbv iota. rewrite <- E.
  rewrite (elements_more _ _ _ _ (elements_marshal items it "" V)).
  - reflexivity.
  - rewrite length_append.
    pose proof (length_marshal_elements (it :: items)) as L.
    cbn [List.length String.length] in *. lia.
Qed.

(** *** Strings that are not UTF-8 *)

Lemma coerce_loop_nil f : coerce_loop f "" = "".
Proof. now destruct f. Qed.

Lemma coerce_loop_fuel f1 :
  forall f2 s, (String.length s <= f1)%nat -> (String.length s <= f2)%nat ->
               coerce_loop f1 s = coerce_loop f2 s.
Proof.
  induction f1 as [|f1 IH]; intros f2 [|b rest] H1 H2;
    try (now rewrite !coerce_loop_nil); cbn in H1, H2; [lia|].
  destruct f2 as [|f2]; [lia|]. cbn [coerce_loop].
  pose proof (DecodeRune_size b rest) as Hs.
  destruct (utf8.DecodeRune (String b rest)) as [c size]. cbn in Hs.
  f_equal. apply IH; rewrite drop_length; cbn [String.length]; lia.
Qed.

Lemma coerce_step b rest c size :
  utf8.DecodeRune (String b rest) = (c, size) ->
  coerce (String b rest)
  = ((if N.eqb c utf8.RuneError && Nat.eqb size 1
      then utf8.EncodeRune utf8.RuneError
      else utf8.take size (String b rest))
     ++ coerce (utf8.drop size (String b rest)))%string.
Proof.
  intros D. unfold coerce. cbn [String.length coerce_loop]. rewrite D.
  pose proof (DecodeRune_size b rest) as Hs. rewrite D in Hs. cbn in Hs.
  f_equal. apply coerce_loop_fuel;
    [rewrite drop_length; cbn [String.length]; lia|lia].
Qed.

(** A well-formed string goes through the codec unchanged. *)
Lemma coerce_valid n :
  forall s, (String.length s <= n)%nat -> utf8.ValidString s = true ->
            coerce s = s.
Proof.
  induction n as [|n IH]; intros [|b t] Hn V; cbn in Hn;
    [reflexivity|lia|reflexivity|].
  destruct (utf8.DecodeRune (String b t)) as [c size] eqn:D.
  destruct (ValidString_step b t c size V D) as [NE Vt].
  pose proof (DecodeRune_size b t) as Hs. rewrite D in Hs. cbn in Hs.
  rewrite (coerce_step b t c size D), NE.
  rewrite IH; [apply take_drop| |exact Vt].
  rewrite drop_length. cbn [String.length]. lia.
Qed.

Lemma unquote_replacement f tail :
  json.unquote_loop (S f) (String json.backslash "ufffd" ++ tail)
  = json.prepend (utf8.EncodeRune utf8.RuneError) (json.unquote_loop f tail).
Proof. reflexivity. Qed.

(** The decoder reads back, from what the encoder wrote for a string, the
    string as the codec coerces it. *)
Lemma unquote_body_any n :
  forall s rest,
    (String.length s <= n)%nat ->
    json.unquote_loop (S (String.length (json.body s)))
                      (json.body s ++ String json.dquote rest)
    = Some (coerce s, rest).
Proof.
  induction n as [|n IH]; intros [|b t] rest Hn; cbn in Hn;
    [reflexivity|lia|reflexivity|].
  destruct (N.ltb_spec (utf8.byte b) 128) as [A|A].
  - (* an ASCII byte *)
    rewrite (coerce_step b t _ _ (DecodeRune_ascii b t A)).
    assert (NE : N.eqb (utf8.byte b) utf8.RuneError && Nat.eqb 1 1 = false).
    { apply andb_false_iff. left. apply N.eqb_neq.
      unfold utf8.RuneError. lia. }
    rewrite NE. cbn [utf8.take utf8.drop append].
    rewrite (body_ascii b t A), append_assoc, (unquote_ascii b A).
    rewrite (unquote_loop_more _ _ _ _ (IH t rest ltac:(lia)));
      [reflexivity|].
    rewrite length_append. pose proof (piece_length b). lia.
  - (* a sequence of several bytes, or a byte that starts none *)
    destruct (utf8.DecodeRune (String b t)) as [c size] eqn:D.
    pose proof (DecodeRune_size b t) as Hs. rewrite D in Hs. cbn in Hs.
    assert (Hd : (String.length (utf8.drop size (String b t)) <= n)%nat).
    { rewrite drop_length. cbn [String.length]. lia. }
    specialize (IH _ rest Hd).
    rewrite (coerce_step b t c size D).
    rewrite (body_multibyte b t c size A D), append_assoc.
    set (tail := (json.body (utf8.drop size (String b t))
                  ++ String json.dquote rest)%string) in *.
    destruct (N.eqb c utf8.RuneError && Nat.eqb size 1) eqn:NE.
    + (* the byte is replaced *)
      rewrite unquote_replacement.
      rewrite (unquote_loop_more _ _ _ _ IH); [reflexivity|].
      rewrite !length_append. cbn [String.length]. lia.
    + destruct (DecodeRune_multibyte b t c size A D NE)
        as (p & Tk & Ln & En & Hc & Dp).
      pose proof (take_drop size (String b t)) as TD. rewrite Tk in TD.
      destruct (N.eqb c 8232 || N.eqb c 8233) eqn:LS.
      * assert (LS' : c = 8232%N \/ c = 8233%N)
          by (apply orb_true_iff in LS as [E|E]; apply N.eqb_eq in E; auto).
        rewrite (unquote_line_separator c LS').
        rewrite (unquote_loop_more _ _ _ _ IH).
        -- cbn [json.prepend]. now rewrite En, Tk.
        -- rewrite !length_append. cbn [String.length]. lia.
      * rewrite Tk.
        assert (Dr : utf8.drop size (String b (p ++ tail)) = tail).
        { rewrite <- Ln. exact (drop_append (String b p) tail). }
        change (String b p ++ tail)%string with (String b (p ++ tail)).
        rewrite (unquote_multibyte b (p ++ tail) c size _ A (Dp tail)), Dr.
        rewrite (unquote_loop_more _ _ _ _ IH).
        -- cbn [json.prepend]. now rewrite En.
        -- rewrite length_append. cbn [String.length]. lia.
Qed.

Lemma literal_appendString_any v rest :
  json.literal (json.appendString v ++ rest) = Some (coerce v, rest).
Proof.
  unfold json.appendString. cbn [append].
  rewrite append_assoc. cbn [append].
  unfold json.literal.
  change (N.eqb (utf8.byte json.dquote) 34) with true. cbv iota.
  apply (unquote_loop_more _ _ _ _ (unquote_body_any _ v rest (le_n _))).
  rewrite length_append. cbn [String.length]. lia.
Qed.

Lemma value_appendString_any v rest :
  json.value (json.appendString v ++ rest) = Some (Some (coerce v), rest).
Proof.
  unfold json.value. rewrite (literal_appendString_any v rest).
  unfold json.appendString. reflexivity.
Qed.

Lemma member_read_any k v f it tail :
  plain_key k ->
  json.members (S f) it (json.member k v ++ tail)
  = match json.assign k (Some (coerce v)) it with
    | None => None
    | Some it' =>
      match json.skip_ws tail with
      | String "," s4 => json.members f it' (json.skip_ws s4)
      | String "}" s4 => Some (it', s4)
      | _ => None
      end
    end.
Proof.
  intros K. unfold json.member. rewrite !append_assoc.
  cbn [append json.members].
  rewrite K.
  change (json.skip_ws (String ":" (json.appendString v ++ tail)))
    with (String ":" (json.appendString v ++ tail)).
  cbv iota.
  change (json.skip_ws (json.appendString v ++ tail))
    with (json.appendString v ++ tail)%string.
  now rewrite (value_appendString_any v tail).
Qed.

Lemma member_then_comma_any k v f it it' k2 v2 x :
  plain_key k ->
  json.assign k (Some (coerce v)) it = Some it' ->
  json.members (S f) it (json.member k v ++ String "," (json.member k2 v2 ++ x))
  = json.members f it' (json.member k2 v2 ++ x).
Proof.
  intros K A. rewrite (member_read_any k v f it _ K), A.
  change (json.skip_ws (String "," (json.member k2 v2 ++ x)))
    with (String "," (json.member k2 v2 ++ x)).
  cbv iota. now rewrite skip_ws_member.
Qed.

Lemma member_then_close_any k v f it it' tail :
  plain_key k ->
  json.assign k (Some (coerce v)) it = Some it' ->
  json.members (S f) it (json.member k v ++ String "}" tail) = Some (it', tail).
Proof.
  intros K A. now rewrite (member_read_any k v f it _ K), A.
Qed.

Lemma object_marshal_item_any it rest :
  json.object (json.marshal_item it ++ rest) = Some (coerce_item it, rest).
Proof.
  destruct plain_keys as (K1 & K2 & K3 & K4 & K5).
  destruct it as [m d f u i]. unfold json.marshal_item, coerce_item.
  cbn [PrescriptionItem.MedicationName
    PrescriptionItem.Dosage PrescriptionItem.Frequency
    PrescriptionItem.Duration PrescriptionItem.Instructions].
  rewrite !append_assoc. cbn [append].
  set (s1 := (json.member "medication_name" m ++ _)%string).
  assert (M : json.members 5 PrescriptionItem.zero s1
              = Some (PrescriptionItem.mk (coerce m) (coerce d) (coerce f)
                        (coerce u) (coerce i), rest)).
  { subst s1.
    erewrite member_then_comma_any; [|exact K1|reflexivity].
    erewrite member_then_comma_any; [|exact K2|reflexivity].
    erewrite member_then_comma_any; [|exact K3|reflexivity].
    erewrite member_then_comma_any; [|exact K4|reflexivity].
    erewrite member_then_close_any; [|exact K5|reflexivity].
    reflexivity. }
  subst s1. unfold json.member at 1. cbn [append].
  apply object_of_members.
  - exact M.
  - cbn [String.length append]. lia.
Qed.

Lemma elements_marshal_any items :
  forall it rest,
    json.elements (S (List.length items))
                  (json.marshal_elements (it :: items) ++ String "]" rest)
    = Some (map coerce_item (it :: items), rest).
Proof.
  induction items as [|it2 items IH]; intros it rest.
  - cbn [json.marshal_elements List.length]. rewrite elements_step.
    now rewrite (object_marshal_item_any it _).
  - change (json.marshal_elements (it :: it2 :: items))
      with (json.marshal_item it ++ "," ++ json.marshal_elements (it2 :: items))%string.
    rewrite !append_assoc. cbn [append List.length]. rewrite elements_step.
    rewrite (object_marshal_item_any it _).
    change (json.skip_ws (String "," ?x)) with (String "," x). cbv iota.
    destruct (marshal_elements_head it2 items (String "]" rest)) as [t E].
    rewrite E.
    change (json.skip_ws (String "{" t)) with (String "{" t).
    rewrite <- E. now rewrite (IH it2 rest).
Qed.

(** Whatever the strings, what [Marshal] writes is read back by
    [Unmarshal], each string coerced. *)
Lemma Unmarshal_Marshal_any items :
  json.Unmarshal (json.Marshal items) = Ok (map coerce_item items).
Proof.
  destruct items as [|it items]; [reflexivity|].
  unfold json.Marshal, json.Unmarshal. cbn [append].
  change (json.skip_ws (String "[" ?x)) with (String "[" x). cbv iota.
  unfold json.array.
  destruct (marshal_elements_head it items "]") as [t E].
  rewrite E. change (json.skip_ws (String "{" t)) with (String "{" t).
  cbv iota. rewrite <- E.
  rewrite (elements_more _ _ _ _ (elements_marshal_any items it "")).
  - reflexivity.
  - rewrite length_append.
    pose proof (length_marshal_elements (it :: items)) as L.
    cbn [List.length String.length] in *. lia.
Qed.

Lemma coerce_item_valid it : valid_item it = true -> coerce_item it = it.
Proof.
  intros V. apply valid_item_fields in V as (V1 & V2 & V3 & V4 & V5).
  destruct it as [m d f u i]. unfold coerce_item.
  cbn [PrescriptionItem.MedicationName
    PrescriptionItem.Dosage PrescriptionItem.Frequency
    PrescriptionItem.Duration PrescriptionItem.Instructions] in *.
  now rewrite (coerce_valid _ m (le_n _) V1), (coerce_valid _ d (le_n _) V2),
    (coerce_valid _ f (le_n _) V3), (coerce_valid _ u (le_n _) V4),
    (coerce_valid _ i (le_n _) V5).
Qed.

(** *** What the decoder yields is well-formed *)

Lemma byte_chr n : (n < 256)%N -> utf8.byte (utf8.chr n) = n.
Proof. intros H. now apply N_ascii_embedding. Qed.

(** A chunk at the head of a string that decodes as one rune, of the
    length of the chunk, counts for nothing in the validity of the
    string. *)
Lemma valid_chunk c t r n :
  utf8.DecodeRune (c ++ t) = (r, n) ->
  n = String.length c -> (1 <= n)%nat ->
  (N.eqb r utf8.RuneError && Nat.eqb n 1) = false ->
  utf8.ValidString (c ++ t) = utf8.ValidString t.
Proof.
  intros D -> L NE. destruct c as [|b c]; [cbn in L; lia|].
  unfold utf8.ValidString at 1.
  cbn [append String.length utf8.valid_from]. cbn [append] in D.
  rewrite D. cbv beta iota. rewrite NE.
  change (String b (c ++ t)) with (String b c ++ t)%string.
  rewrite drop_append. unfold utf8.ValidString.
  apply valid_from_fuel; [rewrite length_append; lia|lia].
Qed.

Lemma valid_ascii b t :
  (utf8.byte b < 128)%N ->
  utf8.ValidString (String b t) = utf8.ValidString t.
Proof.
  intros H.
  apply (valid_chunk (String b "") t (utf8.byte b) 1);
    [now apply DecodeRune_ascii|reflexivity|lia|].
  apply andb_false_iff. left. apply N.eqb_neq. unfold utf8.RuneError. lia.
Qed.

(** Table [first], read forward. *)
Ltac lead_tac :=
  unfold utf8.lead;
  repeat match goal with
         | |- context [if ?x then _ else _] => destruct x eqn:?
         end;
  try reflexivity; exfalso;
  repeat match goal with
         | H : _ && _ = true |- _ => apply andb_true_iff in H as [? ?]
         | H : _ && _ = false |- _ => apply andb_false_iff in H as [?|?]
         | H : N.leb _ _ = true |- _ => apply N.leb_le in H
         | H : N.leb _ _ = false |- _ => apply N.leb_gt in H
         | H : N.eqb _ _ = true |- _ => apply N.eqb_eq in H
         | H : N.eqb _ _ = false |- _ => apply N.eqb_neq in H
         end; lia.

Lemma lead_two n :
  (194 <= n <= 223)%N -> utf8.lead n = Some (2%nat, 128%N, 191%N).
Proof. intros H. lead_tac. Qed.

Lemma lead_three n :
  (224 <= n <= 239)%N ->
  utf8.lead n
  = Some (3%nat, if N.eqb n 224 then 160%N else 128%N,
          if N.eqb n 237 then 159%N else 191%N).
Proof.
  intros H.
  destruct (N.eqb_spec n 224) as [->|]; [reflexivity|].
  destruct (N.eqb_spec n 237) as [->|]; [reflexivity|]. lead_tac.
Qed.

Lemma lead_four n :
  (240 <= n <= 244)%N ->
  utf8.lead n
  = Some (4%nat, if N.eqb n 240 then 144%N else 128%N,
          if N.eqb n 244 then 143%N else 191%N).
Proof.
  intros H.
  destruct (N.eqb_spec n 240) as [->|]; [reflexivity|].
  destruct (N.eqb_spec n 244) as [->|]; [reflexivity|]. lead_tac.
Qed.

Lemma within_chr lo hi n :
  (n < 256)%N -> (lo <= n <= hi)%N -> utf8.within lo hi (utf8.chr n) = true.
Proof. intros B H. apply within_spec. now rewrite byte_chr. Qed.

(** The bytes that [EncodeRune] writes decode as one rune. *)
Lemma EncodeRune_decodes r t :
  exists c n,
    utf8.DecodeRune (utf8.EncodeRune r ++ t) = (c, n)
    /\ n = String.length (utf8.EncodeRune r)
    /\ (N.eqb c utf8.RuneError && Nat.eqb n 1) = false.
Proof.
  unfold utf8.EncodeRune.
  destruct (N.leb_spec r 127) as [A|A].
  { exists r, 1%nat. cbn [append String.length].
    rewrite DecodeRune_ascii by (rewrite byte_chr; lia).
    rewrite byte_chr by lia. repeat split.
    apply andb_false_iff. left. apply N.eqb_neq. unfold utf8.RuneError. lia. }
  destruct (N.leb_spec r 2047) as [B|B].
  { eexists _, 2%nat. cbn [append String.length].
    split; [|split; [reflexivity|apply andb_false_r]].
    unfold utf8.DecodeRune. rewrite !byte_chr by lia.
    destruct (N.ltb_spec (192 + r / 64) utf8.RuneSelf) as [G|_];
      [unfold utf8.RuneSelf in G; lia|].
    rewrite lead_two by lia.
    rewrite within_chr by lia. cbn [negb Nat.eqb]. reflexivity. }
  destruct (N.ltb utf8.MaxRune r || N.leb 55296 r && N.leb r 57343) eqn:C.
  { exists utf8.RuneError, 3%nat. repeat split. }
  apply orb_false_iff in C as [C1 C2]. apply N.ltb_ge in C1.
  unfold utf8.MaxRune in C1.
  assert (C3 : (r < 55296 \/ 57343 < r)%N).
  { apply andb_false_iff in C2 as [C2|C2]; apply N.leb_gt in C2; lia. }
  destruct (N.leb_spec r 65535) as [E|E].
  { eexists _, 3%nat. cbn [append String.length].
    split; [|split; [reflexivity|apply andb_false_r]].
    unfold utf8.DecodeRune. rewrite !byte_chr by lia.
    destruct (N.ltb_spec (224 + r / 4096) utf8.RuneSelf) as [G|_];
      [unfold utf8.RuneSelf in G; lia|].
    rewrite lead_three by lia.
    rewrite within_chr;
      [|lia|destruct (N.eqb_spec (224 + r / 4096) 224);
            destruct (N.eqb_spec (224 + r / 4096) 237); lia].
    rewrite within_chr by lia. cbn [negb Nat.eqb]. reflexivity. }
  eexists _, 4%nat. cbn [append String.length].
  split; [|split; [reflexivity|apply andb_false_r]].
  unfold utf8.DecodeRune. rewrite !byte_chr by lia.
  destruct (N.ltb_spec (240 + r / 262144) utf8.RuneSelf) as [G|_];
    [unfold utf8.RuneSelf in G; lia|].
  rewrite lead_four by lia.
  rewrite within_chr;
    [|lia|destruct (N.eqb_spec (240 + r / 262144) 240);
          destruct (N.eqb_spec (240 + r / 262144) 244); lia].
  rewrite !within_chr by lia. cbn [negb Nat.eqb]. reflexivity.
Qed.

Lemma EncodeRune_length r : (1 <= String.length (utf8.EncodeRune r))%nat.
Proof.
  unfold utf8.EncodeRune.
  repeat match goal with
         | |- context [if ?x then _ else _] => destruct x
         end; cbn; lia.
Qed.

Lemma valid_rune r t :
  utf8.ValidString (utf8.EncodeRune r ++ t) = utf8.ValidString t.
Proof.
  destruct (EncodeRune_decodes r t) as (c & n & D & L & NE).
  apply (valid_chunk _ t c n D L); [|exact NE].
  rewrite L. apply EncodeRune_length.
Qed.

Lemma prepend_inv x r v rest :
  json.prepend x r = Some (v, rest) ->
  exists v0, r = Some (v0, rest) /\ v = (x ++ v0)%string.
Proof.
  destruct r as [[v0 rest0]|]; cbn; [|discriminate].
  intros [= <- <-]. now exists v0.
Qed.

(** Whatever the literal, what [unquote] makes of it is well-formed
    UTF-8. *)
Lemma unquote_loop_valid f :
  forall s v rest,
    json.unquote_loop f s = Some (v, rest) -> utf8.ValidString v = true.
Proof.
  induction f as [|f IH]; intros s v rest; [now destruct s|].
  destruct s as [|c s']; [discriminate|].
  cbn [json.unquote_loop].
  assert (R : forall x r,
             (forall t, utf8.ValidString (x ++ t) = utf8.ValidString t) ->
             json.prepend x (json.unquote_loop f r) = Some (v, rest) ->
             utf8.ValidString v = true).
  { intros x r X H. apply prepend_inv in H as (v0 & H & ->).
    rewrite X. exact (IH _ _ _ H). }
  assert (A : forall b r,
             (utf8.byte b < 128)%N ->
             json.prepend (String b "") (json.unquote_loop f r)
             = Some (v, rest) ->
             utf8.ValidString v = true).
  { intros b r B. apply R. intros t. now apply valid_ascii. }
  assert (U : forall rr r,
             json.prepend (utf8.EncodeRune rr) (json.unquote_loop f r)
             = Some (v, rest) ->
             utf8.ValidString v = true).
  { intros rr r. apply R. intros t. apply valid_rune. }
  destruct (N.eqb (utf8.byte c) 34); [now intros [= <- <-]|].
  destruct (N.eqb (utf8.byte c) 92).
  { destruct s' as [|e rest']; [discriminate|]. cbv zeta.
    destruct (N.eqb (utf8.byte e) 34 || N.eqb (utf8.byte e) 92
              || N.eqb (utf8.byte e) 47) eqn:Q.
    { apply A.
      repeat (apply orb_true_iff in Q as [Q|Q]); apply N.eqb_eq in Q; lia. }
    destruct (N.eqb (utf8.byte e) 98); [apply A; now vm_compute|].
    destruct (N.eqb (utf8.byte e) 102); [apply A; now vm_compute|].
    destruct (N.eqb (utf8.byte e) 110); [apply A; now vm_compute|].
    destruct (N.eqb (utf8.byte e) 114); [apply A; now vm_compute|].
    destruct (N.eqb (utf8.byte e) 116); [apply A; now vm_compute|].
    destruct (N.eqb (utf8.byte e) 117); [|discriminate].
    destruct (json.getu4 _) as [rr|]; [|discriminate].
    destruct (json.IsSurrogate rr); [|apply U].
    destruct (negb _); apply U. }
  destruct (N.ltb (utf8.byte c) 32); [discriminate|].
  destruct (N.ltb_spec (utf8.byte c) utf8.RuneSelf) as [G|_].
  { apply A. exact G. }
  destruct (utf8.DecodeRune (String c s')) as [rr size]. apply U.
Qed.

Lemma literal_valid s v rest :
  json.literal s = Some (v, rest) -> utf8.ValidString v = true.
Proof.
  unfold json.literal. destruct s as [|c s']; [discriminate|].
  destruct (N.eqb _ _); [apply unquote_loop_valid|discriminate].
Qed.

Lemma value_valid s v rest :
  json.value s = Some (Some v, rest) -> utf8.ValidString v = true.
Proof.
  unfold json.value. intros H.
  assert (L : match json.literal s with
              | Some (v0, rest0) => Some (Some v0, rest0)
              | None => None
              end = Some (Some v, rest)).
  { repeat match type of H with
           | match ?x with _ => _ end = _ =>
               destruct x; try exact H; try discriminate H
           end. }
  destruct (json.literal s) as [[v0 rest0]|] eqn:E; [|discriminate].
  injection L as -> ->. exact (literal_valid _ _ _ E).
Qed.

Lemma assign_valid key v it it' :
  valid_item it = true ->
  (forall x, v = Some x -> utf8.ValidString x = true) ->
  json.assign key v it = Some it' -> valid_item it' = true.
Proof.
  intros V X. apply valid_item_fields in V as (V1 & V2 & V3 & V4 & V5).
  destruct it as [m d f u i].
  cbn [PrescriptionItem.MedicationName PrescriptionItem.Dosage
       PrescriptionItem.Frequency PrescriptionItem.Duration
       PrescriptionItem.Instructions] in V1, V2, V3, V4, V5.
  unfold json.assign.
  destruct v as [x|].
  - specialize (X x eq_refl).
    repeat match goal with
           | |- context [if ?c then _ else _] => destruct c
           end; intros [= <-]; try discriminate; unfold valid_item;
      cbn [PrescriptionItem.MedicationName PrescriptionItem.Dosage
           PrescriptionItem.Frequency PrescriptionItem.Duration
           PrescriptionItem.Instructions];
      now rewrite ?V1, ?V2, ?V3, ?V4, ?V5, ?X.
  - repeat match goal with
           | |- context [if ?c then _ else _] => destruct c
           end; intros [= <-]; try discriminate; unfold valid_item;
      cbn [PrescriptionItem.MedicationName PrescriptionItem.Dosage
           PrescriptionItem.Frequency PrescriptionItem.Duration
           PrescriptionItem.Instructions];
      now rewrite ?V1, ?V2, ?V3, ?V4, ?V5.
Qed.

Lemma members_valid f :
  forall it s it' rest,
    valid_item it = true ->
    json.members f it s = Some (it', rest) -> valid_item it' = true.
Proof.
  induction f as [|f IH]; intros it s it' rest V; [discriminate|].
  cbn [json.members].
  destruct (json.literal s) as [[key s1]|]; [|discriminate].
  destruct (json.skip_ws s1) as [|c s2]; [discriminate|].
  destruct (Ascii.eqb_spec c ":") as [->|N].
  2:{ intros H. exfalso. revert H.
      destruct c as [[] [] [] [] [] [] [] []]; try discriminate.
      now contradiction N. }
  destruct (json.value (json.skip_ws s2)) as [[v s3]|] eqn:E; [|discriminate].
  destruct (json.assign key v it) as [it1|] eqn:A; [|discriminate].
  assert (V1 : valid_item it1 = true).
  { apply (assign_valid key v it it1 V); [|exact A].
    intros x ->. exact (value_valid _ _ _ E). }
  destruct (json.skip_ws s3) as [|c s4]; [discriminate|].
  destruct c as [[] [] [] [] [] [] [] []]; try discriminate.
  - intros [= <- <-]. exact V1.
  - apply IH. exact V1.
Qed.

Lemma valid_zero : valid_item PrescriptionItem.zero = true.
Proof. reflexivity. Qed.

Lemma object_valid s it rest :
  json.object s = Some (it, rest) -> valid_item it = true.
Proof.
  unfold json.object. destruct s as [|c s1]; [discriminate|].
  destruct c as [[] [] [] [] [] [] [] []]; try discriminate.
  destruct (json.skip_ws s1) as [|c s2] eqn:W.
  - apply members_valid, valid_zero.
  - destruct c as [[] [] [] [] [] [] [] []];
      try (apply members_valid, valid_zero).
    intros [= <- <-]. apply valid_zero.
Qed.

Lemma elements_valid f :
  forall s items rest,
    json.elements f s = Some (items, rest) -> valid_items items = true.
Proof.
  induction f as [|f IH]; intros s items rest; [discriminate|].
  cbn [json.elements].
  destruct (json.object s) as [[it s1]|] eqn:O; [|discriminate].
  apply object_valid in O.
  destruct (json.skip_ws s1) as [|c s2]; [discriminate|].
  destruct c as [[] [] [] [] [] [] [] []]; try discriminate.
  - intros [= <- <-]. cbn. now rewrite O.
  - destruct (json.elements f (json.skip_ws s2)) as [[l s3]|] eqn:E;
      [|discriminate].
    intros [= <- <-]. cbn. rewrite O. exact (IH _ _ _ E).
Qed.

Lemma array_valid s items rest :
  json.array s = Some (items, rest) -> valid_items items = true.
Proof.
  unfold json.array. destruct s as [|c s1]; [discriminate|].
  destruct c as [[] [] [] [] [] [] [] []]; try discriminate.
  destruct (json.skip_ws s1) as [|c s2] eqn:W.
  - apply elements_valid.
  - destruct c as [[] [] [] [] [] [] [] []]; try (apply elements_valid).
    now intros [= <- <-].
Qed.

(** The items that a JSON document is decoded to hold well-formed
    strings only, whatever the bytes of the document: this is what a
    handler that binds its request with [ShouldBindJSON] hands to the
    service. *)
Lemma decoded_items_are_valid data items :
  json.Unmarshal data = Ok items -> valid_items items = true.
Proof.
  unfold json.Unmarshal.
  assert (A : match json.array (json.skip_ws data) with
              | Some (items0, rest) =>
                  match json.skip_ws rest with
                  | EmptyString => Ok items0
                  | _ => Err "invalid character after top-level value"
                  end
              | None =>
                  Err "json: cannot unmarshal into []services.PrescriptionItem"
              end = Ok items -> valid_items items = true).
  { destruct (json.array _) as [[l rest]|] eqn:E; [|discriminate].
    destruct (json.skip_ws rest); [|discriminate].
    intros [= <-]. exact (array_valid _ _ _ E). }
  destruct (json.skip_ws data) as [|c1 s1]; [exact A|].
  destruct (Ascii.eqb_spec c1 "n") as [->|]; [|now destruct c1 as [[] [] [] [] [] [] [] []]].
  destruct s1 as [|c2 s2]; [exact A|].
  destruct (Ascii.eqb_spec c2 "u") as [->|]; [|now destruct c2 as [[] [] [] [] [] [] [] []]].
  destruct s2 as [|c3 s3]; [exact A|].
  destruct (Ascii.eqb_spec c3 "l") as [->|]; [|now destruct c3 as [[] [] [] [] [] [] [] []]].
  destruct s3 as [|c4 s4]; [exact A|].
  destruct (Ascii.eqb_spec c4 "l") as [->|]; [|now destruct c4 as [[] [] [] [] [] [] [] []]].
  destruct (json.skip_ws s4); [|discriminate]. now intros [= <-].
Qed.
(** *** Updating a prescription *)

Lemma find_save_prescription (p : Prescription.t) rows r :
  prescriptionRepository.live p = true ->
  find (fun r => prescriptionRepository.live r
                 && N.eqb (Prescription.ID r) (Prescription.ID p)) rows
  = Some r ->
  find (fun r => prescriptionRepository.live r
                 && N.eqb (Prescription.ID r) (Prescription.ID p))
       (map (prescriptionRepository.save_row p) rows)
  = Some p
  /\ existsb (fun r => prescriptionRepository.live r
                       && N.eqb (Prescription.ID r) (Prescription.ID p)) rows
     = true.
Proof.
  intros Lp. induction rows as [|x rows IH]; cbn [map find existsb];
    [discriminate|].
  assert (S : prescriptionRepository.save_row p x
              = if prescriptionRepository.live x
                   && N.eqb (Prescription.ID x) (Prescription.ID p)
                then p else x) by reflexivity.
  rewrite S.
  destruct (prescriptionRepository.live x
            && N.eqb (Prescription.ID x) (Prescription.ID p)) eqn:E.
  - intros _. now rewrite Lp, N.eqb_refl.
  - rewrite E. exact IH.
Qed.

(** What a successful [UpdatePrescription] has done: it found a live
    prescription under the key of the request, overwrote its items and
    notes, saved it, and returns the row as it is stored. *)
Lemma UpdatePrescription_inv req st p' st' :
  PrescriptionService.UpdatePrescription req st = (Ok p', st') ->
  exists p,
    fst (prescriptionRepository.FindByID
           (UpdatePrescriptionRequest.PrescriptionID req) st) = Ok p
    /\ p' = Prescription.with_Notes
              (Prescription.with_ItemsJSON p
                 (json.Marshal (UpdatePrescriptionRequest.Items req)))
              (UpdatePrescriptionRequest.Notes req)
    /\ prescriptions st'
       = map (prescriptionRepository.save_row p') (prescriptions st)
    /\ fst (prescriptionRepository.FindByID
              (UpdatePrescriptionRequest.PrescriptionID req) st') = Ok p'.
Proof.
  unfold PrescriptionService.UpdatePrescription.
  unfold bind at 1, or_fail at 1, prescriptionRepository.FindByID at 1.
  unfold first_row.
  destruct (find _ (prescriptions st)) as [p|] eqn:F; [|discriminate].
  unfold bind at 1, or_fail at 1. rewrite appointment_at_set_log.
  destruct (fst (appointmentRepository.FindByID _ st)) as [a|];
    [|discriminate].
  destruct (negb (N.eqb _ _)); [discriminate|].
  set (p1 := Prescription.with_Notes _ _).
  pose proof (find_some _ _ F) as [_ Hp].
  apply andb_true_iff in Hp as [Lp Ip]. apply N.eqb_eq in Ip.
  assert (I1 : Prescription.ID p1 = UpdatePrescriptionRequest.PrescriptionID req)
    by exact Ip.
  assert (L1 : prescriptionRepository.live p1 = true) by exact Lp.
  rewrite <- I1 in F.
  destruct (find_save_prescription p1 _ _ L1 F) as [F1 E1].
  unfold bind, prescriptionRepository.Update,
    prescriptionRepository.LoadRelations, prescriptionRepository.FindByID,
    first_row.
  cbn [prescriptions set_prescriptions set_log fst snd log].
  rewrite E1, F1. intros [= <- <-]. exists p.
  cbn [prescriptions set_prescriptions set_log fst snd log].
  rewrite <- I1, F, F1. repeat split.
Qed.

(** C8. A successful update stores the encoding of the new list in place
    of whatever was stored, and the prescription is read back so; the
    items read back from it are those of the new list, and nothing of the
    list stored before: exactly the new list when its strings are
    well-formed UTF-8, which holds of every list decoded from a JSON
    document, as the handler's request is; and the new list with each
    ill-formed byte replaced by U+FFFD otherwise. *)
Theorem update_prescription_items_round_trip req st p' st' :
  PrescriptionService.UpdatePrescription req st = (Ok p', st') ->
  (exists p,
      fst (prescriptionRepository.FindByID
             (UpdatePrescriptionRequest.PrescriptionID req) st) = Ok p
      /\ p' = Prescription.with_Notes
                (Prescription.with_ItemsJSON p
                   (json.Marshal (UpdatePrescriptionRequest.Items req)))
                (UpdatePrescriptionRequest.Notes req))
  /\ Prescription.ItemsJSON p'
     = json.Marshal (UpdatePrescriptionRequest.Items req)
  /\ fst (prescriptionRepository.FindByID
            (UpdatePrescriptionRequest.PrescriptionID req) st') = Ok p'
  /\ PrescriptionService.GetPrescriptionItems p'
     = Ok (map coerce_item (UpdatePrescriptionRequest.Items req))
  /\ (valid_items (UpdatePrescriptionRequest.Items req) = true ->
      PrescriptionService.GetPrescriptionItems p'
      = Ok (UpdatePrescriptionRequest.Items req))
  /\ (forall body,
        json.Unmarshal body = Ok (UpdatePrescriptionRequest.Items req) ->
        PrescriptionService.GetPrescriptionItems p'
        = Ok (UpdatePrescriptionRequest.Items req)).
Proof.
  intros H. apply UpdatePrescription_inv in H as (p & Fp & -> & _ & F).
  split; [now exists p|]. split; [reflexivity|]. split; [exact F|].
  unfold PrescriptionService.GetPrescriptionItems.
  cbn [Prescription.ItemsJSON Prescription.with_Notes
         Prescription.with_ItemsJSON].
  split; [apply Unmarshal_Marshal_any|].
  split; [intros V; exact (Unmarshal_Marshal _ V)|].
  intros body B. apply Unmarshal_Marshal.
  exact (decoded_items_are_valid _ _ B).
Qed.

(** C8 on a prescription that holds the amoxicillin item of the spec's
    example: it is updated with the ibuprofen item, and the items read
    back are the ibuprofen item alone. *)
Lemma update_prescription_items_round_trip_witness :
  PrescriptionService.GetPrescriptionItems amoxicillin_prescription
  = Ok [amoxicillin]
  /\ PrescriptionService.UpdatePrescription
       (UpdatePrescriptionRequest.mk 1 1 [ibuprofen] "")
       clinic_with_amoxicillin
     = (Ok (Prescription.mk 1 1 (json.Marshal [ibuprofen]) "" 1 None),
        set_log
          (set_prescriptions clinic_with_amoxicillin
             [Prescription.mk 1 1 (json.Marshal [ibuprofen]) "" 1 None])
          [ReadByID Prescriptions 1; Mutation Prescriptions;
           ReadByID Prescriptions 1])
  /\ valid_items [ibuprofen] = true
  /\ PrescriptionService.GetPrescriptionItems
       (Prescription.mk 1 1 (json.Marshal [ibuprofen]) "" 1 None)
     = Ok [ibuprofen].
Proof.
  assert (V : valid_items [ibuprofen] = true) by (vm_compute; reflexivity).
  assert (H : PrescriptionService.UpdatePrescription
                (UpdatePrescriptionRequest.mk 1 1 [ibuprofen] "")
                clinic_with_amoxicillin
              = (Ok (Prescription.mk 1 1 (json.Marshal [ibuprofen]) "" 1 None),
                 set_log
                   (set_prescriptions clinic_with_amoxicillin
                      [Prescription.mk 1 1 (json.Marshal [ibuprofen]) "" 1
                         None])
                   [ReadByID Prescriptions 1; Mutation Prescriptions;
                    ReadByID Prescriptions 1]))
    by (vm_compute; reflexivity).
  split; [vm_compute; reflexivity|]. split; [exact H|]. split; [exact V|].
  exact (proj1 (proj2 (proj2 (proj2 (proj2
           (update_prescription_items_round_trip
              (UpdatePrescriptionRequest.mk 1 1 [ibuprofen] "") _ _ _ H)))))
           V).
Defined.
(** * Further properties of the services *)

(** ** Tools *)

Lemma find_app_last {A} (p : A -> bool) (l : list A) (x : A) :
  (forall r, In r l -> p r = false) ->
  find p (l ++ [x]) = if p x then Some x else None.
Proof.
  intros H. induction l as [|y l IH]; cbn; [reflexivity|].
  rewrite (H y) by (cbn; auto). apply IH. intros r Hr. apply H. now right.
Qed.

Lemma find_app_first {A} (p : A -> bool) (l : list A) (x y : A) :
  find p l = Some y -> find p (l ++ [x]) = Some y.
Proof.
  induction l as [|z l IH]; cbn; [discriminate|].
  destruct (p z); [trivial|exact IH].
Qed.

Lemma find_none_iff {A} (p : A -> bool) (l : list A) :
  find p l = None <-> forall x, In x l -> p x = false.
Proof.
  split.
  - intros H x Hx. now apply (find_none p l H).
  - induction l as [|y l IH]; cbn; [reflexivity|]. intros H.
    rewrite (H y) by auto. apply IH. intros x Hx. apply H. now right.
Qed.

(** ** Slots, continued *)

Lemma slot_scan_scan r : slotRepository.scan (slotRepository.scan r)
                         = slotRepository.scan r.
Proof. reflexivity. Qed.

(** X1. [CreateSlot] succeeds exactly when both times were parsed, the start
    is not before now and the start is before the end.  A refused call
    writes nothing.  A successful call appends one slot, open and not
    deleted, of the calling doctor, with the requested times and a key that
    no stored slot has, and leaves users and appointments as they were. *)
Theorem create_slot_outcome now doctorID startTime endTime st :
  let out := SlotService.CreateSlot now doctorID startTime endTime st in
  (is_ok (fst out) = true
   <-> exists s e, startTime = Ok s /\ endTime = Ok e
                   /\ (now <= s)%Z /\ (s < e)%Z)
  /\ (is_ok (fst out) = false -> snd out = st)
  /\ (forall slot,
        fst out = Ok slot ->
        availability_slots (snd out) = availability_slots st ++ [slot]
        /\ (forall r, In r (availability_slots st) ->
                      AvailabilitySlot.ID r <> AvailabilitySlot.ID slot)
        /\ AvailabilitySlot.DoctorID slot = doctorID
        /\ startTime = Ok (AvailabilitySlot.StartTime slot)
        /\ endTime = Ok (AvailabilitySlot.EndTime slot)
        /\ AvailabilitySlot.Status slot = "open"
        /\ AvailabilitySlot.DeletedAt slot = None
        /\ appointments (snd out) = appointments st
        /\ users (snd out) = users st).
Proof.
  unfold SlotService.CreateSlot, slotRepository.Create, time.Before,
    time.After, time.Equal.
  destruct startTime as [s|e1]; [|run; repeat split; try easy;
                                  intros (s & e & [=] & _)].
  destruct endTime as [e|e2]; [|run; repeat split; try easy;
                                intros (s' & e' & _ & [=] & _)].
  run.
  destruct (Z.ltb_spec s now) as [P|P]; cbn.
  { repeat split; try easy. intros (s' & e' & [= <-] & [= <-] & ? & ?). lia. }
  destruct (Z.ltb_spec e s) as [Q|Q]; cbn.
  { repeat split; try easy. intros (s' & e' & [= <-] & [= <-] & ? & ?). lia. }
  destruct (Z.eqb_spec s e) as [R|R]; cbn.
  { repeat split; try easy. intros (s' & e' & [= <-] & [= <-] & ? & ?). lia. }
  split; [|split].
  - split; [|reflexivity]. intros _. exists s, e. repeat split; lia.
  - discriminate.
  - intros slot [= <-]. cbn. repeat split.
    intros r Hr E. pose proof (next_id_above AvailabilitySlot.ID _ _ Hr) as L.
    rewrite E in L. lia.
Qed.

Lemma find_map_frame {A} (q : A -> bool) (f : A -> A) (l : list A) :
  (forall r, q (f r) = q r) -> (forall r, q r = true -> f r = r) ->
  find q (map f l) = find q l.
Proof.
  intros H1 H2. induction l as [|y l IH]; cbn; [reflexivity|].
  rewrite H1. destruct (q y) eqn:E; [now rewrite H2|exact IH].
Qed.

Lemma find_map_hit {A} (q : A -> bool) (f : A -> A) (l : list A) (r : A) :
  (forall r, q (f r) = q r) ->
  find q l = Some r -> find q (map f l) = Some (f r).
Proof.
  intros H1. induction l as [|y l IH]; cbn; [discriminate|].
  rewrite H1. destruct (q y) eqn:E; [now intros [= ->]|exact IH].
Qed.

Lemma find_map_none {A} (q : A -> bool) (f : A -> A) (l : list A) :
  (forall r, q (f r) = false) -> find q (map f l) = None.
Proof.
  intros H. induction l as [|y l IH]; cbn; [reflexivity|]. now rewrite H.
Qed.

Lemma find_some_in {A} (q : A -> bool) (l : list A) (r : A) :
  find q l = Some r -> In r l /\ q r = true.
Proof. apply find_some. Qed.

(** What a successful [CreateSlot] has done. *)
Lemma CreateSlot_inv now doctorID startTime endTime st slot st' :
  SlotService.CreateSlot now doctorID startTime endTime st = (Ok slot, st') ->
  exists s e,
    startTime = Ok s /\ endTime = Ok e /\ (now <= s)%Z /\ (s < e)%Z
    /\ slot = AvailabilitySlot.mk
                (next_id AvailabilitySlot.ID (availability_slots st))
                doctorID s e "open" None None
    /\ st' = set_availability_slots st (availability_slots st ++ [slot]).
Proof.
  unfold SlotService.CreateSlot, slotRepository.Create, time.Before,
    time.After, time.Equal.
  destruct startTime as [s|e1]; [|run; discriminate].
  destruct endTime as [e|e2]; [|run; discriminate].
  run.
  destruct (Z.ltb_spec s now) as [P|P]; cbn; [discriminate|].
  destruct (Z.ltb_spec e s) as [Q|Q]; cbn; [discriminate|].
  destruct (Z.eqb_spec s e) as [R|R]; cbn; [discriminate|].
  intros [= <- <-]. exists s, e. repeat split; try lia.
Qed.

(** A refused [CreateSlot] writes nothing. *)
Lemma create_slot_inert now doctorID startTime endTime st :
  is_ok (fst (SlotService.CreateSlot now doctorID startTime endTime st))
  = false ->
  snd (SlotService.CreateSlot now doctorID startTime endTime st) = st.
Proof.
  unfold SlotService.CreateSlot, slotRepository.Create, time.Before,
    time.After, time.Equal.
  destruct startTime as [s|e1]; [|run; trivial].
  destruct endTime as [e|e2]; [|run; trivial].
  run.
  destruct (Z.ltb s now); cbn; [trivial|].
  destruct (Z.ltb e s); cbn; [trivial|].
  destruct (Z.eqb s e); cbn; [trivial|discriminate].
Qed.

(** X2. After a successful [CreateSlot] the new slot is read back under its
    key; the slots listed for the doctor are those listed before and the
    new one, and the slots listed for another doctor are those listed
    before, in whatever order the database returns them each time; and
    every slot that could be read before is read back the same. *)
Theorem created_slot_is_found now doctorID startTime endTime st slot st' :
  SlotService.CreateSlot now doctorID startTime endTime st = (Ok slot, st') ->
  slotRepository.FindByID (AvailabilitySlot.ID slot) st' = (Ok slot, st')
  /\ (forall order order' l l',
         fst (SlotService.GetSlotsByDoctorID order doctorID st) = Ok l ->
         fst (SlotService.GetSlotsByDoctorID order' doctorID st') = Ok l' ->
         Permutation l' (slot :: l))
  /\ (forall order order' d l l',
         d <> doctorID ->
         fst (SlotService.GetSlotsByDoctorID order d st) = Ok l ->
         fst (SlotService.GetSlotsByDoctorID order' d st') = Ok l' ->
         Permutation l' l)
  /\ (forall id r, fst (slotRepository.FindByID id st) = Ok r ->
                   fst (slotRepository.FindByID id st') = Ok r).
Proof.
  intros H. apply CreateSlot_inv in H as (s & e & -> & -> & P & Q & -> & ->).
  set (slot := AvailabilitySlot.mk _ _ _ _ _ _ _).
  assert (F : forall r, In r (availability_slots st) ->
                        AvailabilitySlot.ID r <> AvailabilitySlot.ID slot).
  { intros r Hr E. pose proof (next_id_above AvailabilitySlot.ID _ _ Hr) as L.
    rewrite E in L. cbn in L. lia. }
  split; [|split; [|split]].
  - unfold slotRepository.FindByID, first_row. cbn [availability_slots
      set_availability_slots].
    rewrite find_app_last.
    + cbn. now rewrite N.eqb_refl.
    + intros r Hr. apply andb_false_iff. right. apply N.eqb_neq. now apply F.
  - intros order order' l l'.
    unfold SlotService.GetSlotsByDoctorID, slotRepository.FindByDoctorID.
    cbn [fst availability_slots set_availability_slots].
    intros [= <-] [= <-]. rewrite filter_app, map_app. cbn.
    rewrite N.eqb_refl. cbn.
    rewrite (sql.arrange_perm order'), (sql.arrange_perm order).
    apply Permutation_sym, Permutation_cons_append.
  - intros order order' d l l' Hd.
    unfold SlotService.GetSlotsByDoctorID, slotRepository.FindByDoctorID.
    cbn [fst availability_slots set_availability_slots].
    intros [= <-] [= <-]. rewrite filter_app, map_app. cbn.
    destruct (N.eqb_spec doctorID d) as [->|_]; [easy|]. cbn.
    rewrite app_nil_r.
    now rewrite (sql.arrange_perm order'), (sql.arrange_perm order).
  - intros id r. unfold slotRepository.FindByID, first_row. cbn.
    destruct (find _ (availability_slots st)) as [r0|] eqn:E; cbn;
      [|discriminate].
    intros [= <-]. now rewrite (find_app_first _ _ _ _ E).
Qed.

(** X2 in the sample clinic: doctor 1 opens the range [[600, 630]], reads
    the slot back and finds it alone in the list of the own slots. *)
Lemma created_slot_is_found_witness :
  SlotService.CreateSlot 0 1 (Ok 600%Z) (Ok 630%Z) clinic
  = (Ok (AvailabilitySlot.mk 1 1 600 630 "open" None None),
     set_availability_slots clinic
       [AvailabilitySlot.mk 1 1 600 630 "open" None None])
  /\ slotRepository.FindByID 1
       (set_availability_slots clinic
          [AvailabilitySlot.mk 1 1 600 630 "open" None None])
     = (Ok (AvailabilitySlot.mk 1 1 600 630 "open" None None),
        set_availability_slots clinic
          [AvailabilitySlot.mk 1 1 600 630 "open" None None])
  /\ exists l,
      fst (SlotService.GetSlotsByDoctorID sql.backwards 1
             (set_availability_slots clinic
                [AvailabilitySlot.mk 1 1 600 630 "open" None None])) = Ok l
      /\ Permutation l [AvailabilitySlot.mk 1 1 600 630 "open" None None].
Proof.
  split; [reflexivity|].
  pose proof (created_slot_is_found 0 1 (Ok 600%Z) (Ok 630%Z) clinic
                _ _ eq_refl) as (F & G & _).
  split; [exact F|].
  eexists. split; [reflexivity|].
  exact (G sql.as_stored sql.backwards [] _ eq_refl eq_refl).
Defined.

Lemma slot_FindByID_inv id st slot :
  fst (slotRepository.FindByID id st) = Ok slot ->
  exists r, find (fun r => slotRepository.live r
                           && N.eqb (AvailabilitySlot.ID r) id)
                 (availability_slots st) = Some r
            /\ slot = slotRepository.scan r
            /\ In r (availability_slots st)
            /\ AvailabilitySlot.DeletedAt r = None
            /\ AvailabilitySlot.ID r = id.
Proof.
  unfold slotRepository.FindByID, first_row.
  destruct (find _ _) as [r|] eqn:E; cbn; [|discriminate].
  intros [= <-]. exists r. apply find_some in E as E'. destruct E' as [I Q].
  apply andb_true_iff in Q as [L K]. apply N.eqb_eq in K.
  unfold slotRepository.live in L.
  destruct (AvailabilitySlot.DeletedAt r) eqn:D; [discriminate|]. auto.
Qed.

Lemma slot_FindByID_pure id st : snd (slotRepository.FindByID id st) = st.
Proof.
  unfold slotRepository.FindByID. now destruct (first_row _ _).
Qed.

(** [UpdateSlot] as one decision tree over the store. *)
Lemma UpdateSlot_eq slotID doctorID req st :
  SlotService.UpdateSlot slotID doctorID req st =
  match fst (slotRepository.FindByID slotID st) with
  | Err e => (Err e, st)
  | Ok slot =>
    if negb (N.eqb (AvailabilitySlot.DoctorID slot) doctorID)
    then (Err "unauthorized to update this slot", st)
    else if negb (String.eqb (UpdateSlotRequest.Status req) "")
            && negb (String.eqb (UpdateSlotRequest.Status req) "open")
            && negb (String.eqb (UpdateSlotRequest.Status req) "blocked")
    then (Err "invalid status", st)
    else
      let slot' := if negb (String.eqb (UpdateSlotRequest.Status req) "")
                   then AvailabilitySlot.with_Status slot
                          (UpdateSlotRequest.Status req)
                   else slot in
      (Ok slot', set_availability_slots st
                   (map (slotRepository.save_row slot')
                        (availability_slots st)))
  end.
Proof.
  unfold SlotService.UpdateSlot, bind.
  destruct (slotRepository.FindByID slotID st) as [[slot|e] st0] eqn:F.
  2:{ pose proof (slot_FindByID_pure slotID st) as P. rewrite F in P.
      cbn in *. now subst. }
  pose proof (slot_FindByID_pure slotID st) as P. rewrite F in P. cbn in P.
  subst st0. cbn [fst].
  assert (F' : fst (slotRepository.FindByID slotID st) = Ok slot)
    by now rewrite F.
  apply slot_FindByID_inv in F' as (r & E & -> & I & D & K).
  destruct (negb (N.eqb _ doctorID)); [reflexivity|].
  destruct (negb (String.eqb (UpdateSlotRequest.Status req) "")
            && negb (String.eqb (UpdateSlotRequest.Status req) "open")
            && negb (String.eqb (UpdateSlotRequest.Status req) "blocked"));
    [reflexivity|].
  cbv zeta. set (slot' := if negb _ then _ else _).
  assert (K' : AvailabilitySlot.ID slot' = slotID).
  { unfold slot'. now destruct (negb _). }
  unfold slotRepository.Update, ret. rewrite K'.
  rewrite existsb_find, E. reflexivity.
Qed.

Lemma slot_query_save slot id r :
  slotRepository.live slot = true ->
  (slotRepository.live (slotRepository.save_row slot r)
   && N.eqb (AvailabilitySlot.ID (slotRepository.save_row slot r)) id)
  = (slotRepository.live r && N.eqb (AvailabilitySlot.ID r) id).
Proof.
  intros L. unfold slotRepository.save_row.
  destruct (slotRepository.live r && N.eqb (AvailabilitySlot.ID r)
                                           (AvailabilitySlot.ID slot)) eqn:Q;
    [|reflexivity].
  apply andb_true_iff in Q as [Lr K]. apply N.eqb_eq in K.
  rewrite Lr, K. cbn [andb]. unfold slotRepository.live in *. cbn.
  destruct (AvailabilitySlot.DeletedAt slot); [discriminate|reflexivity].
Qed.

(** Saving a live slot over the row read under its key, then reading. *)
Lemma slot_saved_then_found slot st r :
  slotRepository.live slot = true ->
  slotRepository.scan slot = slot ->
  find (fun r => slotRepository.live r
                 && N.eqb (AvailabilitySlot.ID r) (AvailabilitySlot.ID slot))
       (availability_slots st) = Some r ->
  let st' := set_availability_slots st
               (map (slotRepository.save_row slot) (availability_slots st)) in
  fst (slotRepository.FindByID (AvailabilitySlot.ID slot) st') = Ok slot
  /\ (forall id, id <> AvailabilitySlot.ID slot ->
                 fst (slotRepository.FindByID id st')
                 = fst (slotRepository.FindByID id st)).
Proof.
  intros L S E st'. split.
  - unfold slotRepository.FindByID, first_row, st'.
    cbn [availability_slots set_availability_slots].
    rewrite (find_map_hit _ _ _ r);
      [|intros; now apply slot_query_save|exact E].
    cbn [fst]. unfold slotRepository.save_row.
    apply find_some in E as [_ Q]. rewrite Q. cbv beta iota. cbn [fst].
    now rewrite slot_scan_scan, S.
  - intros id Hid. unfold slotRepository.FindByID, first_row, st'.
    cbn [availability_slots set_availability_slots].
    rewrite find_map_frame;
      [match goal with |- context [find ?q ?l] => now destruct (find q l) end
      | |].
    + intros; now apply slot_query_save.
    + intros x Q. unfold slotRepository.save_row.
      apply andb_true_iff in Q as [Lx Q]. apply N.eqb_eq in Q.
      rewrite Lx. cbn [andb].
      destruct (N.eqb_spec (AvailabilitySlot.ID x) (AvailabilitySlot.ID slot));
        congruence.
Qed.

(** X3. [UpdateSlot] succeeds exactly when the slot exists (and is not
    deleted), belongs to the calling doctor and the requested status is
    empty, [open] or [blocked].  A refused call writes nothing.  A
    successful call returns the stored slot with its status replaced when
    the request names one, and unchanged when it names none; that slot is
    what is read back afterwards, the other slots are read back as before
    and the appointments are as they were. *)
Theorem update_slot_outcome slotID doctorID req st :
  let out := SlotService.UpdateSlot slotID doctorID req st in
  let status := UpdateSlotRequest.Status req in
  (is_ok (fst out) = true
   <-> exists slot,
         fst (slotRepository.FindByID slotID st) = Ok slot
         /\ AvailabilitySlot.DoctorID slot = doctorID
         /\ (status = "" \/ status = "open" \/ status = "blocked"))
  /\ (is_ok (fst out) = false -> snd out = st)
  /\ (forall slot',
        fst out = Ok slot' ->
        exists slot,
          fst (slotRepository.FindByID slotID st) = Ok slot
          /\ slot' = (if String.eqb status "" then slot
                      else AvailabilitySlot.with_Status slot status)
          /\ fst (slotRepository.FindByID slotID (snd out)) = Ok slot'
          /\ (forall id, id <> slotID ->
                         fst (slotRepository.FindByID id (snd out))
                         = fst (slotRepository.FindByID id st))
          /\ appointments (snd out) = appointments st).
Proof.
  cbv zeta. rewrite UpdateSlot_eq.
  destruct (fst (slotRepository.FindByID slotID st)) as [slot|e] eqn:F;
    cbn [fst snd].
  2:{ repeat split; try easy. intros (s & [=] & _). }
  destruct (N.eqb_spec (AvailabilitySlot.DoctorID slot) doctorID) as [D|D];
    cbn [negb fst snd].
  2:{ repeat split; try easy. intros (s & [= <-] & ? & _). easy. }
  assert (G : negb (String.eqb (UpdateSlotRequest.Status req) "")
              && negb (String.eqb (UpdateSlotRequest.Status req) "open")
              && negb (String.eqb (UpdateSlotRequest.Status req) "blocked")
              = false
              <-> (UpdateSlotRequest.Status req = ""
                   \/ UpdateSlotRequest.Status req = "open"
                   \/ UpdateSlotRequest.Status req = "blocked")).
  { destruct (String.eqb_spec (UpdateSlotRequest.Status req) "");
      destruct (String.eqb_spec (UpdateSlotRequest.Status req) "open");
      destruct (String.eqb_spec (UpdateSlotRequest.Status req) "blocked");
      cbn; intuition congruence. }
  destruct (negb (String.eqb (UpdateSlotRequest.Status req) "")
            && negb (String.eqb (UpdateSlotRequest.Status req) "open")
            && negb (String.eqb (UpdateSlotRequest.Status req) "blocked"))
    eqn:V; cbn [fst snd is_ok].
  { repeat split; try easy. intros (s & _ & _ & H). apply G in H. easy. }
  split; [|split].
  - split; [|reflexivity]. intros _. exists slot. split; [reflexivity|].
    split; [exact D|]. now apply G.
  - discriminate.
  - intros slot' [= <-]. exists slot. split; [reflexivity|].
    split; [now rewrite negb_if|].
    apply slot_FindByID_inv in F as (r & E & -> & I & Dl & K).
    set (slot' := if negb _ then _ else _).
    assert (K' : AvailabilitySlot.ID slot' = slotID)
      by (unfold slot'; now destruct (negb _)).
    assert (L' : slotRepository.live slot' = true)
      by (unfold slot', slotRepository.live; destruct (negb _); cbn;
          now rewrite Dl).
    assert (S' : slotRepository.scan slot' = slot')
      by (unfold slot'; now destruct (negb _)).
    rewrite <- K' in E.
    destruct (slot_saved_then_found slot' st r L' S' E) as [A B].
    rewrite K' in A, B. split; [exact A|]. split; [exact B|reflexivity].
Qed.

(** [DeleteSlot] as one decision tree over the store. *)
Lemma DeleteSlot_eq now slotID doctorID st :
  SlotService.DeleteSlot now slotID doctorID st =
  match fst (slotRepository.FindByID slotID st) with
  | Err e => (Err e, st)
  | Ok slot =>
    if negb (N.eqb (AvailabilitySlot.DoctorID slot) doctorID)
    then (Err "unauthorized to delete this slot", st)
    else (Ok tt,
          set_availability_slots st
            (map (slotRepository.delete_row now slotID)
                 (availability_slots st)))
  end.
Proof.
  unfold SlotService.DeleteSlot, slotRepository.FindByID, bind.
  destruct (first_row _ (availability_slots st)) as [r|]; cbn;
    [|reflexivity].
  destruct (negb (N.eqb (AvailabilitySlot.DoctorID r) doctorID)); reflexivity.
Qed.

Lemma slot_query_deleted now slotID r :
  slotRepository.live (slotRepository.delete_row now slotID r)
  && N.eqb (AvailabilitySlot.ID (slotRepository.delete_row now slotID r))
           slotID
  = false.
Proof.
  unfold slotRepository.delete_row.
  destruct (slotRepository.live r && N.eqb (AvailabilitySlot.ID r) slotID)
    eqn:Q; [reflexivity|exact Q].
Qed.

Lemma slot_FindByID_after_delete now slotID st :
  let st' := set_availability_slots st
               (map (slotRepository.delete_row now slotID)
                    (availability_slots st)) in
  slotRepository.FindByID slotID st' = (Err ErrRecordNotFound, st')
  /\ (forall id, id <> slotID ->
                 fst (slotRepository.FindByID id st')
                 = fst (slotRepository.FindByID id st)).
Proof.
  intros st'. split.
  - unfold slotRepository.FindByID, first_row, st'.
    cbn [availability_slots set_availability_slots].
    rewrite find_map_none; [reflexivity|]. intros. apply slot_query_deleted.
  - intros id Hid. unfold slotRepository.FindByID, first_row, st'.
    cbn [availability_slots set_availability_slots].
    assert (U : forall x, slotRepository.live x
                          && N.eqb (AvailabilitySlot.ID x) id = true ->
                          slotRepository.delete_row now slotID x = x).
    { intros x Q. unfold slotRepository.delete_row.
      apply andb_true_iff in Q as [Lx Q]. apply N.eqb_eq in Q.
      rewrite Lx. cbn [andb].
      destruct (N.eqb_spec (AvailabilitySlot.ID x) slotID); congruence. }
    rewrite find_map_frame;
      [match goal with |- context [find ?q ?l] => now destruct (find q l) end
      | |exact U].
    intros x. unfold slotRepository.delete_row.
    destruct (slotRepository.live x && N.eqb (AvailabilitySlot.ID x) slotID)
      eqn:Q; [|reflexivity].
    apply andb_true_iff in Q as [Lx Q]. apply N.eqb_eq in Q.
    rewrite Lx. cbn. destruct (N.eqb_spec (AvailabilitySlot.ID x) id);
      [congruence|reflexivity].
Qed.

(** X4. [DeleteSlot] succeeds exactly when the slot exists (and is not
    deleted) and belongs to the calling doctor; a refused call writes
    nothing.  After a successful call, deleting or updating the same slot
    fails with [record not found] whoever asks, no list of slots contains
    it, the other slots are read back as before, the table has as many rows
    as before (the row is kept, marked deleted), and the appointments are
    as they were. *)
Theorem delete_slot_outcome now slotID doctorID st :
  let out := SlotService.DeleteSlot now slotID doctorID st in
  (fst out = Ok tt
   <-> exists slot, fst (slotRepository.FindByID slotID st) = Ok slot
                    /\ AvailabilitySlot.DoctorID slot = doctorID)
  /\ (fst out <> Ok tt -> snd out = st)
  /\ (fst out = Ok tt ->
      (forall d now', SlotService.DeleteSlot now' slotID d (snd out)
                      = (Err ErrRecordNotFound, snd out))
      /\ (forall d req, SlotService.UpdateSlot slotID d req (snd out)
                        = (Err ErrRecordNotFound, snd out))
      /\ (forall order d l s,
             fst (SlotService.GetSlotsByDoctorID order d (snd out)) = Ok l ->
             In s l -> AvailabilitySlot.ID s <> slotID)
      /\ (forall id, id <> slotID ->
                     fst (slotRepository.FindByID id (snd out))
                     = fst (slotRepository.FindByID id st))
      /\ List.length (availability_slots (snd out))
         = List.length (availability_slots st)
      /\ appointments (snd out) = appointments st).
Proof.
  cbv zeta. rewrite DeleteSlot_eq.
  destruct (fst (slotRepository.FindByID slotID st)) as [slot|e] eqn:F;
    cbn [fst snd].
  2:{ repeat split; try easy. intros (s & [=] & _). }
  destruct (N.eqb_spec (AvailabilitySlot.DoctorID slot) doctorID) as [D|D];
    cbn [negb fst snd].
  2:{ repeat split; try easy. intros (s & [= <-] & ?). easy. }
  split; [|split].
  - split; [|reflexivity]. intros _. now exists slot.
  - easy.
  - intros _.
    destruct (slot_FindByID_after_delete now slotID st) as [A B].
    cbv zeta in A, B. set (st' := set_availability_slots _ _) in *.
    split; [|split; [|split; [|split; [|split]]]].
    + intros d now'. rewrite DeleteSlot_eq, A. reflexivity.
    + intros d req. rewrite UpdateSlot_eq, A. reflexivity.
    + intros order d l s.
      unfold SlotService.GetSlotsByDoctorID, slotRepository.FindByDoctorID.
      cbn [fst]. intros [= <-] I.
      apply (Permutation_in _ (sql.arrange_perm order _)) in I.
      apply in_map_iff in I as (x & <- & I).
      apply filter_In in I as [I Q]. apply andb_true_iff in Q as [Lx _].
      unfold st' in I. cbn [availability_slots set_availability_slots] in I.
      apply in_map_iff in I as (y & <- & I). cbn.
      intros K. pose proof (slot_query_deleted now slotID y) as Z.
      rewrite Lx in Z. cbn in Z. apply N.eqb_neq in Z. easy.
    + exact B.
    + unfold st'. cbn. now rewrite length_map.
    + reflexivity.
Qed.

(** X5. When every stored slot starts before it ends and has status [open] or
    [blocked], the same holds after any call of [CreateSlot], [UpdateSlot]
    or [DeleteSlot], accepted or refused. *)
Theorem slot_writes_keep_slots_well_formed st :
  well_formed_slots st ->
  (forall now doctorID startTime endTime,
      well_formed_slots
        (snd (SlotService.CreateSlot now doctorID startTime endTime st)))
  /\ (forall slotID doctorID req,
         well_formed_slots
           (snd (SlotService.UpdateSlot slotID doctorID req st)))
  /\ (forall now slotID doctorID,
         well_formed_slots
           (snd (SlotService.DeleteSlot now slotID doctorID st))).
Proof.
  intros W. split; [|split].
  - intros now doctorID startTime endTime.
    destruct (SlotService.CreateSlot now doctorID startTime endTime st)
      as [[slot|e] st'] eqn:C.
    + apply CreateSlot_inv in C as (s & e & _ & _ & P & Q & -> & ->).
      cbn. intros r Hr. apply in_app_iff in Hr as [Hr|[<-|[]]];
        [now apply W|]. split; cbn; auto.
    + pose proof (create_slot_inert now doctorID startTime endTime st) as I.
      rewrite C in I. cbn in I. rewrite I by reflexivity. exact W.
  - intros slotID doctorID req. rewrite UpdateSlot_eq.
    destruct (fst (slotRepository.FindByID slotID st)) as [slot|e] eqn:F;
      [|exact W].
    destruct (negb (N.eqb _ doctorID)); [exact W|].
    destruct (String.eqb_spec (UpdateSlotRequest.Status req) "") as [S0|S0];
      cbn [negb andb].
    + cbn. intros r Hr. apply in_map_iff in Hr as (x & <- & Hx).
      apply slot_FindByID_inv in F as (r0 & _ & -> & I & _ & _).
      unfold slotRepository.save_row. destruct (_ && _); [|now apply W].
      apply (W r0 I).
    + destruct (String.eqb_spec (UpdateSlotRequest.Status req) "open")
        as [S1|S1];
        [|destruct (String.eqb_spec (UpdateSlotRequest.Status req) "blocked")
           as [S2|S2]]; cbn [negb andb]; [| |exact W].
      all: cbn; intros r Hr; apply in_map_iff in Hr as (x & <- & Hx);
        apply slot_FindByID_inv in F as (r0 & _ & -> & I & _ & _);
        unfold slotRepository.save_row; destruct (_ && _); [|now apply W];
        destruct (W r0 I) as [T _]; split; cbn; auto.
  - intros now slotID doctorID. rewrite DeleteSlot_eq.
    destruct (fst (slotRepository.FindByID slotID st)) as [slot|e];
      [|exact W].
    destruct (negb (N.eqb _ doctorID)); [exact W|].
    cbn. intros r Hr. apply in_map_iff in Hr as (x & <- & Hx).
    unfold slotRepository.delete_row. destruct (_ && _); [|now apply W].
    exact (W x Hx).
Qed.

(** X5 in the clinic with one slot: blocking the slot keeps the table well formed. *)
Lemma slot_writes_keep_slots_well_formed_witness :
  well_formed_slots clinic_with_booked_slot
  /\ well_formed_slots
       (snd (SlotService.UpdateSlot 1 1 (UpdateSlotRequest.mk "blocked" "")
               clinic_with_booked_slot)).
Proof.
  assert (W : well_formed_slots clinic_with_booked_slot).
  { intros r [<-|[]]. split; [reflexivity|now left]. }
  split; [exact W|].
  apply (proj1 (proj2 (slot_writes_keep_slots_well_formed _ W))).
Defined.

Lemma midnight_spec t :
  (time.midnight t <= t < time.midnight t + 24 * time.Hour)%Z
  /\ time.midnight (t + 24 * time.Hour) = (time.midnight t + 24 * time.Hour)%Z.
Proof.
  unfold time.midnight, time.Hour.
  change (24 * 3600000000000)%Z with 86400000000000%Z. split.
  - pose proof (Z.mul_div_le t 86400000000000 ltac:(lia)).
    pose proof (Z.mul_succ_div_gt t 86400000000000 ltac:(lia)). lia.
  - replace (t + 86400000000000)%Z with (t + 1 * 86400000000000)%Z by lia.
    rewrite Z.div_add by lia. lia.
Qed.

Lemma filter_map_filter {A B} (p : B -> bool) (f : A -> B) (q : A -> bool)
      (l : list A) :
  filter p (map f (filter q l)) = map f (filter (fun r => q r && p (f r)) l).
Proof.
  induction l as [|r l IH]; cbn; [reflexivity|].
  destruct (q r); cbn; [|exact IH].
  destruct (p (f r)); cbn; [now rewrite IH|exact IH].
Qed.

(** What the query and the loop of [GetAvailableSlots] keep of a row,
    whatever the order of the rows. *)
Lemma GetAvailableSlots_eq order now doctorID date st :
  exists l,
    SlotService.GetAvailableSlots order now doctorID (Ok date) st = (Ok l, st)
    /\ forall slot,
        In slot l <->
        In slot
           (map slotRepository.scan
              (filter (fun r =>
                         (slotRepository.live r
                          && slotRepository.available doctorID
                               (time.midnight date)
                               (time.midnight date + 24 * time.Hour) r)
                         && (Z.ltb now (AvailabilitySlot.StartTime r)
                             && String.eqb (AvailabilitySlot.Status r) "open"))
                      (availability_slots st))).
Proof.
  unfold SlotService.GetAvailableSlots,
    slotRepository.FindAvailableByDoctorIDAndDate, time.Add, time.After,
    bind, or_fail, lift, ret.
  cbv beta iota. eexists. split; [reflexivity|].
  intros slot.
  match goal with
  | |- In slot (filter ?q (sql.arrange _ ?X)) <-> _ =>
      transitivity (In slot (filter q X))
  end.
  - rewrite !filter_In. split; intros [I Q]; (split; [|exact Q]).
    + exact (Permutation_in _ (sql.arrange_perm order _) I).
    + exact (Permutation_in _ (Permutation_sym (sql.arrange_perm order _))
               I).
  - rewrite filter_map_filter. reflexivity.
Qed.

(** X6. [GetAvailableSlots] fails with [invalid date format], writing
    nothing, when the date was not parsed.  Otherwise it writes nothing and
    returns exactly the stored slots that are not deleted, belong to the
    doctor, are open, start after now, and start between the midnight
    before the date and the midnight after it, both included; each comes
    without its doctor loaded, in whatever order the database returns
    them.  The date lies in that day.  As both ends are included, an open
    slot that starts exactly at the closing midnight is listed for this
    day and for the next. *)
Theorem available_slots_spec order now doctorID date st :
  (forall e, SlotService.GetAvailableSlots order now doctorID (Err e) st
             = (Err "invalid date format", st))
  /\ exists l,
    SlotService.GetAvailableSlots order now doctorID (Ok date) st = (Ok l, st)
    /\ (forall slot,
          In slot l <->
          exists r,
            In r (availability_slots st)
            /\ slot = slotRepository.scan r
            /\ AvailabilitySlot.DeletedAt r = None
            /\ AvailabilitySlot.DoctorID r = doctorID
            /\ AvailabilitySlot.Status r = "open"
            /\ (time.midnight date <= AvailabilitySlot.StartTime r
                <= time.midnight date + 24 * time.Hour)%Z
            /\ (now < AvailabilitySlot.StartTime r)%Z)
    /\ (time.midnight date <= date < time.midnight date + 24 * time.Hour)%Z
    /\ (forall order' r l',
          In r (availability_slots st) ->
          AvailabilitySlot.DeletedAt r = None ->
          AvailabilitySlot.DoctorID r = doctorID ->
          AvailabilitySlot.Status r = "open" ->
          (now < AvailabilitySlot.StartTime r)%Z ->
          AvailabilitySlot.StartTime r
          = (time.midnight date + 24 * time.Hour)%Z ->
          fst (SlotService.GetAvailableSlots order' now doctorID
                 (Ok (date + 24 * time.Hour)%Z) st) = Ok l' ->
          In (slotRepository.scan r) l /\ In (slotRepository.scan r) l').
Proof.
  split; [reflexivity|].
  assert (S : forall date0 slot,
             In slot
                (map slotRepository.scan
                   (filter (fun r =>
                      (slotRepository.live r
                       && slotRepository.available doctorID
                            (time.midnight date0)
                            (time.midnight date0 + 24 * time.Hour) r)
                      && (Z.ltb now (AvailabilitySlot.StartTime r)
                          && String.eqb (AvailabilitySlot.Status r) "open"))
                   (availability_slots st)))
             <-> exists r,
                 In r (availability_slots st)
                 /\ slot = slotRepository.scan r
                 /\ AvailabilitySlot.DeletedAt r = None
                 /\ AvailabilitySlot.DoctorID r = doctorID
                 /\ AvailabilitySlot.Status r = "open"
                 /\ (time.midnight date0 <= AvailabilitySlot.StartTime r
                     <= time.midnight date0 + 24 * time.Hour)%Z
                 /\ (now < AvailabilitySlot.StartTime r)%Z).
  { intros date0 slot. rewrite in_map_iff. split.
    - intros (r & <- & I). apply filter_In in I as [I Q]. exists r.
      unfold slotRepository.available, slotRepository.live in Q.
      destruct (AvailabilitySlot.DeletedAt r) eqn:D; [discriminate|].
      cbn [andb] in Q.
      repeat match goal with
             | H : _ && _ = true |- _ => apply andb_true_iff in H as [? ?]
             | H : N.eqb _ _ = true |- _ => apply N.eqb_eq in H
             | H : Z.leb _ _ = true |- _ => apply Z.leb_le in H
             | H : Z.ltb _ _ = true |- _ => apply Z.ltb_lt in H
             | H : String.eqb _ _ = true |- _ => apply String.eqb_eq in H
             end.
      repeat split; auto.
    - intros (r & I & -> & D & Dr & O & [T1 T2] & T3). exists r.
      split; [reflexivity|]. apply filter_In. split; [exact I|].
      unfold slotRepository.available, slotRepository.live.
      rewrite D, Dr, O, N.eqb_refl.
      apply Z.leb_le in T1, T2. apply Z.ltb_lt in T3.
      rewrite T1, T2, T3. reflexivity. }
  destruct (GetAvailableSlots_eq order now doctorID date st) as (l & G & Il).
  exists l. split; [exact G|].
  split; [intros slot; rewrite Il; apply S|]. split; [apply midnight_spec|].
  intros order' r l' I D Dr O T E.
  destruct (GetAvailableSlots_eq order' now doctorID
              (date + 24 * time.Hour)%Z st) as (l2 & G2 & Il2).
  intros Q. pose proof (f_equal fst G2) as G3. cbn [fst] in G3.
  assert (X : Ok l2 = Ok l') by (etransitivity; [symmetry; exact G3|exact Q]).
  injection X as <-. pose proof (midnight_spec date) as [_ M].
  pose proof (proj1 (midnight_spec date)) as B.
  split; [apply Il|apply Il2]; apply S; exists r; repeat split; auto;
    change (24 * time.Hour)%Z with 86400000000000%Z in *; rewrite ?M, E; lia.
Qed.

(** ** Appointments, continued *)

Lemma appointment_at_find st id :
  appointment_at st id
  = find (fun r => appointmentRepository.live r
                   && N.eqb (Appointment.ID r) id)
         (appointments st).
Proof.
  unfold appointment_at, appointmentRepository.FindByID, first_row.
  cbn [fst]. now destruct (find _ _).
Qed.

Lemma appointment_at_fst st id a :
  appointment_at st id = Some a
  <-> fst (appointmentRepository.FindByID id st) = Ok a.
Proof.
  unfold appointment_at.
  destruct (fst (appointmentRepository.FindByID id st)); split; congruence.
Qed.

Lemma appointment_at_key st id a :
  appointment_at st id = Some a -> Appointment.ID a = id.
Proof.
  intros H. apply appointment_at_fst in H. now apply FindByID_key in H.
Qed.

Lemma appointment_at_in st id a :
  appointment_at st id = Some a ->
  In a (appointments st) /\ Appointment.DeletedAt a = None.
Proof.
  intros H. apply appointment_at_fst, FindByID_inv in H. tauto.
Qed.

(** The appointments read back after one of them was saved. *)
Lemma appointment_at_saved st a a0 :
  appointment_at st (Appointment.ID a) = Some a0 ->
  Appointment.DeletedAt a = None ->
  let st' := set_appointments st
               (map (appointmentRepository.save_row a) (appointments st)) in
  appointment_at st' (Appointment.ID a) = Some a
  /\ (forall id, id <> Appointment.ID a ->
                 appointment_at st' id = appointment_at st id).
Proof.
  intros H D st'. split.
  - pose proof (appointment_at_key _ _ _ H) as K.
    apply appointment_at_in in H as [I _].
    rewrite appointment_at_find. unfold st'.
    cbn [appointments set_appointments]. rewrite find_save_row.
    + assert (E : existsb (fun r => N.eqb (Appointment.ID r) (Appointment.ID a))
                          (appointments st) = true).
      { apply existsb_exists. exists a0. split; [exact I|].
        now apply N.eqb_eq. }
      now rewrite E.
    + unfold appointmentRepository.live. now rewrite D.
  - intros id Hid. rewrite !appointment_at_find. unfold st'.
    cbn [appointments set_appointments].
    apply find_map_frame.
    + intros r. unfold appointmentRepository.save_row.
      destruct (N.eqb_spec (Appointment.ID r) (Appointment.ID a)) as [E|E];
        [|reflexivity].
      destruct (N.eqb_spec (Appointment.ID a) id) as [K|_]; [congruence|].
      destruct (N.eqb_spec (Appointment.ID r) id) as [K|_]; [congruence|].
      now rewrite !andb_false_r.
    + intros r Q. apply andb_true_iff in Q as [_ Q]. apply N.eqb_eq in Q.
      unfold appointmentRepository.save_row.
      destruct (N.eqb_spec (Appointment.ID r) (Appointment.ID a)); congruence.
Qed.

Lemma participant_check a userID :
  negb (N.eqb (Appointment.PatientID a) userID)
  && negb (N.eqb (Appointment.DoctorID a) userID) = false
  <-> participant a userID.
Proof.
  unfold participant.
  destruct (N.eqb_spec (Appointment.PatientID a) userID);
    destruct (N.eqb_spec (Appointment.DoctorID a) userID); cbn;
    intuition congruence.
Qed.

(** X7. The guards of [CreateAppointment], in their order: a doctor id that
    is no doctor of the directory gives [doctor not found]; then a patient
    id that is no patient gives [patient not found]; then a start before
    now gives [start time cannot be in the past]; then an end before the
    start gives [end time must be after start time].  Whatever the reason,
    a call that fails writes nothing. *)
Theorem create_appointment_validation now req st :
  let out := AppointmentService.CreateAppointment now req st in
  (~ has_role st (CreateAppointmentRequest.DoctorID req) "doctor" ->
   out = (Err "doctor not found", st))
  /\ (has_role st (CreateAppointmentRequest.DoctorID req) "doctor" ->
      ~ has_role st (CreateAppointmentRequest.PatientID req) "patient" ->
      out = (Err "patient not found", st))
  /\ (has_role st (CreateAppointmentRequest.DoctorID req) "doctor" ->
      has_role st (CreateAppointmentRequest.PatientID req) "patient" ->
      (CreateAppointmentRequest.StartTime req < now)%Z ->
      out = (Err "start time cannot be in the past", st))
  /\ (has_role st (CreateAppointmentRequest.DoctorID req) "doctor" ->
      has_role st (CreateAppointmentRequest.PatientID req) "patient" ->
      (now <= CreateAppointmentRequest.StartTime req)%Z ->
      (CreateAppointmentRequest.EndTime req
       < CreateAppointmentRequest.StartTime req)%Z ->
      out = (Err "end time must be after start time", st))
  /\ (is_ok (fst out) = false -> snd out = st).
Proof.
  cbv zeta. split; [|split; [|split; [|split]]];
    try apply (CreateAppointment_rejections now req st).
  rewrite CreateAppointment_eq.
  repeat match goal with
         | |- context [match ?x with _ => _ end] => destruct x; cbn; try easy
         end.
Qed.

Lemma appointment_at_none st id :
  appointment_at st id = None ->
  exists e, appointmentRepository.FindByID id st = (Err e, st).
Proof.
  unfold appointment_at. intros H.
  pose proof (FindByID_pure id st) as P.
  destruct (appointmentRepository.FindByID id st) as [[a|e] st0];
    [discriminate|]. cbn in P. subst st0. now exists e.
Qed.

(** [GetAppointmentDetails] as one decision tree over the store. *)
Lemma GetAppointmentDetails_eq appointmentID userID st :
  AppointmentService.GetAppointmentDetails appointmentID userID st =
  match appointment_at st appointmentID with
  | None => (Err "appointment not found", st)
  | Some a =>
    if negb (N.eqb (Appointment.PatientID a) userID)
       && negb (N.eqb (Appointment.DoctorID a) userID)
    then (Err "unauthorized to view this appointment", st)
    else (Ok a, st)
  end.
Proof.
  unfold AppointmentService.GetAppointmentDetails, bind, or_fail,
    appointmentRepository.LoadRelations.
  destruct (appointment_at st appointmentID) as [a|] eqn:A.
  - pose proof (appointment_at_key _ _ _ A) as K.
    apply appointment_at_FindByID in A. rewrite A.
    destruct (_ && _); [reflexivity|]. now rewrite K.
  - apply appointment_at_none in A as [e ->]. reflexivity.
Qed.

(** X9. [GetAppointmentDetails] never writes.  It returns an appointment
    exactly when that appointment is stored under the key and the caller is
    its patient or its doctor; it answers [appointment not found] exactly
    when nothing is stored under the key, and [unauthorized to view this
    appointment] exactly when the stored appointment has another patient
    and another doctor. *)
Theorem get_appointment_details_spec appointmentID userID st :
  let out := AppointmentService.GetAppointmentDetails appointmentID userID st in
  snd out = st
  /\ (forall a, fst out = Ok a
                <-> appointment_at st appointmentID = Some a
                    /\ participant a userID)
  /\ (fst out = Err "appointment not found"
      <-> appointment_at st appointmentID = None)
  /\ (fst out = Err "unauthorized to view this appointment"
      <-> exists a, appointment_at st appointmentID = Some a
                    /\ ~ participant a userID).
Proof.
  cbv zeta. rewrite GetAppointmentDetails_eq.
  destruct (appointment_at st appointmentID) as [a|] eqn:A.
  - pose proof (participant_check a userID) as P.
    destruct (negb (N.eqb (Appointment.PatientID a) userID)
              && negb (N.eqb (Appointment.DoctorID a) userID)); cbn.
    + assert (N : ~ participant a userID) by (intros Q; apply P in Q; easy).
      split; [reflexivity|]. split; [|split].
      * intros b. split; [discriminate|]. intros [[= <-] Q]. easy.
      * split; discriminate.
      * split; [|reflexivity]. intros _. now exists a.
    + assert (Q : participant a userID) by now apply P.
      split; [reflexivity|]. split; [|split].
      * intros b. split; [now intros [= <-]|]. now intros [[= <-] _].
      * split; discriminate.
      * split; [discriminate|]. intros (b & [= <-] & N). easy.
  - cbn. split; [reflexivity|]. split; [|split].
    + intros b. split; [discriminate|]. now intros [? _].
    + split; reflexivity.
    + split; [discriminate|]. now intros (b & ? & _).
Qed.

(** X10. A successful [CancelAppointment] was asked by the patient or the
    doctor of an appointment that was neither completed nor cancelled.
    Afterwards that appointment is stored with status [cancelled] and the
    time of the call as its [UpdatedAt], and nothing else changed in it;
    the other appointments, their number and all other tables are as they
    were; and cancelling again fails, with [appointment cannot be
    cancelled] for a participant and with the unauthorized error for
    anyone else. *)
Theorem cancel_appointment_effect now appointmentID userID st st' :
  AppointmentService.CancelAppointment now appointmentID userID st
  = (Ok tt, st') ->
  exists a,
    appointment_at st appointmentID = Some a
    /\ participant a userID
    /\ Appointment.Status a <> "completed"
    /\ Appointment.Status a <> "cancelled"
    /\ appointment_at st' appointmentID
       = Some (Appointment.with_UpdatedAt
                 (Appointment.with_Status a "cancelled") now)
    /\ (forall id, id <> appointmentID ->
                   appointment_at st' id = appointment_at st id)
    /\ (forall now' u, participant a u ->
                       AppointmentService.CancelAppointment now'
                         appointmentID u st'
                       = (Err "appointment cannot be cancelled", st'))
    /\ (forall now' u, ~ participant a u ->
                       AppointmentService.CancelAppointment now'
                         appointmentID u st'
                       = (Err "unauthorized to cancel this appointment", st'))
    /\ List.length (appointments st') = List.length (appointments st)
    /\ users st' = users st
    /\ availability_slots st' = availability_slots st
    /\ messages st' = messages st
    /\ prescriptions st' = prescriptions st
    /\ video_sessions st' = video_sessions st.
Proof.
  rewrite CancelAppointment_eq.
  destruct (fst (appointmentRepository.FindByID appointmentID st))
    as [a|e] eqn:F; [|discriminate].
  pose proof (FindByID_inv _ _ _ F) as (_ & K & D).
  apply appointment_at_fst in F as A.
  pose proof (participant_check a userID) as P.
  destruct (negb (N.eqb (Appointment.PatientID a) userID)
            && negb (N.eqb (Appointment.DoctorID a) userID));
    [discriminate|].
  destruct (String.eqb_spec (Appointment.Status a) "completed") as [S1|S1];
    [discriminate|].
  destruct (String.eqb_spec (Appointment.Status a) "cancelled") as [S2|S2];
    [discriminate|].
  cbn [orb]. intros [= <-]. exists a.
  set (a' := Appointment.with_UpdatedAt
               (Appointment.with_Status a "cancelled") now).
  assert (K' : Appointment.ID a' = appointmentID) by exact K.
  rewrite <- K' in A.
  destruct (appointment_at_saved st a' a A D) as [B C].
  cbv zeta in B, C. rewrite K' in *.
  set (st' := set_appointments st _) in *.
  apply appointment_at_fst in B as B'.
  split; [exact A|]. split; [now apply P|].
  split; [exact S1|]. split; [exact S2|].
  split; [exact B|]. split; [exact C|].
  split; [|split; [|split; [|repeat split]]].
  - intros now' u U. rewrite CancelAppointment_eq, B'.
    apply participant_check in U. cbn [Appointment.PatientID
      Appointment.DoctorID a' Appointment.with_Status
      Appointment.with_UpdatedAt]. rewrite U.
    cbn. reflexivity.
  - intros now' u U. rewrite CancelAppointment_eq, B'.
    pose proof (participant_check a u) as PU.
    cbn [Appointment.PatientID Appointment.DoctorID a'
           Appointment.with_Status Appointment.with_UpdatedAt].
    destruct (negb (N.eqb (Appointment.PatientID a) u)
              && negb (N.eqb (Appointment.DoctorID a) u));
      [reflexivity|]. exfalso. apply U. now apply PU.
  - unfold st'. cbn [appointments set_appointments]. apply length_map.
Qed.

(** X10 on a pending appointment: its patient cancels it at instant
    200. *)
Lemma cancel_appointment_effect_witness :
  AppointmentService.CancelAppointment 200 1 2 (booked_clinic "pending" "")
  = (Ok tt, booked_clinic_at 200 "cancelled" "")
  /\ exists a,
      appointment_at (booked_clinic "pending" "") 1 = Some a
      /\ participant a 2
      /\ appointment_at (booked_clinic_at 200 "cancelled" "") 1
         = Some (Appointment.with_UpdatedAt
                   (Appointment.with_Status a "cancelled") 200).
Proof.
  split; [reflexivity|].
  destruct (cancel_appointment_effect 200 1 2 (booked_clinic "pending" "")
              (booked_clinic_at 200 "cancelled" "") eq_refl)
    as (a & A & P & _ & _ & B & _).
  exists a. auto.
Defined.

Lemma appointment_created_frame now req st id a :
  appointment_at st id = Some a ->
  appointment_at (snd (AppointmentService.CreateAppointment now req st)) id
  = Some a.
Proof.
  intros A. now rewrite (proj2 (CreateAppointment_fails now req st)).
Qed.

Lemma apply_change_eq now c st :
  apply_change now c st =
  match c with
  | ViaUpdate req =>
      match AppointmentService.UpdateAppointmentStatus now req st with
      | (Ok _, st') => (Ok tt, st')
      | (Err e, st') => (Err e, st')
      end
  | ViaCancel appointmentID userID =>
      AppointmentService.CancelAppointment now appointmentID userID st
  end.
Proof. destruct c; reflexivity. Qed.

Ltac frame_done :=
  repeat split; try assumption; try congruence; try easy.

(** What a status change leaves of the appointments. *)
Lemma status_change_frame now c st id a :
  appointment_at st id = Some a ->
  exists a',
    appointment_at (snd (apply_change now c st)) id = Some a'
    /\ Appointment.ID a' = Appointment.ID a
    /\ Appointment.PatientID a' = Appointment.PatientID a
    /\ Appointment.DoctorID a' = Appointment.DoctorID a
    /\ Appointment.SlotID a' = Appointment.SlotID a
    /\ Appointment.CreatedAt a' = Appointment.CreatedAt a
    /\ (id <> change_target c -> a' = a).
Proof.
  intros A. rewrite apply_change_eq. destruct c as [req|appointmentID userID].
  - rewrite UpdateAppointmentStatus_eq. cbn [change_target].
    destruct (fst (appointmentRepository.FindByID
                     (UpdateAppointmentStatusRequest.AppointmentID req) st))
      as [a0|e] eqn:F; cbn [snd]; [|exists a; frame_done].
    destruct (negb _); cbn [snd]; [exists a; frame_done|].
    cbv zeta. destruct (existsb _ _); cbn [snd]; [exists a; frame_done|].
    pose proof (FindByID_inv _ _ _ F) as (_ & K & D).
    apply appointment_at_fst in F as A0.
    pose proof (updated_fields a0 (UpdateAppointmentStatusRequest.Status req)
                  (UpdateAppointmentStatusRequest.Notes req))
      as (U1 & U2 & U3 & U4 & _ & _ & U5 & _ & U6).
    set (a' := Appointment.with_UpdatedAt (updated a0 _ _) now) in *.
    assert (K' : Appointment.ID a'
                 = UpdateAppointmentStatusRequest.AppointmentID req)
      by (exact (eq_trans U1 K)).
    rewrite <- K' in A0.
    destruct (appointment_at_saved st a' a0 A0 (eq_trans U6 D)) as [B C].
    cbv zeta in B, C. rewrite K' in *.
    destruct (N.eq_dec id (UpdateAppointmentStatusRequest.AppointmentID req))
      as [->|N].
    + exists a'. rewrite A in A0. injection A0 as <-.
      split; [exact B|]. unfold a'.
      cbn [Appointment.ID Appointment.PatientID Appointment.DoctorID
             Appointment.SlotID Appointment.CreatedAt
             Appointment.with_UpdatedAt]. frame_done.
    + exists a. rewrite (C id N). frame_done.
  - rewrite CancelAppointment_eq. cbn [change_target].
    destruct (fst (appointmentRepository.FindByID appointmentID st))
      as [a0|e] eqn:F; cbn [snd]; [|exists a; frame_done].
    destruct (negb _ && negb _); cbn [snd]; [exists a; frame_done|].
    destruct (_ || _); cbn [snd]; [exists a; frame_done|].
    pose proof (FindByID_inv _ _ _ F) as (_ & K & D).
    apply appointment_at_fst in F as A0.
    set (a' := Appointment.with_UpdatedAt
                 (Appointment.with_Status a0 "cancelled") now).
    assert (K' : Appointment.ID a' = appointmentID) by exact K.
    rewrite <- K' in A0.
    destruct (appointment_at_saved st a' a0 A0 D) as [B C].
    cbv zeta in B, C. rewrite K' in *.
    destruct (N.eq_dec id appointmentID) as [->|N].
    + exists a'. rewrite A in A0. injection A0 as <-. frame_done.
    + exists a. rewrite (C id N). frame_done.
Qed.

(** X11. A stored appointment keeps its key, its patient, its doctor, its
    slot and its [CreatedAt] under every status change,
    [UpdateAppointmentStatus] or [CancelAppointment], accepted or refused,
    and is untouched by a change aimed at another appointment; and it is
    untouched by every booking. *)
Theorem appointment_parties_never_change st id a :
  appointment_at st id = Some a ->
  (forall now c, exists a',
        appointment_at (snd (apply_change now c st)) id = Some a'
        /\ Appointment.ID a' = Appointment.ID a
        /\ Appointment.PatientID a' = Appointment.PatientID a
        /\ Appointment.DoctorID a' = Appointment.DoctorID a
        /\ Appointment.SlotID a' = Appointment.SlotID a
        /\ Appointment.CreatedAt a' = Appointment.CreatedAt a
        /\ (id <> change_target c -> a' = a))
  /\ (forall now req,
         appointment_at
           (snd (AppointmentService.CreateAppointment now req st)) id
         = Some a).
Proof.
  intros A. split.
  - intros now c. now apply status_change_frame.
  - intros now req. now apply appointment_created_frame.
Qed.

(** X11 on a pending appointment that its doctor completes: patient 2 and
    doctor 1 stay. *)
Lemma appointment_parties_never_change_witness :
  appointment_at (booked_clinic "pending" "") 1
  = Some (appointment_1 "pending" "" 100)
  /\ exists a',
      appointment_at
        (snd (apply_change 200
                (ViaUpdate
                   (UpdateAppointmentStatusRequest.mk 1 1 "completed" "done"))
                (booked_clinic "pending" ""))) 1 = Some a'
      /\ Appointment.PatientID a' = 2%N
      /\ Appointment.DoctorID a' = 1%N.
Proof.
  split; [reflexivity|].
  destruct (proj1 (appointment_parties_never_change
                     (booked_clinic "pending" "") 1 _ eq_refl) 200%Z
              (ViaUpdate
                 (UpdateAppointmentStatusRequest.mk 1 1 "completed" "done")))
    as (a' & A & _ & P & D & _).
  exists a'. auto.
Defined.

Lemma save_row_keys a rows :
  map Appointment.ID (map (appointmentRepository.save_row a) rows)
  = map Appointment.ID rows.
Proof.
  rewrite map_map. apply map_ext. intros r.
  unfold appointmentRepository.save_row.
  destruct (N.eqb_spec (Appointment.ID r) (Appointment.ID a)) as [E|E];
    [|reflexivity].
  now rewrite E.
Qed.

Lemma NoDup_snoc {A} (l : list A) (x : A) :
  NoDup l -> ~ In x l -> NoDup (l ++ [x]).
Proof.
  intros N I. induction N as [|y l Hy N IH]; cbn.
  - constructor; [easy|constructor].
  - constructor.
    + rewrite in_app_iff. intros [H|[H|[]]]; [easy|]. apply I. now left.
    + apply IH. intros H. apply I. now right.
Qed.

Lemma stamp_key now a :
  Appointment.ID (appointmentRepository.stamp now a) = Appointment.ID a.
Proof.
  unfold appointmentRepository.stamp.
  destruct (time.IsZero (Appointment.CreatedAt a)); cbn;
    destruct (time.IsZero _); reflexivity.
Qed.

(** X12. When no two stored appointments share a key, every [Create] of a
    struct that has no key draws a key under which nothing was stored, and
    so would a booking that returned an appointment; the keys are still
    pairwise different after any call of [CreateAppointment] and after any
    status change, whatever they return. *)
Theorem appointment_keys_stay_unique st :
  unique_appointment_keys st ->
  (forall now req a st',
      AppointmentService.CreateAppointment now req st = (Ok a, st') ->
      appointment_at st (Appointment.ID a) = None
      /\ unique_appointment_keys st')
  /\ (forall now a0 a st',
         Appointment.ID a0 = 0%N ->
         appointmentRepository.Create now a0 st = (Ok a, st') ->
         (forall r, In r (appointments st) ->
                    Appointment.ID r <> Appointment.ID a)
         /\ unique_appointment_keys st')
  /\ (forall now req,
         unique_appointment_keys
           (snd (AppointmentService.CreateAppointment now req st)))
  /\ (forall now c, unique_appointment_keys (snd (apply_change now c st))).
Proof.
  intros U. split; [|split; [|split]].
  - intros now req a st' H.
    pose proof (proj1 (CreateAppointment_fails now req st)) as F.
    rewrite H in F. discriminate.
  - intros now a0 a st' Z.
    unfold appointmentRepository.Create. rewrite Z. cbn [N.eqb].
    destruct (existsb _ _); [discriminate|]. intros [= <- <-].
    rewrite stamp_key. cbn [Appointment.ID Appointment.with_ID].
    assert (F : forall r, In r (appointments st) ->
                          Appointment.ID r
                          <> next_id Appointment.ID (appointments st)).
    { intros r Hr E.
      pose proof (next_id_above Appointment.ID _ _ Hr) as L. lia. }
    split; [exact F|].
    unfold unique_appointment_keys. cbn [appointments set_appointments].
    rewrite map_app. apply NoDup_snoc; [exact U|]. cbn [map].
    rewrite stamp_key. cbn [Appointment.ID Appointment.with_ID].
    intros I. apply in_map_iff in I as (r & E & Hr). now apply (F r Hr).
  - intros now req. now rewrite (proj2 (CreateAppointment_fails now req st)).
  - intros now c. rewrite apply_change_eq.
    destruct c as [req|appointmentID userID].
    + rewrite UpdateAppointmentStatus_eq.
      destruct (fst (appointmentRepository.FindByID _ st)); [|exact U].
      destruct (negb _); [exact U|]. cbv zeta.
      destruct (existsb _ _); [exact U|].
      unfold unique_appointment_keys. cbn [snd appointments set_appointments].
      now rewrite save_row_keys.
    + rewrite CancelAppointment_eq.
      destruct (fst (appointmentRepository.FindByID _ st)); [|exact U].
      destruct (negb _ && negb _); [exact U|].
      destruct (_ || _); [exact U|].
      unfold unique_appointment_keys. cbn [snd appointments set_appointments].
      now rewrite save_row_keys.
Qed.

(** X12 on a clinic with one appointment: the doctor confirms it, and the
    keys are still apart. *)
Lemma appointment_keys_stay_unique_witness :
  unique_appointment_keys (booked_clinic "pending" "")
  /\ unique_appointment_keys
       (snd (apply_change 200
               (ViaUpdate
                  (UpdateAppointmentStatusRequest.mk 1 1 "confirmed" ""))
               (booked_clinic "pending" ""))).
Proof.
  assert (U : unique_appointment_keys (booked_clinic "pending" "")).
  { constructor; [intros []|constructor]. }
  split; [exact U|].
  apply (proj2 (proj2 (proj2 (appointment_keys_stay_unique _ U)))).
Defined.

(** *** The unique index *)

Lemma clashes_sym a r :
  appointmentRepository.clashes a r = appointmentRepository.clashes r a.
Proof.
  unfold appointmentRepository.clashes.
  rewrite (N.eqb_sym (Appointment.ID r)).
  destruct (appointmentRepository.indexed a),
           (appointmentRepository.indexed r); try reflexivity.
  now rewrite (N.eqb_sym u).
Qed.

Lemma no_clash_row a rows r :
  existsb (appointmentRepository.clashes a) rows = false ->
  In r rows -> appointmentRepository.clashes a r = false.
Proof.
  intros E I. destruct (appointmentRepository.clashes a r) eqn:C;
    [|reflexivity].
  assert (X : existsb (appointmentRepository.clashes a) rows = true)
    by (apply existsb_exists; now exists r).
  congruence.
Qed.

Lemma save_row_respects_index a rows :
  (forall r r', In r rows -> In r' rows ->
                appointmentRepository.clashes r r' = false) ->
  existsb (appointmentRepository.clashes a) rows = false ->
  forall r r',
    In r (map (appointmentRepository.save_row a) rows) ->
    In r' (map (appointmentRepository.save_row a) rows) ->
    appointmentRepository.clashes r r' = false.
Proof.
  intros X E r r' Hr Hr'.
  apply in_map_iff in Hr as (x & <- & Hx).
  apply in_map_iff in Hr' as (x' & <- & Hx').
  unfold appointmentRepository.save_row.
  destruct (N.eqb (Appointment.ID x) (Appointment.ID a)),
           (N.eqb (Appointment.ID x') (Appointment.ID a)).
  - unfold appointmentRepository.clashes. now rewrite N.eqb_refl.
  - now apply (no_clash_row a rows).
  - rewrite clashes_sym. now apply (no_clash_row a rows).
  - now apply X.
Qed.

(** X8. The unique index [uniq_slot_confirmed] and the status changes: a
    change leaves a table that respects the index respecting it; and when
    the doctor sets an appointment to pending or confirmed while another
    row is pending or confirmed on the same slot, the update is refused
    with the database's duplicate-key error and nothing is written. *)
Theorem status_changes_respect_unique_index now st :
  (forall c, index_respected st ->
             index_respected (snd (apply_change now c st)))
  /\ (forall req a r s,
         fst (appointmentRepository.FindByID
                (UpdateAppointmentStatusRequest.AppointmentID req) st) = Ok a ->
         Appointment.DoctorID a = UpdateAppointmentStatusRequest.DoctorID req ->
         UpdateAppointmentStatusRequest.Status req = "pending"
         \/ UpdateAppointmentStatusRequest.Status req = "confirmed" ->
         Appointment.SlotID a = Some s ->
         In r (appointments st) ->
         Appointment.ID r <> Appointment.ID a ->
         active r ->
         Appointment.SlotID r = Some s ->
         AppointmentService.UpdateAppointmentStatus now req st
         = (Err (sql.ErrUniqueViolation
                   appointmentRepository.uniq_slot_confirmed), st)).
Proof.
  split.
  - intros c X. rewrite apply_change_eq.
    destruct c as [req|appointmentID userID].
    + rewrite UpdateAppointmentStatus_eq.
      destruct (fst (appointmentRepository.FindByID _ st)); [|exact X].
      destruct (negb _); [exact X|]. cbv zeta.
      destruct (existsb _ _) eqn:E; [exact X|].
      unfold index_respected. cbn [snd appointments set_appointments].
      now apply save_row_respects_index.
    + rewrite CancelAppointment_eq.
      destruct (fst (appointmentRepository.FindByID _ st)); [|exact X].
      destruct (negb _ && negb _); [exact X|].
      destruct (_ || _); [exact X|].
      unfold index_respected. cbn [snd appointments set_appointments].
      apply save_row_respects_index; [exact X|].
      now apply no_clash_off_index.
  - intros req a r s F D T Sa Hr K A Sr.
    rewrite UpdateAppointmentStatus_eq, F, D, N.eqb_refl.
    cbn [negb]. cbv zeta.
    destruct (updated_fields a (UpdateAppointmentStatusRequest.Status req)
                (UpdateAppointmentStatusRequest.Notes req))
      as (I1 & _ & _ & I4 & I5 & _).
    assert (C : appointmentRepository.clashes
                  (Appointment.with_UpdatedAt
                     (updated a (UpdateAppointmentStatusRequest.Status req)
                        (UpdateAppointmentStatusRequest.Notes req)) now) r
                = true).
    { unfold appointmentRepository.clashes, appointmentRepository.indexed.
      cbn [Appointment.ID Appointment.Status Appointment.SlotID
           Appointment.with_UpdatedAt].
      rewrite I1, I4, I5, Sa, Sr.
      apply N.eqb_neq in K. rewrite K.
      destruct T as [-> | ->], A as [-> | ->]; cbn; apply N.eqb_refl. }
    assert (E : existsb
                  (appointmentRepository.clashes
                     (Appointment.with_UpdatedAt
                        (updated a (UpdateAppointmentStatusRequest.Status req)
                           (UpdateAppointmentStatusRequest.Notes req)) now))
                  (appointments st) = true)
      by (apply existsb_exists; now exists r).
    now rewrite E.
Qed.

(** X8 on the clinic where patient 2 has cancelled the booking of slot 1
    and patient 3 holds it: the table respects the index, and still does
    after patient 3 cancels; the doctor's attempt to confirm the cancelled
    appointment is refused and the table is as it was. *)
Lemma status_changes_respect_unique_index_witness :
  index_respected clinic_with_rebooked_slot
  /\ index_respected
       (snd (apply_change 200 (ViaCancel 2 3) clinic_with_rebooked_slot))
  /\ AppointmentService.UpdateAppointmentStatus 200
       (UpdateAppointmentStatusRequest.mk 1 1 "confirmed" "")
       clinic_with_rebooked_slot
     = (Err (sql.ErrUniqueViolation
               appointmentRepository.uniq_slot_confirmed),
        clinic_with_rebooked_slot).
Proof.
  assert (X : index_respected clinic_with_rebooked_slot).
  { intros r r' [<-|[<-|[]]] [<-|[<-|[]]]; reflexivity. }
  split; [exact X|]. split.
  - exact (proj1 (status_changes_respect_unique_index 200
                    clinic_with_rebooked_slot) (ViaCancel 2 3) X).
  - apply (proj2 (status_changes_respect_unique_index 200
                    clinic_with_rebooked_slot)
             (UpdateAppointmentStatusRequest.mk 1 1 "confirmed" "")
             (Appointment.mk 1 2 1 (Some 1%N) "cancelled" "" 100 150 None)
             (Appointment.mk 2 3 1 (Some 1%N) "pending" "" 160 160 None)
             1%N).
    + reflexivity.
    + reflexivity.
    + now right.
    + reflexivity.
    + right. now left.
    + discriminate.
    + now left.
    + reflexivity.
Defined.

(** *** Listings *)

Lemma insert_desc_perm {A} (key : A -> Time) (x : A) (l : list A) :
  Permutation (sql.insert_desc key x l) (x :: l).
Proof.
  induction l as [|y l IH]; cbn; [reflexivity|].
  destruct (Z.leb (key y) (key x)); [reflexivity|].
  rewrite IH. apply perm_swap.
Qed.

Lemma order_by_desc_perm {A} (key : A -> Time) (l : list A) :
  Permutation (sql.order_by_desc key l) l.
Proof.
  induction l as [|x l IH]; cbn; [reflexivity|].
  rewrite insert_desc_perm. now constructor.
Qed.

Lemma insert_desc_sorted {A} (key : A -> Time) (x : A) (l : list A) :
  StronglySorted (fun a b => (key b <= key a)%Z) l ->
  StronglySorted (fun a b => (key b <= key a)%Z) (sql.insert_desc key x l).
Proof.
  induction l as [|y l IH]; cbn; intros S.
  - constructor; [constructor|constructor].
  - inversion S as [|? ? S' F]; subst.
    destruct (Z.leb_spec (key y) (key x)) as [L|L].
    + constructor; [exact S|]. constructor; [exact L|].
      eapply Forall_impl; [|exact F]. cbn. intros b Hb. lia.
    + constructor; [now apply IH|].
      eapply Permutation_Forall;
        [apply Permutation_sym, insert_desc_perm|].
      constructor; [lia|exact F].
Qed.

Lemma order_by_desc_sorted {A} (key : A -> Time) (l : list A) :
  StronglySorted (fun a b => (key b <= key a)%Z) (sql.order_by_desc key l).
Proof.
  induction l as [|x l IH]; cbn; [constructor|].
  now apply insert_desc_sorted.
Qed.

Lemma find_unique (rows : list Appointment.t) (r : Appointment.t) :
  NoDup (map Appointment.ID rows) -> In r rows ->
  appointmentRepository.live r = true ->
  find (fun x => appointmentRepository.live x
                 && N.eqb (Appointment.ID x) (Appointment.ID r)) rows
  = Some r.
Proof.
  induction rows as [|y rows IH]; cbn; [easy|].
  intros N [->|I] L.
  - now rewrite L, N.eqb_refl.
  - inversion N as [|? ? Hy N']; subst.
    destruct (N.eqb_spec (Appointment.ID y) (Appointment.ID r)) as [E|_].
    + exfalso. apply Hy. rewrite E. now apply in_map.
    + rewrite andb_false_r. now apply IH.
Qed.

Lemma appointments_load_all st l :
  (forall a, In a l -> appointment_at st (Appointment.ID a) = Some a) ->
  AppointmentService.load_all l st = (Ok l, st).
Proof.
  induction l as [|a l IH]; intros H; cbn [AppointmentService.load_all];
    [reflexivity|].
  unfold bind, appointmentRepository.LoadRelations.
  rewrite (appointment_at_FindByID st _ a) by (apply H; now left).
  rewrite IH by (intros b Hb; apply H; now right). reflexivity.
Qed.

(** X13. When no two stored appointments share a key, [GetPatientAppointments]
    returns exactly the appointments of that patient that are not deleted,
    and [GetDoctorAppointments] exactly those of that doctor, each as it
    is stored and the later made first, whatever the database's choice
    among those made at the same instant; neither writes, and neither
    fails. *)
Theorem appointment_listings st :
  unique_appointment_keys st ->
  (forall order patientID,
      exists l,
        AppointmentService.GetPatientAppointments order patientID st
        = (Ok l, st)
        /\ Permutation l
             (filter (fun a => appointmentRepository.live a
                               && N.eqb (Appointment.PatientID a) patientID)
                     (appointments st))
        /\ StronglySorted
             (fun a b => (Appointment.CreatedAt b <= Appointment.CreatedAt a)%Z)
             l)
  /\ (forall order doctorID,
         exists l,
           AppointmentService.GetDoctorAppointments order doctorID st
           = (Ok l, st)
           /\ Permutation l
                (filter (fun a => appointmentRepository.live a
                                  && N.eqb (Appointment.DoctorID a) doctorID)
                        (appointments st))
           /\ StronglySorted
                (fun a b =>
                   (Appointment.CreatedAt b <= Appointment.CreatedAt a)%Z)
                l).
Proof.
  intros U.
  assert (P : forall order q,
             Permutation
               (sql.order_by_desc Appointment.CreatedAt
                  (sql.arrange order (filter q (appointments st))))
               (filter q (appointments st))).
  { intros order q. rewrite order_by_desc_perm. apply sql.arrange_perm. }
  assert (L : forall order q,
             (forall a, q a = true -> appointmentRepository.live a = true) ->
             AppointmentService.load_all
               (sql.order_by_desc Appointment.CreatedAt
                  (sql.arrange order (filter q (appointments st)))) st
             = (Ok (sql.order_by_desc Appointment.CreatedAt
                      (sql.arrange order (filter q (appointments st)))), st)).
  { intros order q Q. apply appointments_load_all. intros a I.
    apply (Permutation_in _ (P order q)) in I.
    apply filter_In in I as [I Qa]. rewrite appointment_at_find.
    now apply find_unique; [exact U|exact I|apply Q]. }
  split; intros order id; eexists; (split; [|split;
    [apply P|apply order_by_desc_sorted]]).
  - unfold AppointmentService.GetPatientAppointments,
      appointmentRepository.FindByPatientID, bind. apply L.
    intros a Q. now apply andb_true_iff in Q as [Q _].
  - unfold AppointmentService.GetDoctorAppointments,
      appointmentRepository.FindByDoctorID, bind. apply L.
    intros a Q. now apply andb_true_iff in Q as [Q _].
Qed.

(** X13 on a clinic with one appointment: patient 2 lists it. *)
Lemma appointment_listings_witness :
  unique_appointment_keys (booked_clinic "pending" "")
  /\ AppointmentService.GetPatientAppointments sql.backwards 2
       (booked_clinic "pending" "")
     = (Ok [appointment_1 "pending" "" 100], booked_clinic "pending" "").
Proof.
  assert (U : unique_appointment_keys (booked_clinic "pending" "")).
  { constructor; [intros []|constructor]. }
  split; [exact U|].
  destruct (proj1 (appointment_listings _ U) sql.backwards 2%N)
    as (l & G & P & _).
  apply Permutation_sym, Permutation_length_1_inv in P. now subst l.
Defined.
(** ** Video sessions, continued *)

Lemma session_FindByID_fst id st :
  fst (videoSessionRepository.FindByID id st)
  = first_row (fun v => N.eqb (VideoSession.ID v) id) (video_sessions st).
Proof. reflexivity. Qed.

(** [ValidateSessionAccess] as one decision tree over the store. *)
Lemma ValidateSessionAccess_eq sessionID userID st :
  VideoService.ValidateSessionAccess sessionID userID st =
  let st1 := set_log st (log st ++ [ReadByID VideoSessions sessionID]) in
  match fst (videoSessionRepository.FindByID sessionID st) with
  | Err _ => (Err "video session not found", st1)
  | Ok v =>
    match appointment_at st (VideoSession.AppointmentID v) with
    | None => (Err "appointment not found", st1)
    | Some a =>
      if negb (N.eqb (Appointment.PatientID a) userID)
         && negb (N.eqb (Appointment.DoctorID a) userID)
      then (Err "unauthorized to access this video session", st1)
      else (Ok tt, st1)
    end
  end.
Proof.
  unfold VideoService.ValidateSessionAccess, bind, or_fail.
  unfold videoSessionRepository.FindByID at 1. cbv zeta.
  rewrite session_FindByID_fst.
  destruct (first_row _ (video_sessions st)) as [v|e]; [|reflexivity].
  rewrite appointment_at_set_log. unfold appointment_at.
  destruct (fst (appointmentRepository.FindByID _ st)) as [a|e];
    [|reflexivity].
  destruct (_ && _); reflexivity.
Qed.

(** X14. [ValidateSessionAccess] changes no table and reads one row, the
    session.  It succeeds exactly when the session exists, its appointment
    exists and the caller is the patient or the doctor of that appointment;
    it answers [video session not found] exactly when there is no such
    session, and [unauthorized to access this video session] exactly when
    the appointment has another patient and another doctor. *)
Theorem validate_session_access_spec sessionID userID st :
  let out := VideoService.ValidateSessionAccess sessionID userID st in
  same_tables st (snd out)
  /\ log (snd out) = log st ++ [ReadByID VideoSessions sessionID]
  /\ (fst out = Ok tt
      <-> exists v a,
            fst (videoSessionRepository.FindByID sessionID st) = Ok v
            /\ appointment_at st (VideoSession.AppointmentID v) = Some a
            /\ participant a userID)
  /\ (fst out = Err "video session not found"
      <-> is_ok (fst (videoSessionRepository.FindByID sessionID st)) = false)
  /\ (fst out = Err "unauthorized to access this video session"
      <-> exists v a,
            fst (videoSessionRepository.FindByID sessionID st) = Ok v
            /\ appointment_at st (VideoSession.AppointmentID v) = Some a
            /\ ~ participant a userID).
Proof.
  cbv zeta. rewrite ValidateSessionAccess_eq. cbv zeta.
  destruct (fst (videoSessionRepository.FindByID sessionID st)) as [v|e];
    cbn [is_ok].
  2:{ cbn. repeat split; try easy.
      - now intros (v & a & ? & _).
      - now intros (v & a & ? & _). }
  destruct (appointment_at st (VideoSession.AppointmentID v)) as [a|] eqn:A.
  2:{ cbn. repeat split; try easy.
      - intros (v' & a & [= <-] & ? & _). congruence.
      - intros (v' & a & [= <-] & ? & _). congruence. }
  pose proof (participant_check a userID) as P.
  destruct (negb (N.eqb (Appointment.PatientID a) userID)
            && negb (N.eqb (Appointment.DoctorID a) userID)); cbn.
  - assert (N : ~ participant a userID) by (intros Q; apply P in Q; easy).
    repeat split; try easy.
    + intros (v' & a' & [= <-] & A' & Q). rewrite A in A'.
      injection A' as <-. easy.
    + intros _. now exists v, a.
  - assert (Q : participant a userID) by now apply P.
    repeat split; try easy.
    + intros _. now exists v, a.
    + intros (v' & a' & [= <-] & A' & N). rewrite A in A'.
      injection A' as <-. easy.
Qed.

Lemma session_query_map (f : VideoSession.t -> VideoSession.t) id rows :
  (forall v, VideoSession.ID (f v) = VideoSession.ID v) ->
  find (fun v => N.eqb (VideoSession.ID v) id) (map f rows)
  = option_map f (find (fun v => N.eqb (VideoSession.ID v) id) rows).
Proof.
  intros H. induction rows as [|y rows IH]; cbn; [reflexivity|].
  rewrite H. destruct (N.eqb _ id); [reflexivity|exact IH].
Qed.

(** What the two timestamp updates leave of the table of sessions. *)
Lemma session_stamped (set : VideoSession.t -> VideoSession.t) sessionID st l :
  (forall v, VideoSession.ID (set v) = VideoSession.ID v) ->
  let st' :=
    set_log
      (set_video_sessions st
         (map (fun v => if N.eqb (VideoSession.ID v) sessionID
                        then set v else v) (video_sessions st))) l in
  (forall v, fst (videoSessionRepository.FindByID sessionID st) = Ok v ->
             fst (videoSessionRepository.FindByID sessionID st') = Ok (set v))
  /\ (forall id, id <> sessionID ->
                 fst (videoSessionRepository.FindByID id st')
                 = fst (videoSessionRepository.FindByID id st)).
Proof.
  intros H st'. split.
  - intros v. rewrite !session_FindByID_fst. unfold first_row, st'.
    cbn [video_sessions set_video_sessions set_log].
    rewrite session_query_map
      by (intros x; destruct (N.eqb _ sessionID); [apply H|reflexivity]).
    destruct (find _ (video_sessions st)) as [x|] eqn:E; [|discriminate].
    intros [= <-]. apply find_some in E as [_ Q]. cbn. now rewrite Q.
  - intros id Hid. rewrite !session_FindByID_fst. unfold first_row, st'.
    cbn [video_sessions set_video_sessions set_log].
    rewrite session_query_map
      by (intros x; destruct (N.eqb _ sessionID); [apply H|reflexivity]).
    destruct (find _ (video_sessions st)) as [x|] eqn:E; [|reflexivity].
    apply find_some in E as [_ Q]. apply N.eqb_eq in Q. cbn.
    destruct (N.eqb_spec (VideoSession.ID x) sessionID); [congruence|].
    reflexivity.
Qed.

(** [StartVideoSession] and [EndVideoSession] as decision trees. *)
Lemma StartVideoSession_eq now sessionID userID st :
  VideoService.StartVideoSession now sessionID userID st =
  match VideoService.ValidateSessionAccess sessionID userID st with
  | (Ok _, st1) =>
      (Ok tt,
       set_log
         (set_video_sessions st1
            (map (fun v => if N.eqb (VideoSession.ID v) sessionID
                           then VideoSession.with_StartedAt v (Some now)
                           else v) (video_sessions st1)))
         (log st1 ++ [Mutation VideoSessions]))
  | (Err e, st1) => (Err e, st1)
  end.
Proof.
  unfold VideoService.StartVideoSession, bind.
  destruct (VideoService.ValidateSessionAccess sessionID userID st)
    as [[[]|e] st1]; reflexivity.
Qed.

Lemma EndVideoSession_eq now sessionID userID st :
  VideoService.EndVideoSession now sessionID userID st =
  match VideoService.ValidateSessionAccess sessionID userID st with
  | (Ok _, st1) =>
      (Ok tt,
       set_log
         (set_video_sessions st1
            (map (fun v => if N.eqb (VideoSession.ID v) sessionID
                           then VideoSession.with_EndedAt v (Some now)
                           else v) (video_sessions st1)))
         (log st1 ++ [Mutation VideoSessions]))
  | (Err e, st1) => (Err e, st1)
  end.
Proof.
  unfold VideoService.EndVideoSession, bind.
  destruct (VideoService.ValidateSessionAccess sessionID userID st)
    as [[[]|e] st1]; reflexivity.
Qed.

(** A successful check of the caller, read back. *)
Lemma ValidateSessionAccess_ok sessionID userID st st1 :
  VideoService.ValidateSessionAccess sessionID userID st = (Ok tt, st1) ->
  st1 = set_log st (log st ++ [ReadByID VideoSessions sessionID])
  /\ exists v a,
      fst (videoSessionRepository.FindByID sessionID st) = Ok v
      /\ appointment_at st (VideoSession.AppointmentID v) = Some a
      /\ participant a userID.
Proof.
  rewrite ValidateSessionAccess_eq. cbv zeta.
  destruct (fst (videoSessionRepository.FindByID sessionID st)) as [v|e];
    [|discriminate].
  destruct (appointment_at st (VideoSession.AppointmentID v)) as [a|] eqn:A;
    [|discriminate].
  pose proof (participant_check a userID) as P.
  destruct (_ && _); [discriminate|]. intros [= <-]. split; [reflexivity|].
  exists v, a. repeat split; auto. now apply P.
Qed.

(** X15. A successful [StartVideoSession] was asked by a participant of the
    session's appointment; it stores now as the start of that session,
    whatever the session held before (a session already started or already
    ended is started again), and changes no other session and no other
    table. *)
Theorem start_video_session_effect now sessionID userID st st' :
  VideoService.StartVideoSession now sessionID userID st = (Ok tt, st') ->
  exists v a,
    fst (videoSessionRepository.FindByID sessionID st) = Ok v
    /\ appointment_at st (VideoSession.AppointmentID v) = Some a
    /\ participant a userID
    /\ fst (videoSessionRepository.FindByID sessionID st')
       = Ok (VideoSession.with_StartedAt v (Some now))
    /\ (forall id, id <> sessionID ->
                   fst (videoSessionRepository.FindByID id st')
                   = fst (videoSessionRepository.FindByID id st))
    /\ List.length (video_sessions st') = List.length (video_sessions st)
    /\ users st' = users st
    /\ availability_slots st' = availability_slots st
    /\ appointments st' = appointments st
    /\ messages st' = messages st
    /\ prescriptions st' = prescriptions st.
Proof.
  rewrite StartVideoSession_eq.
  destruct (VideoService.ValidateSessionAccess sessionID userID st)
    as [[[]|e] st1] eqn:V; [|discriminate].
  apply ValidateSessionAccess_ok in V as (-> & v & a & F & A & P).
  intros [= <-]. exists v, a.
  cbn [video_sessions set_log].
  set (st0 := set_log st _).
  destruct (session_stamped
              (fun v => VideoSession.with_StartedAt v (Some now)) sessionID
              st0 (log st0 ++ [Mutation VideoSessions])
              (fun v => eq_refl)) as [B C].
  split; [exact F|]. split; [exact A|]. split; [exact P|].
  split; [apply B; exact F|]. split; [exact C|].
  repeat split. cbn. now rewrite length_map.
Qed.

(** X15 in the clinic with a session created for appointment 1: the patient starts it. *)
Lemma start_video_session_effect_witness :
  VideoService.StartVideoSession 100 1 2 clinic_in_session
  = (Ok tt,
     set_log
       (set_video_sessions clinic_in_session
          [VideoSession.mk 1 1 "room1" (Some 100%Z) None])
       [ReadByID VideoSessions 1; Mutation VideoSessions])
  /\ exists v a,
      fst (videoSessionRepository.FindByID 1 clinic_in_session) = Ok v
      /\ appointment_at clinic_in_session (VideoSession.AppointmentID v)
         = Some a
      /\ participant a 2.
Proof.
  split; [reflexivity|].
  destruct (start_video_session_effect 100 1 2 clinic_in_session _ eq_refl)
    as (v & a & F & A & P & _).
  exists v, a. auto.
Defined.

Lemma session_FindByID_in id st v :
  fst (videoSessionRepository.FindByID id st) = Ok v ->
  In v (video_sessions st) /\ VideoSession.ID v = id.
Proof.
  rewrite session_FindByID_fst. unfold first_row.
  destruct (find _ _) as [x|] eqn:E; [|discriminate]. intros [= <-].
  apply find_some in E as [I Q]. apply N.eqb_eq in Q. auto.
Qed.

Lemma appointment_FindByID_ext st st' id :
  appointments st' = appointments st ->
  fst (appointmentRepository.FindByID id st')
  = fst (appointmentRepository.FindByID id st).
Proof.
  intros H. unfold appointmentRepository.FindByID. rewrite H.
  now destruct (first_row _ _).
Qed.

(** X16. Once a session that has no end is started, its appointment has a live
    session, and every participant who then asks [CreateVideoSession] for
    that appointment gets the conflict error, and no session is stored. *)
Theorem started_session_blocks_create now sessionID userID st st' v :
  VideoService.StartVideoSession now sessionID userID st = (Ok tt, st') ->
  fst (videoSessionRepository.FindByID sessionID st) = Ok v ->
  VideoSession.EndedAt v = None ->
  has_live_session st' (VideoSession.AppointmentID v)
  /\ forall room req u a,
      CreateVideoSessionRequest.AppointmentID req
      = VideoSession.AppointmentID v ->
      appointment_at st (VideoSession.AppointmentID v) = Some a ->
      participant a u ->
      fst (VideoService.CreateVideoSession (Ok room) req u st')
      = Err "active video session already exists for this appointment"
      /\ video_sessions
           (snd (VideoService.CreateVideoSession (Ok room) req u st'))
         = video_sessions st'.
Proof.
  intros S F E.
  rewrite StartVideoSession_eq in S.
  destruct (VideoService.ValidateSessionAccess sessionID userID st)
    as [[[]|e] st1] eqn:V; [|discriminate].
  apply ValidateSessionAccess_ok in V as (-> & _).
  injection S as <-.
  set (st' := set_log _ _).
  assert (L : has_live_session st' (VideoSession.AppointmentID v)).
  { apply session_FindByID_in in F as [I K].
    exists (VideoSession.with_StartedAt v (Some now)).
    unfold st'. cbn [video_sessions set_log set_video_sessions]. split.
    - apply in_map_iff. exists v. rewrite K, N.eqb_refl. auto.
    - cbn. repeat split; [discriminate|exact E]. }
  split; [exact L|]. intros room req u a R A P.
  assert (A' : fst (appointmentRepository.FindByID
                      (CreateVideoSessionRequest.AppointmentID req) st')
               = Ok a).
  { rewrite R. apply appointment_at_fst in A.
    now rewrite (appointment_FindByID_ext st st' _ eq_refl). }
  rewrite (CreateVideoSession_eq room req u st' a A' P). cbv zeta.
  rewrite R.
  apply FindActiveByAppointment_spec in L. rewrite L. split; reflexivity.
Qed.

(** X16 in the clinic with a session created for appointment 1: once started, the session is live. *)
Lemma started_session_blocks_create_witness :
  VideoService.StartVideoSession 100 1 2 clinic_in_session
  = (Ok tt,
     set_log
       (set_video_sessions clinic_in_session
          [VideoSession.mk 1 1 "room1" (Some 100%Z) None])
       [ReadByID VideoSessions 1; Mutation VideoSessions])
  /\ fst (videoSessionRepository.FindByID 1 clinic_in_session)
     = Ok (VideoSession.mk 1 1 "room1" None None)
  /\ has_live_session
       (set_log
          (set_video_sessions clinic_in_session
             [VideoSession.mk 1 1 "room1" (Some 100%Z) None])
          [ReadByID VideoSessions 1; Mutation VideoSessions]) 1.
Proof.
  split; [reflexivity|]. split; [reflexivity|].
  exact (proj1 (started_session_blocks_create 100 1 2 clinic_in_session _
                  (VideoSession.mk 1 1 "room1" None None)
                  eq_refl eq_refl eq_refl)).
Defined.

(** X17. A successful [EndVideoSession] was asked by a participant of the
    session's appointment; it stores now as the end of that session,
    whatever the session held before (also when it was never started), and
    changes no other session and no other table.  The live sessions of
    every appointment are afterwards those of before, this one taken
    out. *)
Theorem end_video_session_effect now sessionID userID st st' :
  VideoService.EndVideoSession now sessionID userID st = (Ok tt, st') ->
  exists v a,
    fst (videoSessionRepository.FindByID sessionID st) = Ok v
    /\ appointment_at st (VideoSession.AppointmentID v) = Some a
    /\ participant a userID
    /\ fst (videoSessionRepository.FindByID sessionID st')
       = Ok (VideoSession.with_EndedAt v (Some now))
    /\ (forall id, id <> sessionID ->
                   fst (videoSessionRepository.FindByID id st')
                   = fst (videoSessionRepository.FindByID id st))
    /\ (forall appointmentID,
          live_sessions st' appointmentID
          = filter (fun v => negb (N.eqb (VideoSession.ID v) sessionID))
                   (live_sessions st appointmentID))
    /\ List.length (video_sessions st') = List.length (video_sessions st)
    /\ users st' = users st
    /\ availability_slots st' = availability_slots st
    /\ appointments st' = appointments st
    /\ messages st' = messages st
    /\ prescriptions st' = prescriptions st.
Proof.
  rewrite EndVideoSession_eq.
  destruct (VideoService.ValidateSessionAccess sessionID userID st)
    as [[[]|e] st1] eqn:V; [|discriminate].
  apply ValidateSessionAccess_ok in V as (-> & v & a & F & A & P).
  intros [= <-]. exists v, a.
  cbn [video_sessions set_log].
  set (st0 := set_log st _).
  destruct (session_stamped
              (fun v => VideoSession.with_EndedAt v (Some now)) sessionID
              st0 (log st0 ++ [Mutation VideoSessions])
              (fun v => eq_refl)) as [B C].
  split; [exact F|]. split; [exact A|]. split; [exact P|].
  split; [apply B; exact F|]. split; [exact C|].
  split; [|repeat split; cbn; now rewrite length_map].
  intros appointmentID. unfold live_sessions.
  cbn [video_sessions set_log set_video_sessions st0].
  induction (video_sessions st) as [|x rows IH]; cbn [map filter];
    [reflexivity|].
  destruct (N.eqb_spec (VideoSession.ID x) sessionID) as [K|K].
  - assert (Q : N.eqb (VideoSession.AppointmentID
                         (VideoSession.with_EndedAt x (Some now)))
                      appointmentID
                && videoSessionRepository.is_active
                     (VideoSession.with_EndedAt x (Some now)) = false).
    { unfold videoSessionRepository.is_active. cbn.
      destruct (VideoSession.StartedAt x); now rewrite andb_false_r. }
    rewrite Q.
    destruct (N.eqb (VideoSession.AppointmentID x) appointmentID
              && videoSessionRepository.is_active x); [|exact IH].
    cbn [filter]. apply N.eqb_eq in K. rewrite K. cbn [negb]. exact IH.
  - destruct (N.eqb (VideoSession.AppointmentID x) appointmentID
              && videoSessionRepository.is_active x); [|exact IH].
    cbn [filter]. apply N.eqb_neq in K. rewrite K. cbn [negb].
    now rewrite IH.
Qed.

(** X17 in the clinic with a session created for appointment 1: the doctor ends it. *)
Lemma end_video_session_effect_witness :
  VideoService.EndVideoSession 200 1 1 clinic_in_session
  = (Ok tt,
     set_log
       (set_video_sessions clinic_in_session
          [VideoSession.mk 1 1 "room1" None (Some 200%Z)])
       [ReadByID VideoSessions 1; Mutation VideoSessions])
  /\ exists v a,
      fst (videoSessionRepository.FindByID 1 clinic_in_session) = Ok v
      /\ appointment_at clinic_in_session (VideoSession.AppointmentID v)
         = Some a
      /\ participant a 1.
Proof.
  split; [reflexivity|].
  destruct (end_video_session_effect 200 1 1 clinic_in_session _ eq_refl)
    as (v & a & F & A & P & _).
  exists v, a. auto.
Defined.

(** *** Room identifiers *)

Lemma small_cases (n : N) :
  (n < 16)%N ->
  n = 0%N \/ n = 1%N \/ n = 2%N \/ n = 3%N \/ n = 4%N \/ n = 5%N \/ n = 6%N
  \/ n = 7%N \/ n = 8%N \/ n = 9%N \/ n = 10%N \/ n = 11%N \/ n = 12%N
  \/ n = 13%N \/ n = 14%N \/ n = 15%N.
Proof. lia. Qed.

Lemma unhex_hex n : (n < 16)%N -> json.unhex (json.hex n) = Some n.
Proof.
  intros H. apply small_cases in H.
  repeat (destruct H as [->|H]; [reflexivity|]). now subst.
Qed.

Lemma hex_lower n : (n < 16)%N -> lower_hex (json.hex n) = true.
Proof.
  intros H. apply small_cases in H.
  repeat (destruct H as [->|H]; [reflexivity|]). now subst.
Qed.

Lemma byte_inj c c' : utf8.byte c = utf8.byte c' -> c = c'.
Proof.
  unfold utf8.byte. intros H.
  rewrite <- (ascii_N_embedding c), <- (ascii_N_embedding c'). now rewrite H.
Qed.

Lemma EncodeToString_spec bytes :
  String.length (hex.EncodeToString bytes) = (2 * String.length bytes)%nat
  /\ all_chars lower_hex (hex.EncodeToString bytes) = true.
Proof.
  induction bytes as [|v rest [IH1 IH2]]; cbn [hex.EncodeToString
    String.length all_chars]; [easy|].
  pose proof (byte_bounded v) as B. split; [lia|].
  rewrite !hex_lower, IH2; [reflexivity| |].
  - apply N.mod_lt. lia.
  - apply N.Div0.div_lt_upper_bound. lia.
Qed.

Lemma EncodeToString_inj bytes :
  forall bytes', hex.EncodeToString bytes' = hex.EncodeToString bytes ->
                 bytes' = bytes.
Proof.
  induction bytes as [|v rest IH]; intros [|v' rest']; cbn; try easy.
  intros [= H1 H2 H3].
  pose proof (byte_bounded v) as B. pose proof (byte_bounded v') as B'.
  assert (Q1 : (utf8.byte v' / 16 = utf8.byte v / 16)%N).
  { apply (f_equal json.unhex) in H1.
    rewrite !unhex_hex in H1 by (apply N.Div0.div_lt_upper_bound; lia).
    congruence. }
  assert (Q2 : (utf8.byte v' mod 16 = utf8.byte v mod 16)%N).
  { apply (f_equal json.unhex) in H2.
    rewrite !unhex_hex in H2 by (apply N.mod_lt; lia).
    congruence. }
  f_equal; [|now apply IH]. apply byte_inj.
  rewrite (N.div_mod' (utf8.byte v') 16), (N.div_mod' (utf8.byte v) 16).
  now rewrite Q1, Q2.
Qed.

(** What a successful [CreateVideoSession] has done. *)
Lemma CreateVideoSession_inv roomID req userID st v st' :
  VideoService.CreateVideoSession roomID req userID st = (Ok v, st') ->
  exists room,
    roomID = Ok room
    /\ v = VideoSession.mk (next_id VideoSession.ID (video_sessions st))
             (CreateVideoSessionRequest.AppointmentID req) room None None
    /\ video_sessions st' = video_sessions st ++ [v].
Proof.
  intros H.
  destruct (appointment_at st (CreateVideoSessionRequest.AppointmentID req))
    as [a|] eqn:A.
  2:{ apply appointment_at_none in A as [e A].
      unfold VideoService.CreateVideoSession, bind, or_fail in H.
      rewrite A in H. discriminate. }
  destruct (negb (N.eqb (Appointment.PatientID a) userID)
            && negb (N.eqb (Appointment.DoctorID a) userID)) eqn:C.
  { apply appointment_at_FindByID in A.
    unfold VideoService.CreateVideoSession, bind, or_fail in H.
    rewrite A, C in H. discriminate. }
  apply participant_check in C. apply appointment_at_fst in A.
  destruct roomID as [room|e].
  - rewrite (CreateVideoSession_eq room req userID st a A C) in H.
    cbv zeta in H. destruct (is_ok _); [discriminate|].
    injection H as <- <-. exists room. auto.
  - apply appointment_at_fst, appointment_at_FindByID in A.
    unfold VideoService.CreateVideoSession, bind, or_fail, lift in H.
    rewrite A in H. apply participant_check in C. rewrite C in H.
    destruct (videoSessionRepository.FindActiveByAppointment _ st)
      as [[x|e'] st0]; [|discriminate].
    destruct (VideoSession.StartedAt x), (VideoSession.EndedAt x);
      discriminate.
Qed.

(** X18. [generateRoomID] returns an id only when the random source gave its
    bytes.  The id has two characters for each byte (32 for the 16 bytes
    asked for), all among [0123456789abcdef]; different bytes give
    different ids; and the id is the room of the session that
    [CreateVideoSession] stores. *)
Theorem generated_room_id random id :
  VideoService.generateRoomID random = Ok id ->
  exists bytes,
    random = Ok bytes
    /\ String.length id = (2 * String.length bytes)%nat
    /\ all_chars lower_hex id = true
    /\ (forall bytes', VideoService.generateRoomID (Ok bytes') = Ok id ->
                       bytes' = bytes)
    /\ (forall req userID st v st',
          VideoService.CreateVideoSession
            (VideoService.generateRoomID random) req userID st = (Ok v, st') ->
          VideoSession.RoomID v = id).
Proof.
  destruct random as [bytes|e]; cbn; [|discriminate]. intros [= <-].
  exists bytes. split; [reflexivity|].
  destruct (EncodeToString_spec bytes) as [L H].
  split; [exact L|]. split; [exact H|]. split.
  - intros bytes' [= E]. now apply EncodeToString_inj.
  - intros req userID st v st' C.
    apply CreateVideoSession_inv in C as (room & [= <-] & -> & _).
    reflexivity.
Qed.

(** X18 on sixteen bytes. *)
Lemma generated_room_id_witness :
  VideoService.generateRoomID (Ok "0123456789:;<=>?")
  = Ok "303132333435363738393a3b3c3d3e3f"
  /\ exists bytes,
      Ok "0123456789:;<=>?" = Ok bytes
      /\ String.length "303132333435363738393a3b3c3d3e3f"
         = (2 * String.length bytes)%nat.
Proof.
  split; [reflexivity|].
  destruct (generated_room_id (Ok "0123456789:;<=>?")
              "303132333435363738393a3b3c3d3e3f" eq_refl)
    as (bytes & E & L & _).
  exists bytes. auto.
Defined.

(** ** Chat *)

(** The check of the caller that opens every method of the chat service. *)
Lemma chat_gate {A} appointmentID userID msg (k : M A) st :
  (appointment <- or_fail (appointmentRepository.FindByID appointmentID)
                          "appointment not found" ;;
   if negb (N.eqb (Appointment.PatientID appointment) userID)
      && negb (N.eqb (Appointment.DoctorID appointment) userID)
   then fail msg else k) st
  = match appointment_at st appointmentID with
    | None => (Err "appointment not found", st)
    | Some a =>
      if negb (N.eqb (Appointment.PatientID a) userID)
         && negb (N.eqb (Appointment.DoctorID a) userID)
      then (Err msg, st) else k st
    end.
Proof.
  unfold bind, or_fail.
  destruct (appointment_at st appointmentID) as [a|] eqn:E.
  - apply appointment_at_FindByID in E. rewrite E.
    destruct (_ && _); reflexivity.
  - apply appointment_at_none in E as [e ->]. reflexivity.
Qed.

(** What a successful [SendMessage] has done. *)
Lemma SendMessage_inv req st m st' :
  ChatService.SendMessage req st = (Ok m, st') ->
  m = Message.mk (next_id Message.ID (messages st))
        (SendMessageRequest.AppointmentID req)
        (SendMessageRequest.SenderUserID req)
        (SendMessageRequest.Body req)
        (SendMessageRequest.AttachmentURL req) None
  /\ st' = set_log (set_messages st (messages st ++ [m]))
             ((log st ++ [Mutation Messages])
              ++ [ReadByID Messages (Message.ID m)])
  /\ exists a, appointment_at st (SendMessageRequest.AppointmentID req) = Some a
               /\ participant a (SendMessageRequest.SenderUserID req).
Proof.
  unfold ChatService.SendMessage. rewrite chat_gate.
  destruct (appointment_at st _) as [a|] eqn:A; [|discriminate].
  pose proof (participant_check a (SendMessageRequest.SenderUserID req)) as P.
  destruct (_ && _); [discriminate|].
  unfold bind, messageRepository.Create, messageRepository.LoadRelations,
    messageRepository.FindByID.
  cbn -[next_id find app Message.with_ID].
  set (m0 := Message.mk (next_id Message.ID (messages st))
               (SendMessageRequest.AppointmentID req)
               (SendMessageRequest.SenderUserID req)
               (SendMessageRequest.Body req)
               (SendMessageRequest.AttachmentURL req) None).
  change (Message.with_ID _ _) with m0.
  assert (F : find (fun x => N.eqb (Message.ID x) (Message.ID m0))
                   (messages st ++ [m0]) = Some m0).
  { apply (find_app_fresh Message.ID (messages st) m0 _ eq_refl).
    intros r Hr E. pose proof (next_id_above Message.ID _ _ Hr) as L.
    rewrite E in L. unfold m0 in L. cbn in L. lia. }
  unfold first_row. rewrite F. intros [= <- <-].
  split; [reflexivity|]. split; [reflexivity|]. exists a. split; [easy|].
  now apply P.
Qed.

(** X19. A successful [SendMessage] appends exactly one message, with a key
    that no stored message has, the appointment, sender, body and
    attachment of the request, and no read time; its sender is the patient
    or the doctor of the appointment; every other table is as it was. *)
Theorem send_message_effect req st m st' :
  ChatService.SendMessage req st = (Ok m, st') ->
  messages st' = messages st ++ [m]
  /\ Message.AppointmentID m = SendMessageRequest.AppointmentID req
  /\ Message.SenderUserID m = SendMessageRequest.SenderUserID req
  /\ Message.Body m = SendMessageRequest.Body req
  /\ Message.AttachmentURL m = SendMessageRequest.AttachmentURL req
  /\ Message.ReadAt m = None
  /\ (forall r, In r (messages st) -> Message.ID r <> Message.ID m)
  /\ (exists a, appointment_at st (SendMessageRequest.AppointmentID req)
                = Some a
                /\ participant a (SendMessageRequest.SenderUserID req))
  /\ users st' = users st
  /\ availability_slots st' = availability_slots st
  /\ appointments st' = appointments st
  /\ prescriptions st' = prescriptions st
  /\ video_sessions st' = video_sessions st.
Proof.
  intros H. apply SendMessage_inv in H as (-> & -> & E).
  repeat split; try exact E.
  intros r Hr K. pose proof (next_id_above Message.ID _ _ Hr) as L.
  rewrite K in L. cbn in L. lia.
Qed.

(** X19 on a confirmed appointment: the patient says hello. *)
Lemma send_message_effect_witness :
  ChatService.SendMessage (SendMessageRequest.mk 1 2 "hello" None)
    (booked_clinic "confirmed" "")
  = (Ok (Message.mk 1 1 2 "hello" None None),
     set_log
       (set_messages (booked_clinic "confirmed" "")
          [Message.mk 1 1 2 "hello" None None])
       [Mutation Messages; ReadByID Messages 1])
  /\ messages
       (set_log
          (set_messages (booked_clinic "confirmed" "")
             [Message.mk 1 1 2 "hello" None None])
          [Mutation Messages; ReadByID Messages 1])
     = messages (booked_clinic "confirmed" "")
       ++ [Message.mk 1 1 2 "hello" None None].
Proof.
  split; [reflexivity|].
  exact (proj1 (send_message_effect
                  (SendMessageRequest.mk 1 2 "hello" None)
                  (booked_clinic "confirmed" "") _ _ eq_refl)).
Defined.

Lemma MarkMessagesAsRead_inv now appointmentID userID st st' :
  ChatService.MarkMessagesAsRead now appointmentID userID st = (Ok tt, st') ->
  st' = set_log
          (set_messages st
             (map (fun m => if messageRepository.unread appointmentID userID m
                            then Message.with_ReadAt m (Some now) else m)
                  (messages st)))
          (log st ++ [Mutation Messages])
  /\ exists a, appointment_at st appointmentID = Some a
               /\ participant a userID.
Proof.
  unfold ChatService.MarkMessagesAsRead. rewrite chat_gate.
  destruct (appointment_at st _) as [a|] eqn:A; [|discriminate].
  pose proof (participant_check a userID) as P.
  destruct (_ && _); [discriminate|].
  unfold messageRepository.MarkAsRead, modify. intros [= <-].
  split; [reflexivity|]. exists a. split; [easy|]. now apply P.
Qed.

Lemma GetUnreadCount_eq appointmentID userID st :
  ChatService.GetUnreadCount appointmentID userID st =
  match appointment_at st appointmentID with
  | None => (Err "appointment not found", st)
  | Some a =>
    if negb (N.eqb (Appointment.PatientID a) userID)
       && negb (N.eqb (Appointment.DoctorID a) userID)
    then (Err "unauthorized to get unread count for this appointment", st)
    else (Ok (List.length
                (filter (messageRepository.unread appointmentID userID)
                        (messages st))),
          set_log st (log st ++ [ReadByAppointment Messages appointmentID]))
  end.
Proof. unfold ChatService.GetUnreadCount. now rewrite chat_gate. Qed.

Lemma appointment_at_ext st st' id :
  appointments st' = appointments st ->
  appointment_at st' id = appointment_at st id.
Proof.
  intros H. unfold appointment_at.
  now rewrite (appointment_FindByID_ext st st' id H).
Qed.

(** X20. After a successful [MarkMessagesAsRead], [GetUnreadCount] of the same
    caller for the same appointment is 0, and every message of that
    appointment sent by someone else has a read time. *)
Theorem marked_messages_are_read now appointmentID userID st st' :
  ChatService.MarkMessagesAsRead now appointmentID userID st = (Ok tt, st') ->
  fst (ChatService.GetUnreadCount appointmentID userID st') = Ok 0%nat
  /\ (forall m, In m (messages st') ->
                Message.AppointmentID m = appointmentID ->
                Message.SenderUserID m <> userID ->
                Message.ReadAt m <> None).
Proof.
  intros H. apply MarkMessagesAsRead_inv in H as (-> & a & A & P).
  assert (Z : forall m,
             In m (map (fun m => if messageRepository.unread appointmentID
                                       userID m
                                 then Message.with_ReadAt m (Some now) else m)
                       (messages st)) ->
             messageRepository.unread appointmentID userID m = false).
  { intros m I. apply in_map_iff in I as (x & <- & _).
    destruct (messageRepository.unread appointmentID userID x) eqn:U;
      [|exact U].
    unfold messageRepository.unread. cbn. now rewrite andb_false_r. }
  split.
  - rewrite GetUnreadCount_eq. set (st1 := set_log _ _).
    rewrite (appointment_at_ext st st1 appointmentID eq_refl), A.
    apply participant_check in P. rewrite P. unfold st1.
    cbn [fst messages set_log set_messages]. f_equal.
    induction (map _ (messages st)) as [|y l IH]; cbn; [reflexivity|].
    rewrite (Z y) by now left. apply IH. intros m I. apply Z. now right.
  - intros m I E S R. cbn [messages set_log set_messages] in I.
    apply Z in I. unfold messageRepository.unread in I.
    rewrite E, N.eqb_refl, R in I.
    destruct (N.eqb_spec (Message.SenderUserID m) userID); [easy|].
    discriminate.
Qed.

(** X20 on a chat with one unread message of the patient: the doctor marks it, and the count goes from 1 to 0. *)
Lemma marked_messages_are_read_witness :
  let st := set_messages (booked_clinic "confirmed" "")
              [Message.mk 1 1 2 "hello" None None] in
  ChatService.MarkMessagesAsRead 50 1 1 st
  = (Ok tt,
     set_log
       (set_messages st [Message.mk 1 1 2 "hello" None (Some 50%Z)])
       [Mutation Messages])
  /\ fst (ChatService.GetUnreadCount 1 1 st) = Ok 1%nat
  /\ fst (ChatService.GetUnreadCount 1 1
            (set_log
               (set_messages st [Message.mk 1 1 2 "hello" None (Some 50%Z)])
               [Mutation Messages])) = Ok 0%nat.
Proof.
  split; [reflexivity|]. split; [reflexivity|].
  exact (proj1 (marked_messages_are_read 50 1 1
                  (set_messages (booked_clinic "confirmed" "")
                     [Message.mk 1 1 2 "hello" None None]) _ eq_refl)).
Defined.

(** X21. A successful [MarkMessagesAsRead] keeps the number of messages.  The
    caller's own messages, the messages of other appointments and the
    messages already read are as they were (an earlier read time is never
    overwritten); every message afterwards is a message of before, or an
    unread message of that appointment from someone else with now as its
    read time.  Every other table is as it was. *)
Theorem mark_as_read_frame now appointmentID userID st st' :
  ChatService.MarkMessagesAsRead now appointmentID userID st = (Ok tt, st') ->
  List.length (messages st') = List.length (messages st)
  /\ (forall m, In m (messages st) ->
                Message.AppointmentID m <> appointmentID
                \/ Message.SenderUserID m = userID
                \/ Message.ReadAt m <> None ->
                In m (messages st'))
  /\ (forall m', In m' (messages st') ->
        exists m, In m (messages st)
                  /\ (m' = m
                      \/ (m' = Message.with_ReadAt m (Some now)
                          /\ Message.ReadAt m = None
                          /\ Message.AppointmentID m = appointmentID
                          /\ Message.SenderUserID m <> userID)))
  /\ users st' = users st
  /\ availability_slots st' = availability_slots st
  /\ appointments st' = appointments st
  /\ prescriptions st' = prescriptions st
  /\ video_sessions st' = video_sessions st.
Proof.
  intros H. apply MarkMessagesAsRead_inv in H as (-> & _).
  cbn [messages set_log set_messages].
  split; [now rewrite length_map|]. split; [|split; [|repeat split]].
  - intros m I C. apply in_map_iff. exists m. split; [|exact I].
    unfold messageRepository.unread.
    destruct C as [C|[C|C]].
    + destruct (N.eqb_spec (Message.AppointmentID m) appointmentID);
        [easy|reflexivity].
    + rewrite C, N.eqb_refl. cbn. now rewrite andb_false_r.
    + destruct (Message.ReadAt m); [|easy]. now rewrite andb_false_r.
  - intros m' I. apply in_map_iff in I as (m & <- & I). exists m.
    split; [exact I|].
    destruct (messageRepository.unread appointmentID userID m) eqn:U;
      [right|now left].
    unfold messageRepository.unread in U.
    apply andb_true_iff in U as [U R]. apply andb_true_iff in U as [U S].
    apply N.eqb_eq in U. apply negb_true_iff, N.eqb_neq in S.
    destruct (Message.ReadAt m); [discriminate|]. auto.
Qed.

(** X21 on a chat with one message of each participant: the doctor marks, and both messages are still there. *)
Lemma mark_as_read_frame_witness :
  let st := set_messages (booked_clinic "confirmed" "")
              [Message.mk 1 1 2 "hello" None None;
               Message.mk 2 1 1 "good morning" None None] in
  ChatService.MarkMessagesAsRead 50 1 1 st
  = (Ok tt,
     set_log
       (set_messages st
          [Message.mk 1 1 2 "hello" None (Some 50%Z);
           Message.mk 2 1 1 "good morning" None None])
       [Mutation Messages])
  /\ List.length
       (messages
          (set_log
             (set_messages st
                [Message.mk 1 1 2 "hello" None (Some 50%Z);
                 Message.mk 2 1 1 "good morning" None None])
             [Mutation Messages]))
     = List.length (messages st).
Proof.
  split; [reflexivity|].
  exact (proj1 (mark_as_read_frame 50 1 1
                  (set_messages (booked_clinic "confirmed" "")
                     [Message.mk 1 1 2 "hello" None None;
                      Message.mk 2 1 1 "good morning" None None])
                  _ eq_refl)).
Defined.

(** X22. After a successful [SendMessage], the unread count of a participant
    of the appointment is one more than before when the participant is not
    the sender, and what it was for the sender. *)
Theorem sent_message_is_unread_for_the_other req st m st' :
  ChatService.SendMessage req st = (Ok m, st') ->
  forall u a,
    appointment_at st (SendMessageRequest.AppointmentID req) = Some a ->
    participant a u ->
    exists n,
      fst (ChatService.GetUnreadCount (SendMessageRequest.AppointmentID req)
             u st) = Ok n
      /\ fst (ChatService.GetUnreadCount
                (SendMessageRequest.AppointmentID req) u st')
         = Ok (if N.eqb u (SendMessageRequest.SenderUserID req)
               then n else S n).
Proof.
  intros H u a A P. apply SendMessage_inv in H as (-> & -> & _).
  set (st1 := set_log _ _).
  rewrite !GetUnreadCount_eq.
  rewrite (appointment_at_ext st st1 _ eq_refl), A.
  apply participant_check in P. rewrite P. cbn [fst].
  eexists. split; [reflexivity|]. f_equal. unfold st1.
  cbn [messages set_log set_messages]. rewrite filter_app, length_app.
  cbn [filter]. unfold messageRepository.unread at 2.
  cbn [Message.AppointmentID Message.SenderUserID Message.ReadAt].
  rewrite N.eqb_refl, (N.eqb_sym (SendMessageRequest.SenderUserID req) u).
  destruct (N.eqb u (SendMessageRequest.SenderUserID req)); cbn; lia.
Qed.

(** X22 on a confirmed appointment: after the patient's message the doctor has one more unread message. *)
Lemma sent_message_is_unread_for_the_other_witness :
  ChatService.SendMessage (SendMessageRequest.mk 1 2 "hello" None)
    (booked_clinic "confirmed" "")
  = (Ok (Message.mk 1 1 2 "hello" None None),
     set_log
       (set_messages (booked_clinic "confirmed" "")
          [Message.mk 1 1 2 "hello" None None])
       [Mutation Messages; ReadByID Messages 1])
  /\ exists n,
      fst (ChatService.GetUnreadCount 1 1 (booked_clinic "confirmed" ""))
      = Ok n
      /\ fst (ChatService.GetUnreadCount 1 1
                (set_log
                   (set_messages (booked_clinic "confirmed" "")
                      [Message.mk 1 1 2 "hello" None None])
                   [Mutation Messages; ReadByID Messages 1]))
         = Ok (S n).
Proof.
  split; [reflexivity|].
  exact (sent_message_is_unread_for_the_other
           (SendMessageRequest.mk 1 2 "hello" None)
           (booked_clinic "confirmed" "") _ _ eq_refl
           1%N (appointment_1 "confirmed" "" 100) eq_refl
           (or_intror eq_refl)).
Defined.

Lemma messages_load_all_length ms :
  forall st l st', ChatService.load_all ms st = (Ok l, st') ->
                   List.length l = List.length ms.
Proof.
  induction ms as [|m ms IH]; intros st l st'.
  - cbn. unfold ret. now intros [= <- _].
  - change (ChatService.load_all (m :: ms))
      with (bind (messageRepository.LoadRelations m)
              (fun m' => bind (ChatService.load_all ms)
                           (fun rest' => ret (m' :: rest')))).
    unfold bind.
    destruct (messageRepository.LoadRelations m st) as [[m'|e] st1];
      cbv beta iota; [|discriminate].
    destruct (ChatService.load_all ms st1) as [[l'|e] st2] eqn:L;
      cbv beta iota; [|discriminate].
    unfold ret. intros [= <- _]. cbn. f_equal. now apply (IH st1 l' st2).
Qed.

Lemma GetMessages_length appointmentID userID limit offset st ms :
  fst (ChatService.GetMessages appointmentID userID limit offset st) = Ok ms ->
  (List.length ms <= limit)%nat.
Proof.
  unfold ChatService.GetMessages. rewrite chat_gate.
  destruct (appointment_at st appointmentID); [|discriminate].
  destruct (_ && _); [discriminate|].
  unfold bind, messageRepository.FindByAppointmentID.
  set (page := firstn limit _). set (st1 := set_log _ _).
  destruct (ChatService.load_all page st1) as [[l|e] st2] eqn:L;
    cbv beta iota; [|discriminate].
  cbn. intros [= <-]. apply messages_load_all_length in L. rewrite L.
  unfold page. apply firstn_le_length.
Qed.

(** X23. The page of the chat handler: the limit is always between 1 and 100
    and the offset never negative, whatever the query holds.  A limit that
    parses as a number in 1..100 is used; one that does not parse, or
    parses outside that range, gives the default 50 (it is not clamped).
    The handler never returns more messages than the limit, so never more
    than 100. *)
Theorem chat_page_is_bounded appointmentID userID limitStr offsetStr st :
  (1 <= ChatHandler.limit_of limitStr <= 100)%Z
  /\ (0 <= ChatHandler.offset_of offsetStr)%Z
  /\ (forall l, strconv.Atoi limitStr = Ok l ->
                ChatHandler.limit_of limitStr
                = if Z.ltb 0 l && Z.leb l 100 then l else 50%Z)
  /\ (is_ok (strconv.Atoi limitStr) = false ->
      ChatHandler.limit_of limitStr = 50%Z)
  /\ (forall ms,
        fst (ChatHandler.GetMessages appointmentID userID limitStr offsetStr st)
        = Ok ms ->
        (Z.of_nat (List.length ms) <= ChatHandler.limit_of limitStr)%Z
        /\ (List.length ms <= 100)%nat).
Proof.
  assert (B : (1 <= ChatHandler.limit_of limitStr <= 100)%Z).
  { unfold ChatHandler.limit_of. destruct (String.eqb limitStr ""); [lia|].
    destruct (strconv.Atoi limitStr) as [l|e]; [|lia].
    destruct (Z.ltb_spec 0 l); destruct (Z.leb_spec l 100); cbn; lia. }
  split; [exact B|]. split; [|split; [|split]].
  - unfold ChatHandler.offset_of. destruct (String.eqb offsetStr ""); [lia|].
    destruct (strconv.Atoi offsetStr) as [o|e]; [|lia].
    destruct (Z.leb_spec 0 o); lia.
  - intros l A. unfold ChatHandler.limit_of.
    destruct (String.eqb_spec limitStr "") as [->|_];
      [cbn in A; discriminate|].
    now rewrite A.
  - unfold ChatHandler.limit_of. destruct (String.eqb limitStr "");
      [reflexivity|]. now destruct (strconv.Atoi limitStr).
  - intros ms H. unfold ChatHandler.GetMessages in H.
    apply GetMessages_length in H. lia.
Qed.

(** *** What no operation on a sub-resource does *)

Lemma message_kept_refl m : message_kept m m.
Proof. now split. Qed.

Lemma message_kept_trans m1 m2 m3 :
  message_kept m1 m2 -> message_kept m2 m3 -> message_kept m1 m3.
Proof.
  intros [A1 B1] [A2 B2]. split; [congruence|].
  intros R. specialize (B1 R). subst m2. now apply B2.
Qed.

Lemma Forall2_kept_refl l : Forall2 message_kept l l.
Proof. induction l; constructor; [apply message_kept_refl|assumption]. Qed.

Lemma Forall2_kept_trans l1 :
  forall l2 l3, Forall2 message_kept l1 l2 -> Forall2 message_kept l2 l3 ->
                Forall2 message_kept l1 l3.
Proof.
  induction l1 as [|a l1 IH]; intros l2 l3 H1 H2.
  - inversion H1; subst. inversion H2; subst. constructor.
  - inversion H1 as [|? b ? l2' K1 F1]; subst.
    inversion H2 as [|? c ? l3' K2 F2]; subst.
    constructor; [eapply message_kept_trans; eassumption|].
    eapply IH; eassumption.
Qed.

Lemma history_kept_refl st : history_kept st st.
Proof.
  split; [|auto]. exists (messages st), []. rewrite app_nil_r.
  split; [reflexivity|apply Forall2_kept_refl].
Qed.

Lemma history_kept_trans st1 st2 st3 :
  history_kept st1 st2 -> history_kept st2 st3 -> history_kept st1 st3.
Proof.
  intros [(o1 & e1 & M1 & F1) (U1 & S1 & A1)]
         [(o2 & e2 & M2 & F2) (U2 & S2 & A2)].
  split; [|repeat split; congruence].
  rewrite M1 in F2. apply Forall2_app_inv_l in F2 as (p & q & F3 & F4 & ->).
  exists p, (q ++ e2). split; [now rewrite M2, app_assoc|].
  eapply Forall2_kept_trans; eassumption.
Qed.

(** A store that differs only in tables other than those kept. *)
Lemma history_kept_same st st' :
  messages st' = messages st -> users st' = users st ->
  availability_slots st' = availability_slots st ->
  appointments st' = appointments st -> history_kept st st'.
Proof.
  intros M U S A. split; [|auto]. exists (messages st), [].
  rewrite app_nil_r. split; [exact M|apply Forall2_kept_refl].
Qed.

Lemma keeps_ret {A} (a : A) : keeps_history (ret a).
Proof. intros st. apply history_kept_refl. Qed.

Lemma keeps_fail {A} msg : keeps_history (@fail A msg).
Proof. intros st. apply history_kept_refl. Qed.

Lemma keeps_lift {A} (r : result A) : keeps_history (lift r).
Proof. intros st. apply history_kept_refl. Qed.

Lemma keeps_bind {A B} (c : M A) (k : A -> M B) :
  keeps_history c -> (forall a, keeps_history (k a)) ->
  keeps_history (bind c k).
Proof.
  intros Hc Hk st. unfold bind. specialize (Hc st).
  destruct (c st) as [[a|e] st1]; cbn [snd] in *; [|exact Hc].
  eapply history_kept_trans; [exact Hc|apply Hk].
Qed.

Lemma keeps_or_fail {A} (c : M A) msg :
  keeps_history c -> keeps_history (or_fail c msg).
Proof.
  intros Hc st. unfold or_fail. specialize (Hc st).
  now destruct (c st) as [[a|e] st1].
Qed.

Ltac same_history :=
  intros st; apply history_kept_same; try reflexivity.

Lemma keeps_appointment_FindByID id :
  keeps_history (appointmentRepository.FindByID id).
Proof.
  intros st. rewrite FindByID_pure. apply history_kept_refl.
Qed.

Lemma keeps_user_FindByID id : keeps_history (userRepository.FindByID id).
Proof. same_history. Qed.

Lemma keeps_message_FindByID id : keeps_history (messageRepository.FindByID id).
Proof. same_history. Qed.

Lemma keeps_message_FindByAppointmentID id limit offset :
  keeps_history (messageRepository.FindByAppointmentID id limit offset).
Proof. same_history. Qed.

Lemma keeps_message_GetUnreadCount id u :
  keeps_history (messageRepository.GetUnreadCount id u).
Proof. same_history. Qed.

Lemma keeps_message_Create m : keeps_history (messageRepository.Create m).
Proof.
  intros st. split; [|auto]. cbn. eexists (messages st), [_].
  split; [reflexivity|apply Forall2_kept_refl].
Qed.

Lemma keeps_message_MarkAsRead now id u :
  keeps_history (messageRepository.MarkAsRead now id u).
Proof.
  intros st. split; [|auto]. cbn. eexists _, []. rewrite app_nil_r.
  split; [reflexivity|].
  induction (messages st) as [|m l IH]; cbn; constructor; [|exact IH].
  destruct (messageRepository.unread id u m) eqn:U;
    [|apply message_kept_refl].
  split; [reflexivity|]. unfold messageRepository.unread in U.
  destruct (Message.ReadAt m); [now rewrite andb_false_r in U|easy].
Qed.

Lemma keeps_prescription_FindByID id :
  keeps_history (prescriptionRepository.FindByID id).
Proof. same_history. Qed.

Lemma keeps_prescription_FindByAppointmentID id :
  keeps_history (prescriptionRepository.FindByAppointmentID id).
Proof. same_history. Qed.

Lemma keeps_prescription_Create p :
  keeps_history (prescriptionRepository.Create p).
Proof. same_history. Qed.

Lemma keeps_prescription_Update p :
  keeps_history (prescriptionRepository.Update p).
Proof. same_history. Qed.

Lemma keeps_prescription_Delete now id :
  keeps_history (prescriptionRepository.Delete now id).
Proof. same_history. Qed.

Lemma keeps_session_FindByID id :
  keeps_history (videoSessionRepository.FindByID id).
Proof. same_history. Qed.

Lemma keeps_session_FindByAppointmentID id :
  keeps_history (videoSessionRepository.FindByAppointmentID id).
Proof. same_history. Qed.

Lemma keeps_session_FindActive id :
  keeps_history (videoSessionRepository.FindActiveByAppointment id).
Proof. same_history. Qed.

Lemma keeps_session_Create v : keeps_history (videoSessionRepository.Create v).
Proof. same_history. Qed.

Lemma keeps_session_UpdateStartedAt id t :
  keeps_history (videoSessionRepository.UpdateStartedAt id t).
Proof. same_history. Qed.

Lemma keeps_session_UpdateEndedAt id t :
  keeps_history (videoSessionRepository.UpdateEndedAt id t).
Proof. same_history. Qed.

Ltac keeps_step :=
  first
    [ apply keeps_ret | apply keeps_fail | apply keeps_lift
    | apply keeps_or_fail
    | apply keeps_appointment_FindByID | apply keeps_user_FindByID
    | apply keeps_message_FindByID | apply keeps_message_FindByAppointmentID
    | apply keeps_message_GetUnreadCount | apply keeps_message_Create
    | apply keeps_message_MarkAsRead
    | apply keeps_prescription_FindByID
    | apply keeps_prescription_FindByAppointmentID
    | apply keeps_prescription_Create | apply keeps_prescription_Update
    | apply keeps_prescription_Delete
    | apply keeps_session_FindByID | apply keeps_session_FindByAppointmentID
    | apply keeps_session_FindActive | apply keeps_session_Create
    | apply keeps_session_UpdateStartedAt | apply keeps_session_UpdateEndedAt
    | assumption
    | apply keeps_bind; [|intros ?]
    | match goal with
      | |- keeps_history (if ?b then _ else _) => destruct b
      | |- keeps_history (match ?x with _ => _ end) => destruct x
      end ].

Ltac keeps := repeat keeps_step.

Lemma keeps_messages_load_all ms : keeps_history (ChatService.load_all ms).
Proof.
  induction ms as [|m ms IH]; cbn [ChatService.load_all];
    unfold messageRepository.LoadRelations; keeps.
Qed.

Lemma keeps_prescriptions_load_all ps :
  keeps_history (PrescriptionService.load_all ps).
Proof.
  induction ps as [|p ps IH]; cbn [PrescriptionService.load_all];
    unfold prescriptionRepository.LoadRelations; keeps.
Qed.

Lemma keeps_sessions_load_all vs : keeps_history (VideoService.load_all vs).
Proof.
  induction vs as [|v vs IH]; cbn [VideoService.load_all];
    unfold videoSessionRepository.LoadRelations; keeps.
Qed.

Lemma keeps_ValidateSessionAccess sessionID userID :
  keeps_history (VideoService.ValidateSessionAccess sessionID userID).
Proof. unfold VideoService.ValidateSessionAccess. keeps. Qed.

Lemma keeps_CreateVideoSession roomID req userID :
  keeps_history (VideoService.CreateVideoSession roomID req userID).
Proof.
  unfold VideoService.CreateVideoSession. keeps.
  intros st.
  pose proof (keeps_session_FindActive
                (CreateVideoSessionRequest.AppointmentID req) st) as K.
  destruct (videoSessionRepository.FindActiveByAppointment _ st)
    as [existing st1]. cbn [snd] in K.
  match goal with
  | |- history_kept _ (snd (if ?c then _ else _)) => destruct c
  end; [exact K|].
  eapply history_kept_trans; [exact K|].
  revert st1 K. intros st1 _. revert st1.
  change (keeps_history
            (roomID0 <- lift roomID ;;
             videoSession <-
               videoSessionRepository.Create
                 (VideoSession.mk 0
                    (CreateVideoSessionRequest.AppointmentID req)
                    roomID0 None None) ;;
             videoSessionRepository.LoadRelations videoSession)).
  unfold videoSessionRepository.LoadRelations. keeps.
Qed.

(** X24. No method of the chat, prescription and video-session services,
    whoever calls it and whether it is accepted or refused, edits or
    removes a message: afterwards the table of messages is the one of
    before, each message with its key, appointment, sender, body and
    attachment (and a message that had a read time wholly unchanged),
    possibly followed by new messages.  None of them touches the users, the
    slots or the appointments. *)
Theorem sub_resource_operations_keep_history op userID st :
  history_kept st (snd (run_op op userID st)).
Proof.
  revert st. change (keeps_history (run_op op userID)).
  destruct op; cbn [run_op]; unfold void;
    try apply keeps_CreateVideoSession;
    unfold ChatService.SendMessage, ChatService.GetMessages,
      ChatService.UploadAttachment, ChatService.MarkMessagesAsRead,
      ChatService.GetUnreadCount, PrescriptionService.CreatePrescription,
      PrescriptionService.GetPrescriptions,
      PrescriptionService.GetPrescriptionDetails,
      PrescriptionService.UpdatePrescription,
      PrescriptionService.DeletePrescription,
      VideoService.GetVideoSession, VideoService.StartVideoSession,
      VideoService.EndVideoSession,
      VideoService.GetVideoSessionsByAppointment,
      VideoService.GetSignalingInfo, VideoService.GetWebRTCOffer,
      VideoService.SetWebRTCAnswer,
      messageRepository.LoadRelations, prescriptionRepository.LoadRelations,
      videoSessionRepository.LoadRelations;
    repeat first
      [ apply keeps_messages_load_all | apply keeps_prescriptions_load_all
      | apply keeps_sessions_load_all | apply keeps_ValidateSessionAccess
      | apply keeps_CreateVideoSession
      | keeps_step ].
Qed.

(** ** Prescriptions *)

Lemma prescription_FindByID_fst id st :
  fst (prescriptionRepository.FindByID id st)
  = first_row (fun p => prescriptionRepository.live p
                        && N.eqb (Prescription.ID p) id)
              (prescriptions st).
Proof. reflexivity. Qed.

(** The two reads that open every method addressed by a prescription. *)
Lemma prescription_gate {A} pid (k : Prescription.t -> Appointment.t -> M A)
      st :
  (prescription <- or_fail (prescriptionRepository.FindByID pid)
                           "prescription not found" ;;
   appointment <- or_fail (appointmentRepository.FindByID
                             (Prescription.AppointmentID prescription))
                          "appointment not found" ;;
   k prescription appointment) st
  = let st1 := set_log st (log st ++ [ReadByID Prescriptions pid]) in
    match fst (prescriptionRepository.FindByID pid st) with
    | Err _ => (Err "prescription not found", st1)
    | Ok p =>
      match appointment_at st (Prescription.AppointmentID p) with
      | None => (Err "appointment not found", st1)
      | Some a => k p a st1
      end
    end.
Proof.
  unfold bind, or_fail. unfold prescriptionRepository.FindByID at 1.
  cbv zeta. rewrite prescription_FindByID_fst.
  destruct (first_row _ (prescriptions st)) as [p|e]; [|reflexivity].
  rewrite appointment_at_set_log. unfold appointment_at.
  destruct (fst (appointmentRepository.FindByID _ st)) as [a|e];
    reflexivity.
Qed.

(** What a successful [CreatePrescription] has done. *)
Lemma CreatePrescription_inv req st p st' :
  PrescriptionService.CreatePrescription req st = (Ok p, st') ->
  p = Prescription.mk (next_id Prescription.ID (prescriptions st))
        (CreatePrescriptionRequest.AppointmentID req)
        (json.Marshal (CreatePrescriptionRequest.Items req))
        (CreatePrescriptionRequest.Notes req)
        (CreatePrescriptionRequest.CreatedByDoctorID req) None
  /\ st' = set_log (set_prescriptions st (prescriptions st ++ [p]))
             ((log st ++ [Mutation Prescriptions])
              ++ [ReadByID Prescriptions (Prescription.ID p)])
  /\ (exists a,
         appointment_at st (CreatePrescriptionRequest.AppointmentID req)
         = Some a
         /\ Appointment.DoctorID a
            = CreatePrescriptionRequest.CreatedByDoctorID req)
  /\ has_role st (CreatePrescriptionRequest.CreatedByDoctorID req) "doctor".
Proof.
  unfold PrescriptionService.CreatePrescription.
  unfold bind at 1, or_fail at 1.
  destruct (appointment_at st (CreatePrescriptionRequest.AppointmentID req))
    as [a|] eqn:A.
  2:{ apply appointment_at_none in A as [e ->]. discriminate. }
  apply appointment_at_FindByID in A as A'. rewrite A'.
  destruct (N.eqb_spec (Appointment.DoctorID a)
                       (CreatePrescriptionRequest.CreatedByDoctorID req))
    as [D|D]; cbn [negb]; [|discriminate].
  unfold bind at 1, or_fail at 1, userRepository.FindByID.
  destruct (first_row _ (users st)) as [d|e] eqn:U; [|discriminate].
  destruct (String.eqb_spec (User.Role d) "doctor") as [R|R]; cbn [negb];
    [|discriminate].
  unfold bind, prescriptionRepository.Create,
    prescriptionRepository.LoadRelations, prescriptionRepository.FindByID.
  cbn -[next_id find app Prescription.with_ID json.Marshal].
  set (p0 := Prescription.mk (next_id Prescription.ID (prescriptions st))
               (CreatePrescriptionRequest.AppointmentID req)
               (json.Marshal (CreatePrescriptionRequest.Items req))
               (CreatePrescriptionRequest.Notes req)
               (CreatePrescriptionRequest.CreatedByDoctorID req) None).
  change (Prescription.with_ID _ _) with p0.
  assert (F : find (fun x => prescriptionRepository.live x
                             && N.eqb (Prescription.ID x) (Prescription.ID p0))
                   (prescriptions st ++ [p0]) = Some p0).
  { rewrite find_app_last.
    - cbn. now rewrite N.eqb_refl.
    - intros r Hr. apply andb_false_iff. right. apply N.eqb_neq. intros E.
      pose proof (next_id_above Prescription.ID _ _ Hr) as L.
      rewrite E in L. unfold p0 in L. cbn in L. lia. }
  unfold first_row. rewrite F. intros [= <- <-].
  split; [reflexivity|]. split; [reflexivity|]. split.
  - exists a. auto.
  - exists d. unfold userRepository.FindByID. cbn [fst]. now rewrite U.
Qed.

(** X25. A successful [CreatePrescription] appends exactly one prescription,
    not deleted, with a key that no stored prescription has and the
    appointment, notes and doctor of the request, its items held as their
    JSON text; it is read back under its key, and its items are read back
    as they were given when their strings are well-formed UTF-8.  The
    caller is the doctor of the appointment and a doctor of the
    directory. *)
Theorem create_prescription_round_trip req st p st' :
  PrescriptionService.CreatePrescription req st = (Ok p, st') ->
  prescriptions st' = prescriptions st ++ [p]
  /\ (forall r, In r (prescriptions st) ->
                Prescription.ID r <> Prescription.ID p)
  /\ Prescription.AppointmentID p = CreatePrescriptionRequest.AppointmentID req
  /\ Prescription.ItemsJSON p
     = json.Marshal (CreatePrescriptionRequest.Items req)
  /\ Prescription.Notes p = CreatePrescriptionRequest.Notes req
  /\ Prescription.CreatedByDoctorID p
     = CreatePrescriptionRequest.CreatedByDoctorID req
  /\ Prescription.DeletedAt p = None
  /\ fst (prescriptionRepository.FindByID (Prescription.ID p) st') = Ok p
  /\ (valid_items (CreatePrescriptionRequest.Items req) = true ->
      PrescriptionService.GetPrescriptionItems p
      = Ok (CreatePrescriptionRequest.Items req))
  /\ (exists a,
         appointment_at st (CreatePrescriptionRequest.AppointmentID req)
         = Some a
         /\ Appointment.DoctorID a
            = CreatePrescriptionRequest.CreatedByDoctorID req)
  /\ has_role st (CreatePrescriptionRequest.CreatedByDoctorID req) "doctor".
Proof.
  intros H. apply CreatePrescription_inv in H as (-> & -> & E & R).
  set (p := Prescription.mk _ _ _ _ _ _).
  assert (F : forall r, In r (prescriptions st) ->
                        Prescription.ID r <> Prescription.ID p).
  { intros r Hr K. pose proof (next_id_above Prescription.ID _ _ Hr) as L.
    rewrite K in L. unfold p in L. cbn in L. lia. }
  split; [reflexivity|]. split; [exact F|].
  do 5 (split; [reflexivity|]). split; [|split; [|split; [exact E|exact R]]].
  - rewrite prescription_FindByID_fst. unfold first_row.
    cbn [prescriptions set_log set_prescriptions].
    rewrite find_app_last.
    + cbn. now rewrite N.eqb_refl.
    + intros r Hr. apply andb_false_iff. right. apply N.eqb_neq.
      now apply F.
  - intros V. unfold PrescriptionService.GetPrescriptionItems.
    cbn [Prescription.ItemsJSON p]. now apply Unmarshal_Marshal.
Qed.

(** X25 on a confirmed appointment: the doctor prescribes amoxicillin and the item is read back. *)
Lemma create_prescription_round_trip_witness :
  PrescriptionService.CreatePrescription
    (CreatePrescriptionRequest.mk 1 [amoxicillin] "" 1)
    (booked_clinic "confirmed" "")
  = (Ok amoxicillin_prescription,
     set_log
       (set_prescriptions (booked_clinic "confirmed" "")
          [amoxicillin_prescription])
       [Mutation Prescriptions; ReadByID Prescriptions 1])
  /\ valid_items [amoxicillin] = true
  /\ PrescriptionService.GetPrescriptionItems amoxicillin_prescription
     = Ok [amoxicillin].
Proof.
  split; [reflexivity|]. split; [reflexivity|].
  exact (proj1 (proj2 (proj2 (proj2 (proj2 (proj2 (proj2 (proj2 (proj2
           (create_prescription_round_trip
              (CreatePrescriptionRequest.mk 1 [amoxicillin] "" 1)
              (booked_clinic "confirmed" "") _ _ eq_refl)))))))))
         eq_refl).
Defined.

(** [DeletePrescription] and [GetPrescriptionDetails] as decision trees. *)
Lemma DeletePrescription_eq now prescriptionID userID st :
  PrescriptionService.DeletePrescription now prescriptionID userID st =
  let st1 := set_log st (log st ++ [ReadByID Prescriptions prescriptionID]) in
  match fst (prescriptionRepository.FindByID prescriptionID st) with
  | Err _ => (Err "prescription not found", st1)
  | Ok p =>
    match appointment_at st (Prescription.AppointmentID p) with
    | None => (Err "appointment not found", st1)
    | Some a =>
      if negb (N.eqb (Appointment.DoctorID a) userID)
      then (Err "unauthorized to delete this prescription", st1)
      else prescriptionRepository.Delete now prescriptionID st1
    end
  end.
Proof.
  unfold PrescriptionService.DeletePrescription.
  rewrite (prescription_gate prescriptionID
             (fun _ appointment =>
                if negb (N.eqb (Appointment.DoctorID appointment) userID)
                then fail "unauthorized to delete this prescription"
                else prescriptionRepository.Delete now prescriptionID)).
  cbv zeta.
  destruct (fst (prescriptionRepository.FindByID prescriptionID st));
    [|reflexivity].
  destruct (appointment_at st _); [|reflexivity].
  now destruct (negb _).
Qed.

Lemma UpdatePrescription_gate req st :
  PrescriptionService.UpdatePrescription req st =
  let st1 := set_log st (log st ++ [ReadByID Prescriptions
                                      (UpdatePrescriptionRequest.PrescriptionID
                                         req)]) in
  match fst (prescriptionRepository.FindByID
               (UpdatePrescriptionRequest.PrescriptionID req) st) with
  | Err _ => (Err "prescription not found", st1)
  | Ok p =>
    match appointment_at st (Prescription.AppointmentID p) with
    | None => (Err "appointment not found", st1)
    | Some a =>
      if negb (N.eqb (Appointment.DoctorID a)
                     (UpdatePrescriptionRequest.DoctorID req))
      then (Err "unauthorized to update this prescription", st1)
      else
        let p' := Prescription.with_Notes
                    (Prescription.with_ItemsJSON p
                       (json.Marshal (UpdatePrescriptionRequest.Items req)))
                    (UpdatePrescriptionRequest.Notes req) in
        (prescriptionRepository.Update p' ;;;
         prescriptionRepository.LoadRelations p') st1
    end
  end.
Proof.
  unfold PrescriptionService.UpdatePrescription.
  rewrite (prescription_gate (UpdatePrescriptionRequest.PrescriptionID req)
             (fun prescription appointment =>
                if negb (N.eqb (Appointment.DoctorID appointment)
                               (UpdatePrescriptionRequest.DoctorID req))
                then fail "unauthorized to update this prescription"
                else
                  let p' := Prescription.with_Notes
                              (Prescription.with_ItemsJSON prescription
                                 (json.Marshal
                                    (UpdatePrescriptionRequest.Items req)))
                              (UpdatePrescriptionRequest.Notes req) in
                  prescriptionRepository.Update p' ;;;
                  prescriptionRepository.LoadRelations p')).
  cbv zeta.
  destruct (fst (prescriptionRepository.FindByID _ st)); [|reflexivity].
  destruct (appointment_at st _); [|reflexivity].
  now destruct (negb _).
Qed.

Lemma GetPrescriptionDetails_gate prescriptionID userID st :
  PrescriptionService.GetPrescriptionDetails prescriptionID userID st =
  let st1 := set_log st (log st ++ [ReadByID Prescriptions prescriptionID]) in
  match fst (prescriptionRepository.FindByID prescriptionID st) with
  | Err _ => (Err "prescription not found", st1)
  | Ok p =>
    match appointment_at st (Prescription.AppointmentID p) with
    | None => (Err "appointment not found", st1)
    | Some a =>
      if negb (N.eqb (Appointment.PatientID a) userID)
         && negb (N.eqb (Appointment.DoctorID a) userID)
      then (Err "unauthorized to view this prescription", st1)
      else prescriptionRepository.LoadRelations p st1
    end
  end.
Proof.
  unfold PrescriptionService.GetPrescriptionDetails.
  rewrite (prescription_gate prescriptionID
             (fun prescription appointment =>
                if negb (N.eqb (Appointment.PatientID appointment) userID)
                   && negb (N.eqb (Appointment.DoctorID appointment) userID)
                then fail "unauthorized to view this prescription"
                else prescriptionRepository.LoadRelations prescription)).
  cbv zeta.
  destruct (fst (prescriptionRepository.FindByID prescriptionID st));
    [|reflexivity].
  destruct (appointment_at st _); [|reflexivity].
  now destruct (_ && _).
Qed.

(** X26. Anyone but the doctor of the appointment, its patient included, is
    refused by [CreatePrescription], [UpdatePrescription] and
    [DeletePrescription], each with its unauthorized error; the first
    writes nothing at all and the other two only note that they read the
    prescription.  The patient can nevertheless read the prescription with
    [GetPrescriptionDetails]. *)
Theorem prescription_writes_are_doctor_only st a userID :
  userID <> Appointment.DoctorID a ->
  (forall appointmentID items notes,
      appointment_at st appointmentID = Some a ->
      PrescriptionService.CreatePrescription
        (CreatePrescriptionRequest.mk appointmentID items notes userID) st
      = (Err "unauthorized to create prescription for this appointment", st))
  /\ (forall prescriptionID items notes p,
         fst (prescriptionRepository.FindByID prescriptionID st) = Ok p ->
         appointment_at st (Prescription.AppointmentID p) = Some a ->
         PrescriptionService.UpdatePrescription
           (UpdatePrescriptionRequest.mk prescriptionID userID items notes) st
         = (Err "unauthorized to update this prescription",
            set_log st (log st ++ [ReadByID Prescriptions prescriptionID])))
  /\ (forall now prescriptionID p,
         fst (prescriptionRepository.FindByID prescriptionID st) = Ok p ->
         appointment_at st (Prescription.AppointmentID p) = Some a ->
         PrescriptionService.DeletePrescription now prescriptionID userID st
         = (Err "unauthorized to delete this prescription",
            set_log st (log st ++ [ReadByID Prescriptions prescriptionID])))
  /\ (forall prescriptionID p,
         fst (prescriptionRepository.FindByID prescriptionID st) = Ok p ->
         appointment_at st (Prescription.AppointmentID p) = Some a ->
         userID = Appointment.PatientID a ->
         fst (PrescriptionService.GetPrescriptionDetails prescriptionID
                userID st) = Ok p).
Proof.
  intros N.
  assert (D : negb (N.eqb (Appointment.DoctorID a) userID) = true).
  { apply negb_true_iff, N.eqb_neq. congruence. }
  split; [|split; [|split]].
  - intros appointmentID items notes A.
    unfold PrescriptionService.CreatePrescription, bind, or_fail.
    cbn [CreatePrescriptionRequest.AppointmentID
           CreatePrescriptionRequest.CreatedByDoctorID].
    apply appointment_at_FindByID in A. rewrite A, D. reflexivity.
  - intros prescriptionID items notes p F A.
    rewrite UpdatePrescription_gate. cbv zeta.
    cbn [UpdatePrescriptionRequest.PrescriptionID
           UpdatePrescriptionRequest.DoctorID].
    now rewrite F, A, D.
  - intros now prescriptionID p F A.
    rewrite DeletePrescription_eq. cbv zeta. now rewrite F, A, D.
  - intros prescriptionID p F A P.
    rewrite GetPrescriptionDetails_gate. cbv zeta. rewrite F, A.
    rewrite P, N.eqb_refl. cbn [negb andb].
    unfold prescriptionRepository.LoadRelations.
    rewrite prescription_FindByID_fst in *.
    cbn [prescriptions set_log]. unfold first_row in *.
    destruct (find _ (prescriptions st)) as [x|] eqn:E; [|discriminate].
    injection F as <-. apply find_some in E as E'. destruct E' as [_ Q].
    apply andb_true_iff in Q as [_ Q]. apply N.eqb_eq in Q.
    rewrite Q. now rewrite E.
Qed.

(** X26 in the clinic with a prescription for appointment 1: patient 2 may not delete it. *)
Lemma prescription_writes_are_doctor_only_witness :
  2%N <> Appointment.DoctorID (appointment_1 "confirmed" "" 100)
  /\ PrescriptionService.DeletePrescription 100 1 2 clinic_in_session
     = (Err "unauthorized to delete this prescription",
        set_log clinic_in_session [ReadByID Prescriptions 1]).
Proof.
  assert (N : 2%N <> Appointment.DoctorID
                       (appointment_1 "confirmed" "" 100))
    by discriminate.
  split; [exact N|].
  exact (proj1 (proj2 (proj2 (prescription_writes_are_doctor_only
                                clinic_in_session _ 2 N)))
           100%Z 1%N _ eq_refl eq_refl).
Defined.

Lemma prescription_query_deleted now id p :
  prescriptionRepository.live
    (if prescriptionRepository.live p && N.eqb (Prescription.ID p) id
     then Prescription.with_DeletedAt p (Some now) else p)
  && N.eqb (Prescription.ID
              (if prescriptionRepository.live p
                  && N.eqb (Prescription.ID p) id
               then Prescription.with_DeletedAt p (Some now) else p)) id
  = false.
Proof.
  destruct (prescriptionRepository.live p && N.eqb (Prescription.ID p) id)
    eqn:Q; [reflexivity|exact Q].
Qed.

(** What a successful [DeletePrescription] has done. *)
Lemma DeletePrescription_inv now prescriptionID userID st st' :
  PrescriptionService.DeletePrescription now prescriptionID userID st
  = (Ok tt, st') ->
  st' = set_log
          (set_prescriptions st
             (map (fun p => if prescriptionRepository.live p
                               && N.eqb (Prescription.ID p) prescriptionID
                            then Prescription.with_DeletedAt p (Some now)
                            else p) (prescriptions st)))
          ((log st ++ [ReadByID Prescriptions prescriptionID])
           ++ [Mutation Prescriptions])
  /\ exists p a,
      fst (prescriptionRepository.FindByID prescriptionID st) = Ok p
      /\ appointment_at st (Prescription.AppointmentID p) = Some a
      /\ Appointment.DoctorID a = userID.
Proof.
  rewrite DeletePrescription_eq. cbv zeta.
  destruct (fst (prescriptionRepository.FindByID prescriptionID st))
    as [p|e] eqn:F; [|discriminate].
  destruct (appointment_at st _) as [a|] eqn:A; [|discriminate].
  destruct (N.eqb_spec (Appointment.DoctorID a) userID) as [D|D];
    cbn [negb]; [|discriminate].
  unfold prescriptionRepository.Delete, modify. intros [= <-].
  split; [reflexivity|]. now exists p, a.
Qed.

(** X27. After a successful [DeletePrescription], which only the doctor of the
    appointment obtains, the prescription is no longer found: reading,
    updating and deleting it answer [prescription not found] whoever asks,
    and no list of an appointment's prescriptions contains it.  The other
    prescriptions are read back as before, and the table has as many rows
    as before (the row is kept, marked deleted). *)
Theorem deleted_prescription_is_gone now prescriptionID userID st st' :
  PrescriptionService.DeletePrescription now prescriptionID userID st
  = (Ok tt, st') ->
  fst (prescriptionRepository.FindByID prescriptionID st')
  = Err ErrRecordNotFound
  /\ (forall u, fst (PrescriptionService.GetPrescriptionDetails
                       prescriptionID u st')
                = Err "prescription not found")
  /\ (forall u items notes,
         fst (PrescriptionService.UpdatePrescription
                (UpdatePrescriptionRequest.mk prescriptionID u items notes)
                st')
         = Err "prescription not found")
  /\ (forall now' u,
         fst (PrescriptionService.DeletePrescription now' prescriptionID u st')
         = Err "prescription not found")
  /\ (forall appointmentID l p,
         fst (prescriptionRepository.FindByAppointmentID appointmentID st')
         = Ok l ->
         In p l -> Prescription.ID p <> prescriptionID)
  /\ (forall id, id <> prescriptionID ->
                 fst (prescriptionRepository.FindByID id st')
                 = fst (prescriptionRepository.FindByID id st))
  /\ List.length (prescriptions st') = List.length (prescriptions st)
  /\ (exists p a,
         fst (prescriptionRepository.FindByID prescriptionID st) = Ok p
         /\ appointment_at st (Prescription.AppointmentID p) = Some a
         /\ Appointment.DoctorID a = userID).
Proof.
  intros H. apply DeletePrescription_inv in H as (-> & E).
  set (st' := set_log _ _).
  assert (G : fst (prescriptionRepository.FindByID prescriptionID st')
              = Err ErrRecordNotFound).
  { rewrite prescription_FindByID_fst. unfold first_row, st'.
    cbn [prescriptions set_log set_prescriptions].
    rewrite find_map_none; [reflexivity|].
    intros p. apply prescription_query_deleted. }
  split; [exact G|]. split; [|split; [|split; [|split; [|split; [|split]]]]].
  - intros u. rewrite GetPrescriptionDetails_gate. cbv zeta. now rewrite G.
  - intros u items notes. rewrite UpdatePrescription_gate. cbv zeta.
    cbn [UpdatePrescriptionRequest.PrescriptionID]. now rewrite G.
  - intros now' u. rewrite DeletePrescription_eq. cbv zeta. now rewrite G.
  - intros appointmentID l p.
    unfold prescriptionRepository.FindByAppointmentID, st'.
    cbn [fst prescriptions set_log set_prescriptions]. intros [= <-] I.
    apply in_rev, filter_In in I as [I Q].
    apply andb_true_iff in Q as [L _].
    apply in_map_iff in I as (x & <- & _). intros K.
    pose proof (prescription_query_deleted now prescriptionID x) as Z.
    rewrite L, K, N.eqb_refl in Z. discriminate.
  - intros id Hid. rewrite !prescription_FindByID_fst. unfold first_row, st'.
    cbn [prescriptions set_log set_prescriptions].
    rewrite find_map_frame; [reflexivity| |].
    + intros p.
      destruct (prescriptionRepository.live p
                && N.eqb (Prescription.ID p) prescriptionID) eqn:Q;
        [|reflexivity].
      apply andb_true_iff in Q as [L Q]. apply N.eqb_eq in Q.
      rewrite L. cbn.
      destruct (N.eqb_spec (Prescription.ID p) id); [congruence|reflexivity].
    + intros p Q. apply andb_true_iff in Q as [L Q]. apply N.eqb_eq in Q.
      rewrite L. cbn [andb].
      destruct (N.eqb_spec (Prescription.ID p) prescriptionID);
        [congruence|reflexivity].
  - unfold st'. cbn. now rewrite length_map.
  - exact E.
Qed.

(** X27 in the clinic with a prescription for appointment 1: the doctor deletes it. *)
Lemma deleted_prescription_is_gone_witness :
  PrescriptionService.DeletePrescription 100 1 1 clinic_in_session
  = (Ok tt,
     set_log
       (set_prescriptions clinic_in_session
          [Prescription.mk 1 1 (json.Marshal []) "" 1 (Some 100%Z)])
       [ReadByID Prescriptions 1; Mutation Prescriptions])
  /\ fst (prescriptionRepository.FindByID 1
            (set_log
               (set_prescriptions clinic_in_session
                  [Prescription.mk 1 1 (json.Marshal []) "" 1 (Some 100%Z)])
               [ReadByID Prescriptions 1; Mutation Prescriptions]))
     = Err ErrRecordNotFound.
Proof.
  split; [reflexivity|].
  exact (proj1 (deleted_prescription_is_gone 100 1 1 clinic_in_session
                  _ eq_refl)).
Defined.

(** X28. A successful [UpdatePrescription], which only the doctor of the
    appointment obtains, keeps the key, the appointment and the author of
    the prescription; the notes become those of the request, also when the
    request has none; the other prescriptions are read back as before and
    no row is added or removed. *)
Theorem update_prescription_frame req st p' st' :
  PrescriptionService.UpdatePrescription req st = (Ok p', st') ->
  exists p,
    fst (prescriptionRepository.FindByID
           (UpdatePrescriptionRequest.PrescriptionID req) st) = Ok p
    /\ Prescription.ID p' = Prescription.ID p
    /\ Prescription.AppointmentID p' = Prescription.AppointmentID p
    /\ Prescription.CreatedByDoctorID p' = Prescription.CreatedByDoctorID p
    /\ Prescription.DeletedAt p' = None
    /\ Prescription.Notes p' = UpdatePrescriptionRequest.Notes req
    /\ (forall id, id <> UpdatePrescriptionRequest.PrescriptionID req ->
                   fst (prescriptionRepository.FindByID id st')
                   = fst (prescriptionRepository.FindByID id st))
    /\ List.length (prescriptions st') = List.length (prescriptions st)
    /\ (exists a, appointment_at st (Prescription.AppointmentID p) = Some a
                  /\ Appointment.DoctorID a
                     = UpdatePrescriptionRequest.DoctorID req).
Proof.
  intros H.
  pose proof (UpdatePrescription_inv _ _ _ _ H) as (p & F & -> & R & _).
  exists p. split; [exact F|]. do 3 (split; [reflexivity|]).
  assert (G : exists a,
             appointment_at st (Prescription.AppointmentID p) = Some a
             /\ Appointment.DoctorID a
                = UpdatePrescriptionRequest.DoctorID req).
  { rewrite UpdatePrescription_gate in H. cbv zeta in H. rewrite F in H.
    destruct (appointment_at st (Prescription.AppointmentID p)) as [a|];
      [|discriminate].
    destruct (N.eqb_spec (Appointment.DoctorID a)
                         (UpdatePrescriptionRequest.DoctorID req)) as [D|D];
      [|discriminate].
    now exists a. }
  rewrite prescription_FindByID_fst in F. unfold first_row in F.
  destruct (find _ (prescriptions st)) as [x|] eqn:E; [|discriminate].
  injection F as ->. apply find_some in E as [_ Q].
  apply andb_true_iff in Q as [L K]. apply N.eqb_eq in K.
  split.
  { unfold prescriptionRepository.live in L. cbn.
    now destruct (Prescription.DeletedAt p). }
  split; [reflexivity|]. split; [|split; [|exact G]].
  - intros id Hid. rewrite !prescription_FindByID_fst. unfold first_row.
    rewrite R. rewrite find_map_frame; [reflexivity| |].
    + intros r. unfold prescriptionRepository.save_row.
      destruct (prescriptionRepository.live r
                && N.eqb (Prescription.ID r) _) eqn:Q; [|reflexivity].
      apply andb_true_iff in Q as [Lr Q]. apply N.eqb_eq in Q.
      cbn in Q. rewrite Lr. unfold prescriptionRepository.live in L |- *.
      cbn. destruct (Prescription.DeletedAt p); [discriminate|]. cbn.
      destruct (N.eqb_spec (Prescription.ID r) id); [congruence|].
      destruct (N.eqb_spec (Prescription.ID p) id); [congruence|].
      reflexivity.
    + intros r Q. apply andb_true_iff in Q as [Lr Q]. apply N.eqb_eq in Q.
      unfold prescriptionRepository.save_row. rewrite Lr. cbn.
      destruct (N.eqb_spec (Prescription.ID r) (Prescription.ID p));
        [congruence|reflexivity].
  - rewrite R. now rewrite length_map.
Qed.

(** X28 in the clinic with a prescription for appointment 1: the doctor rewrites it. *)
Lemma update_prescription_frame_witness :
  PrescriptionService.UpdatePrescription
    (UpdatePrescriptionRequest.mk 1 1 [amoxicillin] "") clinic_in_session
  = (Ok amoxicillin_prescription,
     set_log
       (set_prescriptions clinic_in_session [amoxicillin_prescription])
       [ReadByID Prescriptions 1; Mutation Prescriptions;
        ReadByID Prescriptions 1])
  /\ exists p,
      fst (prescriptionRepository.FindByID 1 clinic_in_session) = Ok p
      /\ Prescription.ID amoxicillin_prescription = Prescription.ID p
      /\ Prescription.AppointmentID amoxicillin_prescription
         = Prescription.AppointmentID p.
Proof.
  split; [reflexivity|].
  destruct (update_prescription_frame
              (UpdatePrescriptionRequest.mk 1 1 [amoxicillin] "")
              clinic_in_session _ _ eq_refl)
    as (p & F & I & A & _).
  exists p. auto.
Defined.

(** *** Items of any strings *)

(** X29. Whatever strings the items of a request hold, the items of a
    prescription that [CreatePrescription] or [UpdatePrescription]
    returned are read back without error, and they are the items given
    with every byte that is not part of well-formed UTF-8 replaced by
    U+FFFD.  Well-formed strings, and so well-formed items, come back
    unchanged; the lone byte 255 comes back as the three bytes of
    U+FFFD. *)
Theorem stored_items_are_read_back_coerced :
  (forall req st p st',
      PrescriptionService.CreatePrescription req st = (Ok p, st') ->
      PrescriptionService.GetPrescriptionItems p
      = Ok (map coerce_item (CreatePrescriptionRequest.Items req)))
  /\ (forall req st p st',
         PrescriptionService.UpdatePrescription req st = (Ok p, st') ->
         PrescriptionService.GetPrescriptionItems p
         = Ok (map coerce_item (UpdatePrescriptionRequest.Items req)))
  /\ (forall s, utf8.ValidString s = true -> coerce s = s)
  /\ (forall items, valid_items items = true -> map coerce_item items = items)
  /\ coerce (String (utf8.chr 255) "")
     = utf8.EncodeRune utf8.RuneError.
Proof.
  split; [|split; [|split; [|split]]].
  - intros req st p st' H. apply CreatePrescription_inv in H as (-> & _).
    unfold PrescriptionService.GetPrescriptionItems.
    cbn [Prescription.ItemsJSON]. apply Unmarshal_Marshal_any.
  - intros req st p st' H. apply UpdatePrescription_inv in H as (p0 & _ & -> & _).
    unfold PrescriptionService.GetPrescriptionItems.
    cbn [Prescription.ItemsJSON Prescription.with_Notes
           Prescription.with_ItemsJSON]. apply Unmarshal_Marshal_any.
  - intros s V. now apply (coerce_valid _ s (le_n _)).
  - intros items V. induction items as [|it items IH]; [reflexivity|].
    cbn in V. apply andb_true_iff in V as [V1 V2]. cbn.
    now rewrite coerce_item_valid, IH.
  - reflexivity.
Qed.

